(** * nodejs-tarballs: the resolver, its registry and the registry consumers

    A shallow embedding of [nodejs-tarballs.py].  The script walks the
    [dependencies] tree of a [package-lock.json], fills the process-wide
    dictionary [MODULE_MAP] (artifact file name -> descriptor) and then
    writes source lines, checksums and locations from it and optionally
    downloads the artifacts.

    Conventions of the embedding:
    - a Python [str] is a [string] holding its UTF-8 bytes; every delimiter
      the script looks for is ASCII, so searching and slicing agree with the
      code-point view, and byte-wise lexicographic order is code-point order;
    - a Python [int] is a [Z], a byte of a [bytes] object is an [N] below 256;
    - [MODULE_MAP] is a [gmap string artifact], a referencing-path [set] is
      a [gset string];
    - a raised exception ends the computation: functions that may raise
      return an [outcome]. *)

From Stdlib Require Import ZArith NArith Ascii String List Lia.
From stdpp Require Import base option gmap strings list sorting pretty.

Local Open Scope string_scope.
Local Open Scope Z_scope.

(** ** Exceptions and outcomes *)

Inductive exn : Type :=
| KeyError (key : string)
| ValueError (msg : string)
| BinasciiError (msg : string)
| HTTPError (url : string)
| OSError (what : string).

Inductive outcome (A : Type) : Type :=
| Ok (a : A)
| Raise (e : exn).
Arguments Ok {A} a.
Arguments Raise {A} e.

#[global] Instance outcome_ret : MRet outcome := fun _ a => Ok a.

#[global] Instance outcome_bind : MBind outcome := fun _ _ k x =>
  match x with
  | Ok a => k a
  | Raise e => Raise e
  end.

Definition is_Ok {A : Type} (x : outcome A) : Prop := exists a, x = Ok a.

(** ** Python string primitives *)

Module Str.

(** [c in s] for a one-character [c]. *)
Fixpoint contains (c : ascii) (s : string) : bool :=
  match s with
  | EmptyString => false
  | String a s' => if Ascii.eqb a c then true else contains c s'
  end.

(** [s.find(c)]: index of the first [c], or -1. *)
Fixpoint find (c : ascii) (s : string) : Z :=
  match s with
  | EmptyString => -1
  | String a s' =>
      if Ascii.eqb a c then 0
      else let r := find c s' in if r <? 0 then -1 else r + 1
  end.

(** [s.rfind(c)]: index of the last [c], or -1. *)
Fixpoint rfind (c : ascii) (s : string) : Z :=
  match s with
  | EmptyString => -1
  | String a s' =>
      let r := rfind c s' in
      if 0 <=? r then r + 1 else if Ascii.eqb a c then 0 else -1
  end.

Fixpoint drop (n : nat) (s : string) : string :=
  match n, s with
  | O, _ => s
  | S n', String _ s' => drop n' s'
  | S _, EmptyString => EmptyString
  end.

Fixpoint take (n : nat) (s : string) : string :=
  match n, s with
  | S n', String a s' => String a (take n' s')
  | _, _ => EmptyString
  end.

Definition len (s : string) : Z := Z.of_nat (String.length s).

(** Python clamps a slice bound: a negative bound counts from the end. *)
Definition bound (i : Z) (s : string) : nat :=
  Z.to_nat (if i <? 0 then Z.max 0 (len s + i) else i).

(** [s[i:]] *)
Definition slice_from (i : Z) (s : string) : string := drop (bound i s) s.

(** [s[:j]] *)
Definition slice_to (j : Z) (s : string) : string := take (bound j s) s.

(** [s.endswith(suffix)] *)
Definition endswith (suffix s : string) : bool :=
  if (String.length s <? String.length suffix)%nat then false
  else String.eqb (drop (String.length s - String.length suffix) s) suffix.

(** [s.split(sep, maxsplit)] for a one-character separator. *)
Fixpoint split_max (sep : ascii) (maxsplit : nat) (s : string) {struct s} : list string :=
  match maxsplit with
  | O => [s]
  | S k =>
      match s with
      | EmptyString => [EmptyString]
      | String a s' =>
          if Ascii.eqb a sep then EmptyString :: split_max sep k s'
          else match split_max sep maxsplit s' with
               | h :: t => String a h :: t
               | [] => [String a EmptyString]
               end
      end
  end.

(** [s.split(sep)]: no limit on the number of splits. *)
Definition split (sep : ascii) (s : string) : list string :=
  split_max sep (String.length s) s.

(** [sep.join((a, b))] *)
Definition join2 (sep a b : string) : string := a +:+ sep +:+ b.

(** [sep.join(l)] *)
Fixpoint join (sep : string) (l : list string) : string :=
  match l with
  | [] => EmptyString
  | [a] => a
  | a :: l' => a +:+ sep +:+ join sep l'
  end.

Definition upper_char (a : ascii) : ascii :=
  let n := N_of_ascii a in
  if ((97 <=? n) && (n <=? 122))%N then ascii_of_N (n - 32) else a.

Definition lower_char (a : ascii) : ascii :=
  let n := N_of_ascii a in
  if ((65 <=? n) && (n <=? 90))%N then ascii_of_N (n + 32) else a.

Fixpoint map_chars (f : ascii -> ascii) (s : string) : string :=
  match s with
  | EmptyString => EmptyString
  | String a s' => String (f a) (map_chars f s')
  end.

(** [s.upper()] and [s.lower()], on the ASCII letters. *)
Definition upper : string -> string := map_chars upper_char.
Definition lower : string -> string := map_chars lower_char.

Fixpoint forallb (f : ascii -> bool) (s : string) : bool :=
  match s with
  | EmptyString => true
  | String a s' => f a && forallb f s'
  end.

(** [s.lstrip(chars)] with the character class given as a predicate. *)
Fixpoint lstrip (f : ascii -> bool) (s : string) : string :=
  match s with
  | EmptyString => EmptyString
  | String a s' => if f a then lstrip f s' else s
  end.

(** Removes every character of a class: the chained [s.replace(b, "")]. *)
Fixpoint remove (f : ascii -> bool) (s : string) : string :=
  match s with
  | EmptyString => EmptyString
  | String a s' => if f a then remove f s' else String a (remove f s')
  end.

End Str.

(** [os.path.basename] of posixpath. *)
Definition basename (p : string) : string :=
  let i := Str.rfind "/" p + 1 in
  Str.slice_from i p.

#[global] Instance outcome_fmap : FMap outcome := fun _ _ f x =>
  match x with
  | Ok a => Ok (f a)
  | Raise e => Raise e
  end.

(** Tuple unpacking [a, b = l]. *)
Definition unpack2 {A : Type} (l : list A) : outcome (A * A) :=
  match l with
  | [a; b] => Ok (a, b)
  | [] | [_] => Raise (ValueError "not enough values to unpack")
  | _ => Raise (ValueError "too many values to unpack")
  end.

(** ** [binascii] and [base64]

    The non-strict decoder of CPython's [binascii.a2b_base64], which
    [base64.b64decode] calls with its default arguments, and [hexlify]. *)

Module binascii.
Local Open Scope N_scope.

Definition BASE64_PAD : N := 61.

(** The decoding table: 64 marks a byte outside the alphabet. *)
Definition table_a2b_base64 (c : N) : N :=
  if (65 <=? c) && (c <=? 90) then c - 65
  else if (97 <=? c) && (c <=? 122) then c - 71
  else if (48 <=? c) && (c <=? 57) then c + 4
  else if c =? 43 then 62
  else if c =? 47 then 63
  else 64.

(** A store into an [unsigned char]. *)
Definition u8 (x : N) : N := N.land x 255.

(** The decoding loop with its three locals.  Every [*bin_data++ = b]
    puts [b] in front of what the rest of the loop writes. *)
Fixpoint a2b_loop (ascii_data : list N) (quad_pos : N) (leftchar : N) (pads : N)
  : outcome (list N) :=
  match ascii_data with
  | [] =>
      if quad_pos =? 0 then Ok []
      else if quad_pos =? 1 then
        Raise (BinasciiError "Invalid base64-encoded string: number of data characters cannot be 1 more than a multiple of 4")
      else Raise (BinasciiError "Incorrect padding")
  | this_ch :: rest =>
      if this_ch =? BASE64_PAD then
        if 2 <=? quad_pos then
          let pads := pads + 1 in
          if 4 <=? quad_pos + pads then Ok []
          else a2b_loop rest quad_pos leftchar pads
        else a2b_loop rest quad_pos leftchar pads
      else
        let this_ch := table_a2b_base64 this_ch in
        if 64 <=? this_ch then a2b_loop rest quad_pos leftchar pads
        else
          if quad_pos =? 0 then
            a2b_loop rest 1 this_ch 0
          else if quad_pos =? 1 then
            cons (u8 (N.lor (N.shiftl leftchar 2) (N.shiftr this_ch 4)))
              <$> a2b_loop rest 2 (N.land this_ch 15) 0
          else if quad_pos =? 2 then
            cons (u8 (N.lor (N.shiftl leftchar 4) (N.shiftr this_ch 2)))
              <$> a2b_loop rest 3 (N.land this_ch 3) 0
          else
            cons (u8 (N.lor (N.shiftl leftchar 6) this_ch))
              <$> a2b_loop rest 0 0 0
  end.

Definition a2b_base64 (data : list N) : outcome (list N) :=
  a2b_loop data 0 0 0.

Definition hexdigit (n : N) : ascii :=
  ascii_of_N (if n <? 10 then 48 + n else 87 + n).

(** [hexlify(data).decode("ascii")]: two lowercase digits per byte. *)
Fixpoint hexlify (data : list N) : string :=
  match data with
  | [] => EmptyString
  | b :: rest =>
      String (hexdigit (N.shiftr b 4)) (String (hexdigit (N.land b 15)) (hexlify rest))
  end.

End binascii.

Fixpoint codes (s : string) : list N :=
  match s with
  | EmptyString => []
  | String a s' => N_of_ascii a :: codes s'
  end.

(** [base64.b64decode(s)] for a [str] argument: the string is first encoded
    as ASCII, which fails on any other character. *)
Definition b64decode (s : string) : outcome (list N) :=
  if Str.forallb (fun a => (N_of_ascii a <? 128)%N) s
  then binascii.a2b_base64 (codes s)
  else Raise (ValueError "string argument should contain only ASCII characters").

(** What the manifest format means by a base64 digest: the RFC 4648
    encoding, standard alphabet, padded to a multiple of four characters.
    The script never encodes; this is the reference the decoder is
    compared with. *)
Module rfc4648.
Local Open Scope N_scope.

Definition alphabet (v : N) : ascii :=
  ascii_of_N
    (if v <? 26 then 65 + v
     else if v <? 52 then 71 + v
     else if v <? 62 then v - 4
     else if v =? 62 then 43 else 47).

Fixpoint encode (data : list N) : string :=
  match data with
  | [] => EmptyString
  | [a] =>
      String (alphabet (a / 4))
        (String (alphabet ((a mod 4) * 16)) "==")
  | [a; b] =>
      String (alphabet (a / 4))
        (String (alphabet ((a mod 4) * 16 + b / 16))
           (String (alphabet ((b mod 16) * 4)) "="))
  | a :: b :: c :: rest =>
      String (alphabet (a / 4))
        (String (alphabet ((a mod 4) * 16 + b / 16))
           (String (alphabet ((b mod 16) * 4 + c / 64))
              (String (alphabet (c mod 64)) (encode rest))))
  end.

End rfc4648.

(** [x in (a, b, ...)] on strings. *)
Definition str_in (x : string) (l : list string) : bool :=
  existsb (String.eqb x) l.

(** ** [urllib.parse]

    [urlparse] and [urlunparse] as the script uses them (CPython 3.12).
    Two checks of the library look at the host alone and depend on the
    [ipaddress] and [unicodedata] modules; they are taken as given. *)

Module urllib.

Record ParseResult : Type := mkParseResult {
  scheme : string;
  netloc : string;
  path : string;
  params : string;
  query : string;
  fragment : string
}.

(** [check_bracketed_host h] holds when [_check_bracketed_host(h)] returns
    and [checknetloc n] when [_checknetloc(n)] returns on a host with
    characters outside ASCII. *)
Class HostChecks : Type := {
  check_bracketed_host : string -> bool;
  checknetloc : string -> bool
}.

Definition code_in (lo hi : N) (a : ascii) : bool :=
  ((lo <=? N_of_ascii a) && (N_of_ascii a <=? hi))%N.

Definition is_ascii_alpha (a : ascii) : bool :=
  code_in 97 122 a || code_in 65 90 a.

(** [scheme_chars]: letters, digits and "+-.". *)
Definition scheme_char (a : ascii) : bool :=
  is_ascii_alpha a || code_in 48 57 a
  || Ascii.eqb a "+" || Ascii.eqb a "-" || Ascii.eqb a ".".

(** [_WHATWG_C0_CONTROL_OR_SPACE] *)
Definition c0_control_or_space (a : ascii) : bool := code_in 0 32 a.

(** [_UNSAFE_URL_BYTES_TO_REMOVE]: tab, carriage return, line feed. *)
Definition unsafe_url_byte (a : ascii) : bool :=
  let n := N_of_ascii a in ((n =? 9) || (n =? 13) || (n =? 10))%N.

Definition uses_params : list string :=
  [""; "ftp"; "hdl"; "prospero"; "http"; "imap"; "https"; "shttp"; "rtsp";
   "rtspu"; "sip"; "sips"; "mms"; "sftp"; "tel"].

Definition uses_netloc : list string :=
  [""; "ftp"; "http"; "gopher"; "nntp"; "telnet"; "imap"; "wais"; "file";
   "mms"; "https"; "shttp"; "snews"; "prospero"; "rtsp"; "rtspu"; "rsync";
   "svn"; "svn+ssh"; "sftp"; "nfs"; "git"; "git+ssh"; "ws"; "wss";
   "itms-services"].

(** [s.split(c, 1)] when [c in s]; [(s, "")] otherwise. *)
Definition cut (c : ascii) (s : string) : string * string :=
  if Str.contains c s
  then (Str.slice_to (Str.find c s) s, Str.slice_from (Str.find c s + 1) s)
  else (s, EmptyString).

(** [_splitnetloc(url, 2)]: the host runs up to the first of "/?#". *)
Fixpoint host_end (s : string) : nat :=
  match s with
  | EmptyString => O
  | String a s' =>
      if Ascii.eqb a "/" || Ascii.eqb a "?" || Ascii.eqb a "#" then O
      else S (host_end s')
  end.

Definition splitnetloc (url : string) : string * string :=
  let rest := Str.drop 2 url in
  (Str.take (host_end rest) rest, Str.drop (host_end rest) rest).

Section WithChecks.
Context {checks : HostChecks}.

Definition urlsplit (url : string) : outcome (string * string * string * string * string) :=
  let url := Str.lstrip c0_control_or_space url in
  let url := Str.remove unsafe_url_byte url in
  let i := Str.find ":" url in
  let '(scheme, url) :=
    if (0 <? i)
       && match url with String a _ => is_ascii_alpha a | EmptyString => false end
       && Str.forallb scheme_char (Str.slice_to i url)
    then (Str.lower (Str.slice_to i url), Str.slice_from (i + 1) url)
    else (EmptyString, url) in
  '(netloc, url) ←
    (if String.eqb (Str.slice_to 2 url) "//" then
       let '(netloc, url) := splitnetloc url in
       let lb := Str.contains "[" netloc in
       let rb := Str.contains "]" netloc in
       if (lb && negb rb) || (rb && negb lb) then
         Raise (ValueError "Invalid IPv6 URL")
       else if lb && rb then
         let bracketed_host := fst (cut "]" (snd (cut "[" netloc))) in
         if check_bracketed_host bracketed_host then Ok (netloc, url)
         else Raise (ValueError "invalid bracketed host")
       else Ok (netloc, url)
     else Ok (EmptyString, url));
  let '(url, fragment) := cut "#" url in
  let '(url, query) := cut "?" url in
  if String.eqb netloc ""
     || Str.forallb (fun a => (N_of_ascii a <? 128)%N) netloc
     || checknetloc netloc
  then Ok (scheme, netloc, url, query, fragment)
  else Raise (ValueError "netloc contains invalid characters under NFKC normalization").

Definition splitparams (url : string) : string * string :=
  let i :=
    if Str.contains "/" url then
      let from := Str.rfind "/" url in
      let r := Str.find ";" (Str.slice_from from url) in
      if r <? 0 then -1 else from + r
    else Str.find ";" url in
  if Str.contains "/" url && (i <? 0) then (url, EmptyString)
  else (Str.slice_to i url, Str.slice_from (i + 1) url).

Definition urlparse (url : string) : outcome ParseResult :=
  '(scheme, netloc, url, query, fragment) ← urlsplit url;
  let '(url, params) :=
    if str_in scheme uses_params && Str.contains ";" url
    then splitparams url
    else (url, EmptyString) in
  Ok (mkParseResult scheme netloc url params query fragment).

End WithChecks.

Definition truthy (s : string) : bool := negb (String.eqb s "").

Definition urlunsplit (scheme netloc url query : string) (fragment : option string) : string :=
  let url :=
    if truthy netloc
       || (truthy scheme && str_in scheme uses_netloc
           && negb (String.eqb (Str.slice_to 2 url) "//"))
    then
      let url :=
        if truthy url && negb (String.eqb (Str.slice_to 1 url) "/")
        then "/" +:+ url else url in
      "//" +:+ netloc +:+ url
    else url in
  let url := if truthy scheme then scheme +:+ ":" +:+ url else url in
  let url := if truthy query then url +:+ "?" +:+ query else url in
  match fragment with
  | Some f => if truthy f then url +:+ "#" +:+ f else url
  | None => url
  end.

(** [urlunparse((scheme, netloc, url, params, query, fragment))]; the
    script passes [None] as the fragment. *)
Definition urlunparse (scheme netloc url params query : string) (fragment : option string) : string :=
  let url := if truthy params then url +:+ ";" +:+ params else url in
  urlunsplit scheme netloc url query fragment.

End urllib.

(** ** The manifest

    A node of the [dependencies] tree as [json.load] returns it: a dict
    with the optional keys the script reads.  A [dependencies] dict is the
    list of its items, whose keys are distinct. *)

#[local] Unset Elimination Schemes.
Inductive entry : Type := mkEntry {
  bundled : option bool;
  resolved : option string;
  integrity : option string;
  from : option string;
  dependencies : option (list (string * entry))
}.

#[local] Set Elimination Schemes.

Abbreviation deps_t := (list (string * entry)).

(** ** The registry

    [MODULE_MAP] maps a file name to a dict of one of two shapes,
    ["url", "algo", "chksum"] for a tarball of the package registry and
    ["scm", "branch", "basename", "url"] (with ["scm"] always ["git"]) for a
    git reference, each with the set ["path"] once a path was added. *)

Inductive descriptor : Type :=
| Tarball (url algo chksum : string)
| Git (branch basename url : string).

Record artifact : Type := mkArtifact {
  desc : descriptor;
  path : option (gset string)
}.

Inductive level : Type := DEBUG | INFO | WARNING | ERROR.

Record log_record : Type := mkLog {
  levelname : level;
  msg : string;
  args : list string
}.

Record state : Type := mkState {
  MODULE_MAP : gmap string artifact;
  log : list log_record
}.

Definition initial : state := mkState ∅ [].

Definition logging (l : level) (fmt : string) (a : list string) (st : state) : state :=
  mkState (MODULE_MAP st) (log st ++ [mkLog l fmt a])%list.

(** [a["url"]], [a["algo"]], [a["chksum"]], [a["branch"]], [a["basename"]],
    [a["path"]] and ["scm" in a]. *)
Definition get_url (a : artifact) : string :=
  match desc a with
  | Tarball url _ _ => url
  | Git _ _ url => url
  end.

Definition get_algo (a : artifact) : outcome string :=
  match desc a with
  | Tarball _ algo _ => Ok algo
  | Git _ _ _ => Raise (KeyError "algo")
  end.

Definition get_chksum (a : artifact) : outcome string :=
  match desc a with
  | Tarball _ _ chksum => Ok chksum
  | Git _ _ _ => Raise (KeyError "chksum")
  end.

Definition get_branch (a : artifact) : outcome string :=
  match desc a with
  | Tarball _ _ _ => Raise (KeyError "branch")
  | Git branch _ _ => Ok branch
  end.

Definition get_basename (a : artifact) : outcome string :=
  match desc a with
  | Tarball _ _ _ => Raise (KeyError "basename")
  | Git _ basename _ => Ok basename
  end.

Definition get_path (a : artifact) : outcome (gset string) :=
  match path a with
  | Some s => Ok s
  | None => Raise (KeyError "path")
  end.

Definition has_scm (a : artifact) : bool :=
  match desc a with
  | Tarball _ _ _ => false
  | Git _ _ _ => true
  end.

(** [MODULE_MAP[fn]] *)
Definition getitem (fn : string) (m : gmap string artifact) : outcome artifact :=
  match m !! fn with
  | Some a => Ok a
  | None => Raise (KeyError fn)
  end.

(** [a.setdefault("path", set()).add(p)] *)
Definition setdefault_path_add (p : string) (a : artifact) : artifact :=
  mkArtifact (desc a) (Some (default ∅ (path a) ∪ {[ p ]})).

(** [MODULE_MAP[fn].setdefault("path", set()).add(p)] *)
Definition add_path (fn p : string) (st : state) : outcome state :=
  a ← getitem fn (MODULE_MAP st);
  Ok (mkState (<[fn := setdefault_path_add p a]> (MODULE_MAP st)) (log st)).

(** [MODULE_MAP[fn] = d] with a dict [d] that has no ["path"] yet. *)
Definition setitem (fn : string) (d : descriptor) (st : state) : state :=
  mkState (<[fn := mkArtifact d None]> (MODULE_MAP st)) (log st).

(** ** [sorted] over the keys of a dict, each with its value

    An insertion sort; on the distinct keys of a dict every sort gives the
    same list. *)

Section Sorted.
Context {V : Type}.

Fixpoint insert_item (x : string * V) (l : list (string * V)) : list (string * V) :=
  match l with
  | [] => [x]
  | y :: l' =>
      if String.leb (fst x) (fst y) then x :: l
      else y :: insert_item x l'
  end.

Fixpoint sorted (l : list (string * V)) : list (string * V) :=
  match l with
  | [] => []
  | x :: l' => insert_item x (sorted l')
  end.

(** The order of the keys. *)
Definition key_le (x y : string * V) : Prop := String.leb (fst x) (fst y) = true.
End Sorted.

(** ** The resolver: [collect_deps_recursive] *)

Section Resolver.
Context {checks : urllib.HostChecks}.

(** The branch of an entry without ["resolved"]: lines 50 to 80. *)
Definition unresolved (module path : string) (entry : entry) (st : state) : outcome state :=
  match from entry with
  | Some entry_from =>
      o ← urllib.urlparse entry_from;
      if str_in (urllib.scheme o) ["git+http"; "git+https"] then
        '(_, scheme) ← unpack2 (Str.split "+" (urllib.scheme o));
        let branch := "master" in
        let branch := if urllib.truthy (urllib.fragment o) then urllib.fragment o else branch in
        let p := basename (urllib.path o) in
        let p := if Str.endswith ".git" p then Str.slice_to (-4) p else p in
        let fn := p +:+ "-" +:+ branch +:+ ".tgz" in
        let st :=
          setitem fn
            (Git branch p
               (urllib.urlunparse scheme (urllib.netloc o) (urllib.path o)
                  (urllib.params o) (urllib.query o) None)) st in
        add_path fn path st
      else
        Ok (logging WARNING "entry %s is from unsupported location %s"
              [module; entry_from] st)
  | None =>
      Ok (logging WARNING "entry %s has no download" [module] st)
  end.

(** [algo, chksum = integrity.split("-", 2)] and the conversion of the
    digest from base64 to hexadecimal: lines 83 and 84. *)
Definition parse_integrity (integrity : string) : outcome (string * string) :=
  '(algo, chksum) ← unpack2 (Str.split_max "-" 2 integrity);
  raw ← b64decode chksum;
  Ok (algo, binascii.hexlify raw).

(** The file name of a registry tarball: lines 85 to 90. *)
Definition tarball_fn (module url : string) : string :=
  let fn := basename url in
  if Str.contains "/" module
  then hd EmptyString (Str.split "/" module) +:+ "-" +:+ fn
  else fn.

(** The branch of an entry with ["resolved"]: lines 82 to 110. *)
Definition registry_resolved (module path url : string) (entry : entry) (st : state)
  : outcome state :=
  entry_integrity ←
    match integrity entry with
    | Some i => Ok i
    | None => Raise (KeyError "integrity")
    end;
  '(algo, chksum) ← parse_integrity entry_integrity;
  let fn := tarball_fn module url in
  st ←
    match MODULE_MAP st !! fn with
    | Some old =>
        mismatch ←
          (if negb (String.eqb (get_url old) url) then Ok true
           else
             old_algo ← get_algo old;
             if negb (String.eqb old_algo algo) then Ok true
             else
               old_chksum ← get_chksum old;
               Ok (negb (String.eqb old_chksum chksum)));
        if mismatch : bool then
          old_algo ← get_algo old;
          old_chksum ← get_chksum old;
          Ok (logging ERROR "%s: mismatch %s <> %s, %s:%s <> %s:%s"
                [module; get_url old; url; old_algo; old_chksum; algo; chksum] st)
        else Ok st
    | None => Ok (setitem fn (Tarball url algo chksum) st)
    end;
  add_path fn path st.

(** What the loop body does with one entry before it looks at the
    entry's own ["dependencies"]. *)
Definition classify (module path : string) (entry : entry) (st : state) : outcome state :=
  match resolved entry with
  | None => unresolved module path entry st
  | Some url => registry_resolved module path url entry st
  end.

(** ["bundled" in entry and entry["bundled"]] *)
Definition is_bundled (entry : entry) : bool :=
  match bundled entry with
  | Some b => b
  | None => false
  end.

(** The body of the loop for one module, as a function of the module
    name, of [path] and of the state. *)
Abbreviation body := (string -> string -> state -> outcome state).

(** [path = "/".join(("node_modules", module))], then, when [d] is not
    empty, [path = "/".join((d, path))]. *)
Definition path_of (d module : string) : string :=
  let path := Str.join2 "/" "node_modules" module in
  if urllib.truthy d then Str.join2 "/" d path else path.

(** [for module in items: path = ...; body] *)
Fixpoint for_each (d : string) (items : list (string * body)) (st : state) : outcome state :=
  match items with
  | [] => Ok st
  | (module, run) :: items' =>
      st ← run module (path_of d module) st;
      for_each d items' st
  end.

(** One iteration.  The recursive call on the nested dict is prepared
    for each of its items before they are sorted, which keeps the
    recursion structural; the loop then runs them in sorted order. *)
Fixpoint visit (entry : entry) (module path : string) (st : state) {struct entry}
  : outcome state :=
  if is_bundled entry then Ok st
  else
    st ← classify module path entry st;
    match dependencies entry with
    | Some deps =>
        for_each path (sorted (map (fun '(m, e) => (m, visit e)) deps)) st
    | None => Ok st
    end.

Definition collect_deps_recursive (d : string) (deps : deps_t) (st : state)
  : outcome state :=
  for_each d (sorted (map (fun '(m, e) => (m, visit e)) deps)) st.

End Resolver.

(** ** The registry consumers of [main] *)

(** [sorted(MODULE_MAP)], each file name with [MODULE_MAP[fn]]. *)
Definition sorted_artifacts (m : gmap string artifact) : list (string * artifact) :=
  sorted (map_to_list m).

(** The line feed that ends every written line. *)
Definition nl : string := String (ascii_of_N 10) EmptyString.

(** The lines of the three writers: lines 125 to 144. *)
Fixpoint source_lines (i : Z) (l : list (string * artifact)) : list string :=
  match l with
  | [] => []
  | (fn, a) :: l' =>
      ("Source" +:+ pretty i +:+ ":     " +:+ get_url a +:+ "#/" +:+ fn +:+ nl)
        :: source_lines (i + 1) l'
  end.

Fixpoint checksum_lines (l : list (string * artifact)) : outcome (list string) :=
  match l with
  | [] => Ok []
  | (fn, a) :: l' =>
      algo ← get_algo a;
      chksum ← get_chksum a;
      rest ← checksum_lines l';
      Ok ((Str.upper algo +:+ " (" +:+ fn +:+ ") = " +:+ chksum +:+ nl) :: rest)
  end.

Fixpoint location_lines (l : list (string * artifact)) : outcome (list string) :=
  match l with
  | [] => Ok []
  | (fn, a) :: l' =>
      paths ← get_path a;
      rest ← location_lines l';
      Ok ((fn +:+ " "
           +:+ Str.join " " (merge_sort String.le (elements paths)) +:+ nl) :: rest)
  end.

(** ** The downloader: lines 146 to 214

    The working directory holds files, by name with their bytes, and
    directories.  What git, the network, the hash functions and the file
    system answer is given by a [Platform]. *)

Record world : Type := mkWorld {
  files : gmap string (list N);
  dirs : gset string
}.

(** What [with open(name, "wb") as fh: fh.write(data)] did. *)
Inductive write_result : Type :=
| Written
| WriteFailed (what : string) (remains : option (list N)).

Class Platform : Type := {
  (** [subprocess.run(argv, cwd=cwd)]: the return code and the new world *)
  run : list string -> option string -> world -> outcome (Z * world);
  (** [urllib.request.Request(url)] *)
  Request : string -> outcome unit;
  (** [urllib.request.urlopen(req)] for a request with the given
      [If-Modified-Since] header; the result is what [response.read()] does *)
  urlopen : string -> option string -> world -> outcome (outcome (list N));
  (** [hashlib.new(algo)], as the function from the data to [hexdigest()] *)
  hashlib_new : string -> outcome (list N -> string);
  (** the formatted modification time of a file *)
  stamp_of : string -> world -> string;
  (** the outcome of opening [name] for writing and writing [data] *)
  write_attempt : string -> list N -> world -> write_result
}.

Definition exists_ (name : string) (w : world) : bool :=
  bool_decide (name ∈ dom (files w)) || bool_decide (name ∈ dirs w).

(** [os.rename(src, dst)] on files of the working directory. *)
Definition rename (src dst : string) (w : world) : outcome world :=
  match files w !! src with
  | Some data => Ok (mkWorld (<[dst := data]> (delete src (files w))) (dirs w))
  | None => Raise (OSError "No such file or directory")
  end.

Definition dstate : Type := world * list log_record.

Definition dlog (l : level) (fmt : string) (a : list string) (s : dstate) : dstate :=
  (fst s, (snd s ++ [mkLog l fmt a])%list).

Definition exn_str (e : exn) : string :=
  match e with
  | KeyError k => k
  | ValueError m => m
  | BinasciiError m => m
  | HTTPError u => u
  | OSError m => m
  end.

Section Downloader.
Context {platform : Platform}.
Variable download_skip_existing : bool.

(** The git branch of the loop body; [Ok] is both the normal end of the
    iteration and [continue]. *)
Definition download_git (fn url : string) (a : artifact) (s : dstate) : outcome dstate :=
  d ← get_basename a;
  s ←
    (if exists_ d (fst s) then
       '(returncode, w) ← run ["git"; "remote"; "update"] (Some d) (fst s);
       Ok (returncode, (w, snd s))
     else
       '(returncode, w) ← run ["git"; "clone"; "--bare"; url; d] None (fst s);
       Ok (returncode, (w, snd s)));
  let '(returncode, s) := s in
  if negb (returncode =? 0) then Ok (dlog ERROR "failed to clone %s" [url] s)
  else
    branch ← get_branch a;
    '(returncode, w) ←
      run ["git"; "archive"; "--format=tar.gz"; "-o"; "../" +:+ fn;
           "--prefix"; "package/"; branch] (Some d) (fst s);
    let s := (w, snd s) in
    if negb (returncode =? 0) then Ok (dlog ERROR "failed to create tar %s" [url] s)
    else Ok s.

(** The [try] around [response.read()]: an [HTTPError] of the body is
    logged, any other exception leaves the loop. *)
Definition fetch_body (fn algo chksum : string) (h : list N -> string)
    (response : outcome (list N)) (s : dstate) : outcome dstate :=
  match response with
  | Raise (HTTPError u) => Ok (dlog ERROR (exn_str (HTTPError u)) [] s)
  | Raise e => Raise e
  | Ok data =>
      if negb (String.eqb (h data) chksum) then
        Ok (dlog ERROR "checksum failure for %s %s %s %s"
              [fn; algo; "<built-in method hexdigest>"; chksum] s)
      else
        let new := fn +:+ ".new" in
        let s :=
          match write_attempt new data (fst s) with
          | Written =>
              (mkWorld (<[new := data]> (files (fst s))) (dirs (fst s)), snd s)
          | WriteFailed what remains =>
              dlog ERROR what []
                (mkWorld
                   (match remains with
                    | Some partial => <[new := partial]> (files (fst s))
                    | None => files (fst s)
                    end) (dirs (fst s)), snd s)
          end in
        (* finally: *)
        w ← rename new fn (fst s);
        Ok (w, snd s)
  end.

(** The registry branch of the loop body. *)
Definition download_tarball (fn url : string) (a : artifact) (s : dstate) : outcome dstate :=
  _ ← Request url;
  if exists_ fn (fst s) && download_skip_existing then
    Ok (dlog INFO "skipping download of existing %s" [fn] s)
  else
    let '(header, s) :=
      if exists_ fn (fst s) then
        let stamp := stamp_of fn (fst s) in
        (Some stamp, dlog DEBUG "adding If-Modified-Since %s: %s" [fn; stamp] s)
      else (None, s) in
    let s := dlog INFO "fetching %s as %s" [url; fn] s in
    algo ← get_algo a;
    chksum ← get_chksum a;
    h ← hashlib_new algo;
    response ← urlopen url header (fst s);
    fetch_body fn algo chksum h response s.

Fixpoint download (l : list (string * artifact)) (s : dstate) : outcome dstate :=
  match l with
  | [] => Ok s
  | (fn, a) :: l' =>
      let url := get_url a in
      s ← (if has_scm a then download_git fn url a s
           else download_tarball fn url a s);
      download l' s
  end.

End Downloader.

(** ** [main] *)

(** The arguments [main] reads; a file argument is [None] when it was not
    given or is empty. *)
Record args_t : Type := mkArgs {
  output : option string;
  checksums : option string;
  locations : option string;
  arg_download : bool;
  arg_download_skip_existing : bool
}.

Section Main.
Context {checks : urllib.HostChecks} {platform : Platform}.

(** [with open(name, "w") as fh: for ...: fh.write(...)].  [open] raises
    [OSError] when the name is a directory of the working directory or the
    platform cannot open the file for writing; the lines are computed once
    the file is open, so an exception of the loop comes after those of
    [open]; writing the lines can fail as well. *)
Definition write_lines (name : string) (lines : outcome (list string)) (w : world)
  : outcome world :=
  if bool_decide (name ∈ dirs w) then Raise (OSError "Is a directory")
  else
    match write_attempt name [] w with
    | WriteFailed what _ => Raise (OSError what)
    | Written =>
        lines ← lines;
        let data := codes (String.concat "" lines) in
        match write_attempt name data w with
        | WriteFailed what _ => Raise (OSError what)
        | Written => Ok (mkWorld (<[name := data]> (files w)) (dirs w))
        end
    end.

(** [input] is what [json.load] of the input file gives: an exception, or
    the manifest's ["dependencies"] when it has the key. *)
Definition main (args : args_t) (input : outcome (option deps_t)) (w : world)
  : outcome (Z * state * world) :=
  let st := logging INFO "main" [] initial in
  js ← input;
  st ←
    match js with
    | Some deps => collect_deps_recursive "" deps st
    | None => Ok st
    end;
  let arts := sorted_artifacts (MODULE_MAP st) in
  w ←
    match output args with
    | Some name => write_lines name (Ok (source_lines 100 arts)) w
    | None => Ok w
    end;
  w ←
    match checksums args with
    | Some name => write_lines name (checksum_lines arts) w
    | None => Ok w
    end;
  w ←
    match locations args with
    | Some name => write_lines name (location_lines arts) w
    | None => Ok w
    end;
  '(w, l) ←
    (if arg_download args
     then download (arg_download_skip_existing args) arts (w, log st)
     else Ok (w, log st));
  Ok (0, mkState (MODULE_MAP st) l, w).

End Main.

(** ** Vocabulary of the properties *)

(** Host checks that let every host through. *)
Definition accept_hosts : urllib.HostChecks :=
  {| urllib.check_bracketed_host := fun _ => true;
     urllib.checknetloc := fun _ => true |}.

(** A visit: the module name, its [path] and its entry. *)
Abbreviation visit_t := (string * string * entry)%type.

Section Visits.
Context {checks : urllib.HostChecks}.

(** The entries the walk classifies, in the order it reaches them. *)
Fixpoint flat (d : string) (items : list (string * (string -> string -> list visit_t)))
  : list visit_t :=
  match items with
  | [] => []
  | (module, f) :: items' => (f module (path_of d module) ++ flat d items')%list
  end.

Fixpoint visits_entry (entry : entry) (module path : string) {struct entry}
  : list visit_t :=
  if is_bundled entry then []
  else
    (module, path, entry) ::
      match dependencies entry with
      | Some deps => flat path (sorted (map (fun '(m, e) => (m, visits_entry e)) deps))
      | None => []
      end.

Definition visits (d : string) (deps : deps_t) : list visit_t :=
  flat d (sorted (map (fun '(m, e) => (m, visits_entry e)) deps)).

(** Classifying a list of visits one after the other. *)
Fixpoint classify_all (l : list visit_t) (st : state) : outcome state :=
  match l with
  | [] => Ok st
  | (module, path, entry) :: l' =>
      st ← classify module path entry st;
      classify_all l' st
  end.

(** What the script stores for a parsed git reference: the branch, the
    repository name, the scheme without its "git+", the URL without the
    fragment, and the file name. *)
Definition git_branch (o : urllib.ParseResult) : string :=
  if urllib.truthy (urllib.fragment o) then urllib.fragment o else "master".

Definition git_basename (o : urllib.ParseResult) : string :=
  let p := basename (urllib.path o) in
  if Str.endswith ".git" p then Str.slice_to (-4) p else p.

Definition git_scheme (o : urllib.ParseResult) : string :=
  if String.eqb (urllib.scheme o) "git+http" then "http" else "https".

Definition git_url (o : urllib.ParseResult) : string :=
  urllib.urlunparse (git_scheme o) (urllib.netloc o) (urllib.path o)
    (urllib.params o) (urllib.query o) None.

Definition git_file (o : urllib.ParseResult) : string :=
  git_basename o +:+ "-" +:+ git_branch o +:+ ".tgz".

(** The file name a git reference is stored under, when the URL parses
    and has a supported scheme. *)
Definition git_fn (entry_from : string) : option string :=
  match urllib.urlparse entry_from with
  | Ok o =>
      if str_in (urllib.scheme o) ["git+http"; "git+https"]
      then Some (git_file o) else None
  | Raise _ => None
  end.

Definition derives_git (v : visit_t) : option string :=
  match resolved v.2, from v.2 with
  | None, Some f => git_fn f
  | _, _ => None
  end.

Definition derives_tarball (v : visit_t) : option string :=
  match resolved v.2 with
  | Some url => Some (tarball_fn v.1.1 url)
  | None => None
  end.

(** An entry the classification can read: the integrity of a registry
    tarball has the expected form, the URL of a [from] parses. *)
Definition readable (v : visit_t) : Prop :=
  match resolved v.2, from v.2 with
  | Some _, _ => exists i, integrity v.2 = Some i /\ is_Ok (parse_integrity i)
  | None, Some f => is_Ok (urllib.urlparse f)
  | None, None => True
  end.

(** No registry tarball derives the file name of a git reference. *)
Definition no_clash (l : list visit_t) : Prop :=
  forall v1 v2 fn, v1 ∈ l -> v2 ∈ l ->
    derives_git v1 = Some fn -> derives_tarball v2 <> Some fn.

(** Every git reference of the Registry is stored under a file name that
    a git reference of the list derives. *)
Definition git_names_within (l : list visit_t) (st : state) : Prop :=
  forall fn a, MODULE_MAP st !! fn = Some a -> has_scm a = true ->
    exists v, v ∈ l /\ derives_git v = Some fn.

(** What a classification that completes stores: the file name and the
    descriptor an entry stands for, when it stands for one. *)
Definition target (v : visit_t) : option (string * descriptor) :=
  match resolved v.2 with
  | Some url =>
      match integrity v.2 with
      | Some i =>
          match parse_integrity i with
          | Ok (algo, chksum) => Some (tarball_fn v.1.1 url, Tarball url algo chksum)
          | Raise _ => None
          end
      | None => None
      end
  | None =>
      match from v.2 with
      | Some f =>
          match urllib.urlparse f with
          | Ok o =>
              if str_in (urllib.scheme o) ["git+http"; "git+https"]
              then Some (git_file o, Git (git_branch o) (git_basename o) (git_url o))
              else None
          | Raise _ => None
          end
      | None => None
      end
  end.

(** The Registry after such a classification; there is none when a
    tarball meets a git reference under its file name. *)
Definition store (p : string) (t : option (string * descriptor))
    (m : gmap string artifact) : option (gmap string artifact) :=
  match t with
  | None => Some m
  | Some (fn, Git b n u) => Some (<[fn := mkArtifact (Git b n u) (Some {[ p ]})]> m)
  | Some (fn, Tarball u a c) =>
      match m !! fn with
      | None => Some (<[fn := mkArtifact (Tarball u a c) (Some {[ p ]})]> m)
      | Some old =>
          if has_scm old then None
          else Some (<[fn := mkArtifact (desc old) (Some (default ∅ (path old) ∪ {[ p ]}))]> m)
      end
  end.

Fixpoint store_all (l : list visit_t) (m : gmap string artifact)
  : option (gmap string artifact) :=
  match l with
  | [] => Some m
  | v :: l' =>
      match store v.1.2 (target v) m with
      | Some m' => store_all l' m'
      | None => None
      end
  end.

End Visits.

(** The manifest without its bundled entries, at every level. *)
Fixpoint prune_entry (e : entry) : entry :=
  mkEntry (bundled e) (resolved e) (integrity e) (from e)
    (match dependencies e with
     | Some deps =>
         Some ((fix prune_items (l : deps_t) : deps_t :=
                  match l with
                  | [] => []
                  | (m, c) :: l' =>
                      if is_bundled c then prune_items l'
                      else (m, prune_entry c) :: prune_items l'
                  end) deps)
     | None => None
     end).

Fixpoint prune (l : deps_t) : deps_t :=
  match l with
  | [] => []
  | (m, c) :: l' =>
      if is_bundled c then prune l' else (m, prune_entry c) :: prune l'
  end.

(** Whether some entry of the tree is bundled. *)
Fixpoint has_bundled_entry (e : entry) : bool :=
  is_bundled e
  || match dependencies e with
     | Some deps => existsb (fun '(_, c) => has_bundled_entry c) deps
     | None => false
     end.

Definition has_bundled (l : deps_t) : bool :=
  existsb (fun '(_, c) => has_bundled_entry c) l.



(** The part of a module name that [tarball_fn] looks at: the text before
    the first "/", when there is one. *)
Definition scope (module : string) : option string :=
  if Str.contains "/" module
  then Some (hd EmptyString (Str.split "/" module))
  else None.

Definition lower_hex (a : ascii) : bool :=
  urllib.code_in 48 57 a || urllib.code_in 97 102 a.

(** The referencing paths of an artifact, as a set. *)
Definition paths (a : artifact) : gset string := default ∅ (path a).

(** The numbers below [n], for checks by enumeration. *)
Definition below (n : nat) : list N := map N.of_nat (seq 0 n).

Section DigestChecks.
Local Open Scope N_scope.
Import binascii.

(** The character of a sextet decodes to the sextet, is no padding, no
    hyphen, and is ASCII. *)
Definition sextet_ok (v : N) : bool :=
  let c := N_of_ascii (rfc4648.alphabet v) in
  (table_a2b_base64 c =? v) && negb (c =? BASE64_PAD) && negb (c =? 45) && (c <? 128).

(** The sextets of a byte followed by another byte, and the bytes the
    decoder puts together from them. *)
Definition group_ok (a b : N) : bool :=
  let s2 := (a mod 4) * 16 + b / 16 in
  let s3 := (a mod 16) * 4 + b / 64 in
  (a / 4 <? 64) && (s2 <? 64) && (s3 <? 64) && (a mod 64 <? 64)
  && (u8 (N.lor (N.shiftl (a / 4) 2) (N.shiftr s2 4)) =? a)
  && (N.land s2 15 =? b / 16)
  && (u8 (N.lor (N.shiftl (a / 16) 4) (N.shiftr s3 2)) =? a)
  && (N.land s3 3 =? b / 64)
  && (u8 (N.lor (N.shiftl (a / 64) 6) (a mod 64)) =? a).

(** Both digits [hexlify] writes for a byte are lowercase hexadecimal. *)
Definition hex_byte_ok (b : N) : bool :=
  lower_hex (hexdigit (N.shiftr b 4)) && lower_hex (hexdigit (N.land b 15)).

(** An ASCII character other than the hyphen. *)
Definition plain_char (a : ascii) : bool :=
  (N_of_ascii a <? 128) && negb (Ascii.eqb a "-").
End DigestChecks.

(** An item whose entry is not bundled. *)
Definition not_bundled (x : string * entry) : bool := negb (is_bundled x.2).

(** ** Example data *)

(** A registry tarball with the SHA-1 digest of the empty input. *)
Definition x_url : string := "https://r.example/x/-/x-1.0.tgz".
Definition x_integrity : string := "sha1-2jmj7l5rSw0yVb/vlWAYkK/YBwk=".
Definition x_chksum : string := "da39a3ee5e6b4b0d3255bfef95601890afd80709".
Definition x_tarball : entry := mkEntry None (Some x_url) (Some x_integrity) None None.

(** A Registry that holds another tarball under the name [x-1.0.tgz]. *)
Definition other_x : descriptor := Tarball "https://other.example/x-1.0.tgz" "sha1" "00".
Definition st_other_x : state :=
  mkState {[ "x-1.0.tgz" := mkArtifact other_x (Some {[ "node_modules/a" ]}) ]} [].

(** A git reference without fragment, and one to the tag [v1] whose file
    name is also the name of a registry tarball. *)
Definition repo_git : entry :=
  mkEntry None None None (Some "git+https://example.com/org/repo.git") None.
Definition repo_git_v1 : entry :=
  mkEntry None None None (Some "git+https://example.com/org/repo.git#v1") None.
Definition repo_tarball_v1 : entry :=
  mkEntry None (Some "https://r.example/repo/-/repo-v1.tgz") (Some x_integrity) None None.

(** Two registry artifacts, in the order of their names. *)
Definition x_artifact : artifact :=
  mkArtifact (Tarball x_url "sha1" x_chksum) (Some {[ "node_modules/x" ]}).
Definition y_artifact : artifact :=
  mkArtifact (Tarball "https://r.example/y/-/y-2.0.tgz" "sha1" x_chksum)
    (Some {[ "node_modules/y" ]}).

(** An empty working directory, and one with an earlier [x-1.0.tgz]. *)
Definition empty_world : world := mkWorld ∅ ∅.
Definition world_with_x : world := mkWorld {[ "x-1.0.tgz" := [9; 9; 9]%N ]} ∅.

(** A platform whose server answers every request with an HTTP error. *)
Definition platform_http_error : Platform :=
  {| run := fun _ _ w => Ok (0, w);
     Request := fun _ => Ok tt;
     urlopen := fun url _ _ => Raise (HTTPError url);
     hashlib_new := fun _ => Ok (fun _ => x_chksum);
     stamp_of := fun _ _ => EmptyString;
     write_attempt := fun _ _ _ => Written |}.

(** A platform whose downloads arrive with the right digest and whose
    disk is full after the first two bytes of a file. *)
Definition platform_disk_full : Platform :=
  {| run := fun _ _ w => Ok (0, w);
     Request := fun _ => Ok tt;
     urlopen := fun _ _ _ => Ok (Ok [1; 2; 3; 4]%N);
     hashlib_new := fun _ => Ok (fun _ => x_chksum);
     stamp_of := fun _ _ => EmptyString;
     write_attempt := fun _ data _ =>
       WriteFailed "No space left on device" (Some (take 2 data)) |}.

(** Registry tarballs without integrity and with one that has no hyphen,
    and arguments that ask for no output. *)
Definition y_no_integrity : entry :=
  mkEntry None (Some "https://r.example/y/-/y-2.0.tgz") None None None.
Definition y_bad_integrity : entry :=
  mkEntry None (Some "https://r.example/y/-/y-2.0.tgz") (Some "sha512") None None.
Definition no_output : args_t := mkArgs None None None false false.

(** ** Vocabulary of the further properties *)

(** The line of the spec-line writer for the number [i] and the line of
    the checksum writer, for one item of [sorted(MODULE_MAP)]. *)
Definition source_line (i : Z) (x : string * artifact) : string :=
  "Source" +:+ pretty i +:+ ":     " +:+ get_url x.2 +:+ "#/" +:+ x.1 +:+ nl.

Definition checksum_line (x : string * artifact) : string :=
  match desc x.2 with
  | Tarball _ algo chksum => Str.upper algo +:+ " (" +:+ x.1 +:+ ") = " +:+ chksum +:+ nl
  | Git _ _ _ => EmptyString
  end.

(** Every artifact of the Registry has a set of paths that is not empty. *)
Definition has_paths (m : gmap string artifact) : Prop :=
  forall fn a, m !! fn = Some a -> exists s, path a = Some s /\ s <> ∅.

(** The visit stands for an artifact of that file name. *)
Definition derives {checks : urllib.HostChecks} (fn : string) (v : visit_t) : Prop :=
  exists dsc, target v = Some (fn, dsc).

(** A Registry with the one tarball [x-1.0.tgz], referenced by [a]. *)
Definition st_x_a : state :=
  mkState
    {[ "x-1.0.tgz" :=
         mkArtifact (Tarball x_url "sha1" x_chksum) (Some {[ "node_modules/a" ]}) ]} [].

(** The artifact has the descriptor of a visit of the list with that file
    name, and each of its paths is the path of such a visit. *)
Definition from_visits {checks : urllib.HostChecks}
    (l : list visit_t) (fn : string) (a : artifact) : Prop :=
  (exists v, v ∈ l /\ target v = Some (fn, desc a))
  /\ forall p, p ∈ paths a -> exists v, v ∈ l /\ v.1.2 = p /\ derives fn v.

(** The files [main] is asked to write. *)
Definition requested_outputs (args : args_t) : list string :=
  (option_list (output args) ++ option_list (checksums args)
   ++ option_list (locations args))%list.

(** The record the downloader logs for a file it does not fetch again. *)
Definition skip_record (x : string * artifact) : log_record :=
  mkLog INFO "skipping download of existing %s" [x.1].

(** The line of the location writer for one item of [sorted(MODULE_MAP)]
    and the paths it lists. *)
Definition sorted_paths (a : artifact) : list string :=
  merge_sort String.le (elements (paths a)).

Definition location_line (x : string * artifact) : string :=
  x.1 +:+ " " +:+ Str.join " " (sorted_paths x.2) +:+ nl.

(** ** Git references given as plain URLs

    A host and a path without the characters [urlsplit] gives a meaning
    to, and a text without the bytes [urlsplit] removes (tab, carriage
    return, line feed). *)
Definition plain_host (h : string) : bool :=
  negb (String.eqb h "")
  && negb (Str.contains "/" h) && negb (Str.contains "?" h) && negb (Str.contains "#" h)
  && negb (Str.contains "[" h) && negb (Str.contains "]" h)
  && Str.forallb (fun c => (N_of_ascii c <? 128)%N) h.

Definition plain_path (p : string) : bool :=
  (String.eqb p "" || String.eqb (Str.slice_to 1 p) "/")
  && negb (Str.contains "?" p) && negb (Str.contains "#" p).

Definition no_unsafe_byte (s : string) : bool :=
  Str.forallb (fun c => negb (urllib.unsafe_url_byte c)) s.

(** Writing the given files one after the other, each without a line. *)
Fixpoint write_empty {platform : Platform} (names : list string) (w : world)
  : outcome world :=
  match names with
  | [] => Ok w
  | n :: names' => w ← write_lines n (Ok []) w; write_empty names' w
  end.

(** ** The entries of a manifest the walk reaches

    An entry of a dict the walk is called with is reached when it is not
    bundled; so are, with its path as parent, the reached entries of its
    ["dependencies"].  Nothing under a bundled entry is reached. *)
Inductive reached : string -> deps_t -> visit_t -> Prop :=
| reached_here d deps m e :
    (m, e) ∈ deps -> is_bundled e = false ->
    reached d deps (m, path_of d m, e)
| reached_below d deps m e deps' v :
    (m, e) ∈ deps -> is_bundled e = false ->
    dependencies e = Some deps' ->
    reached (path_of d m) deps' v ->
    reached d deps v.

(** The module names from a dict of the manifest down to one of its
    entries. *)
Inductive descends : deps_t -> list string -> entry -> Prop :=
| descends_here deps m e :
    (m, e) ∈ deps -> descends deps [m] e
| descends_below deps m e deps' ms e' :
    (m, e) ∈ deps -> dependencies e = Some deps' ->
    descends deps' ms e' ->
    descends deps (m :: ms) e'.

(** The path of a module under a parent, written out, and the path of a
    chain of modules under the directory the walk starts with. *)
Definition under (parent module : string) : string :=
  (if String.eqb parent "" then "" else parent +:+ "/") +:+ "node_modules/" +:+ module.

Definition nested (d : string) (ms : list string) : string := foldl under d ms.

(** A platform whose downloads arrive with the right digest and are
    written. *)
Definition platform_serving : Platform :=
  {| run := fun _ _ w => Ok (0, w);
     Request := fun _ => Ok tt;
     urlopen := fun _ _ _ => Ok (Ok [1; 2; 3; 4]%N);
     hashlib_new := fun _ => Ok (fun _ => x_chksum);
     stamp_of := fun _ _ => EmptyString;
     write_attempt := fun _ _ _ => Written |}.

(** A bundled entry with a tarball of its own and a nested dependency, an
    entry without source that has the dependency [c], and a registry
    tarball that has the same tarball as dependency [b]. *)
Definition bundled_y : entry :=
  mkEntry (Some true) (Some "https://r.example/y/-/y-2.0.tgz") (Some x_integrity) None
    (Some [("d", x_tarball)]).
Definition no_source_c : entry :=
  mkEntry None None None None (Some [("c", x_tarball)]).
Definition x_tarball_b : entry :=
  mkEntry None (Some x_url) (Some x_integrity) None (Some [("b", x_tarball)]).

(** * Properties *)

(** ** Induction over a manifest entry and its nested dicts *)

Lemma entry_deps_ind (P : entry -> Prop) :
  (forall b r i f, P (mkEntry b r i f None)) ->
  (forall b r i f deps, Forall (fun x => P x.2) deps -> P (mkEntry b r i f (Some deps))) ->
  forall e, P e.
Proof.
  intros Hleaf Hnode. fix IH 1. intros [b r i f [deps|]]; [|apply Hleaf].
  apply Hnode. induction deps as [|[m c] l IHl]; constructor.
  - apply IH.
  - apply IHl.
Qed.

(** ** [sorted] *)

Section SortedFacts.
Context {V W : Type}.
Implicit Types (f : V -> W) (l : list (string * V)).

Lemma insert_item_map f (x : string * V) l :
  insert_item (x.1, f x.2) (map (fun '(m, e) => (m, f e)) l)
  = map (fun '(m, e) => (m, f e)) (insert_item x l).
Proof.
  induction l as [|[k v] l IH]; simpl; [by destruct x|].
  destruct (String.leb x.1 k); simpl; [by destruct x|]. by rewrite IH.
Qed.

Lemma sorted_map f l :
  sorted (map (fun '(m, e) => (m, f e)) l) = map (fun '(m, e) => (m, f e)) (sorted l).
Proof.
  induction l as [|[k v] l IH]; simpl; [done|].
  rewrite IH. apply (insert_item_map f (k, v)).
Qed.

Lemma insert_item_perm (x : string * V) l : insert_item x l ≡ₚ x :: l.
Proof.
  induction l as [|y l IH]; simpl; [done|].
  destruct (String.leb x.1 y.1); [done|]. rewrite IH. apply Permutation_swap.
Qed.

Lemma sorted_perm l : sorted l ≡ₚ l.
Proof.
  induction l as [|x l IH]; simpl; [done|]. by rewrite insert_item_perm, IH.
Qed.

Lemma Forall_sorted (P : string * V -> Prop) l : Forall P l -> Forall P (sorted l).
Proof. intros H. by rewrite sorted_perm. Qed.

Lemma elem_of_sorted (x : string * V) l : x ∈ sorted l <-> x ∈ l.
Proof. by rewrite sorted_perm. Qed.
End SortedFacts.

(** ** The walk is the classification of its visits, one after the other *)

Section WalkFacts.
Context {checks : urllib.HostChecks}.

Lemma classify_all_app (l1 l2 : list visit_t) st :
  classify_all (l1 ++ l2) st = classify_all l1 st ≫= classify_all l2.
Proof.
  revert st. induction l1 as [|[[m p] e] l1 IH]; intros st; simpl; [done|].
  destruct (classify m p e st) as [st'|err]; simpl; [apply IH | done].
Qed.

Lemma for_each_visits d (l : deps_t) st :
  Forall (fun x => forall m p st,
            visit x.2 m p st = classify_all (visits_entry x.2 m p) st) l ->
  for_each d (map (fun '(m, e) => (m, visit e)) l) st
  = classify_all (flat d (map (fun '(m, e) => (m, visits_entry e)) l)) st.
Proof.
  intros H. revert st. induction H as [|[m e] l Hx _ IH]; intros st; simpl; [done|].
  rewrite classify_all_app, Hx.
  destruct (classify_all _ st) as [st'|err]; simpl; [apply IH | done].
Qed.

Lemma visit_visits e : forall m p st,
  visit e m p st = classify_all (visits_entry e m p) st.
Proof.
  induction e as [b r i f|b r i f deps IH] using entry_deps_ind; intros m p st.
  - simpl. destruct (is_bundled _); simpl; [done|].
    by destruct (classify _ _ _ _).
  - simpl. destruct (is_bundled _); simpl; [done|].
    destruct (classify _ _ _ _) as [st'|err]; simpl; [|done].
    rewrite !sorted_map. apply for_each_visits.
    apply Forall_sorted, IH.
Qed.

Lemma collect_visits d deps st :
  collect_deps_recursive d deps st = classify_all (visits d deps) st.
Proof.
  unfold collect_deps_recursive, visits. rewrite !sorted_map.
  apply for_each_visits, Forall_forall. intros x _. apply visit_visits.
Qed.

End WalkFacts.

(** ** Base64 and hexadecimal digests *)

Section Digest.
Local Open Scope N_scope.
Import binascii.

Lemma list_ind3 {A : Type} (P : list A -> Prop) :
  P [] -> (forall a, P [a]) -> (forall a b, P [a; b]) ->
  (forall a b c l, P l -> P (a :: b :: c :: l)) ->
  forall l, P l.
Proof.
  intros H0 H1 H2 H3. fix IH 1. intros [|a [|b [|c l]]].
  - exact H0.
  - apply H1.
  - apply H2.
  - apply H3, IH.
Qed.

Lemma elem_of_below n x : x < N.of_nat n -> x ∈ below n.
Proof.
  intros H. unfold below. apply list_elem_of_fmap. exists (N.to_nat x).
  split; [lia|]. apply elem_of_seq. lia.
Qed.

Lemma forallb_below (f : N -> bool) n :
  forallb f (below n) = true -> forall x, x < N.of_nat n -> f x = true.
Proof.
  intros H x Hx. rewrite forallb_forall in H. apply H.
  apply list_elem_of_In, elem_of_below, Hx.
Qed.

Lemma forallb_below2 (f : N -> N -> bool) n :
  forallb (fun a => forallb (f a) (below n)) (below n) = true ->
  forall a b, a < N.of_nat n -> b < N.of_nat n -> f a b = true.
Proof.
  intros H a b Ha Hb.
  apply (forallb_below (f a) n); [|done].
  by apply (forallb_below (fun a => forallb (f a) (below n)) n).
Qed.

Lemma sextet_ok_all v : v < 64 -> sextet_ok v = true.
Proof. apply (forallb_below sextet_ok 64). by vm_compute. Qed.

Lemma group_ok_all a b : a < 256 -> b < 256 -> group_ok a b = true.
Proof. apply (forallb_below2 group_ok 256). by vm_compute. Qed.

End Digest.

Section Decoding.
Local Open Scope N_scope.
Import binascii.

Lemma sextet_facts v :
  v < 64 ->
  let c := N_of_ascii (rfc4648.alphabet v) in
  table_a2b_base64 c = v /\ (c =? BASE64_PAD) = false /\ (c =? 45) = false /\ c < 128.
Proof.
  intros Hv c. pose proof (sextet_ok_all v Hv) as H. unfold sextet_ok in H. fold c in H.
  repeat (apply andb_prop in H as [H ?]).
  repeat split.
  - by apply N.eqb_eq.
  - by apply negb_true_iff.
  - by apply negb_true_iff.
  - by apply N.ltb_lt.
Qed.

(** One step of the loop on the character of a sextet. *)
Lemma a2b_loop_sextet v rest q lc pads :
  v < 64 ->
  a2b_loop (N_of_ascii (rfc4648.alphabet v) :: rest) q lc pads =
    if q =? 0 then a2b_loop rest 1 v 0
    else if q =? 1 then
      cons (u8 (N.lor (N.shiftl lc 2) (N.shiftr v 4))) <$> a2b_loop rest 2 (N.land v 15) 0
    else if q =? 2 then
      cons (u8 (N.lor (N.shiftl lc 4) (N.shiftr v 2))) <$> a2b_loop rest 3 (N.land v 3) 0
    else cons (u8 (N.lor (N.shiftl lc 6) v)) <$> a2b_loop rest 0 0 0.
Proof.
  intros Hv. destruct (sextet_facts v Hv) as (Ht & Hp & _ & _).
  cbn [a2b_loop]. rewrite Hp, Ht.
  by replace (64 <=? v) with false by (symmetry; apply N.leb_gt; lia).
Qed.

Lemma group_facts a b :
  a < 256 -> b < 256 ->
  let s2 := (a mod 4) * 16 + b / 16 in
  let s3 := (a mod 16) * 4 + b / 64 in
  (a / 4 < 64 /\ s2 < 64 /\ s3 < 64 /\ a mod 64 < 64)
  /\ u8 (N.lor (N.shiftl (a / 4) 2) (N.shiftr s2 4)) = a
  /\ N.land s2 15 = b / 16
  /\ u8 (N.lor (N.shiftl (a / 16) 4) (N.shiftr s3 2)) = a
  /\ N.land s3 3 = b / 64
  /\ u8 (N.lor (N.shiftl (a / 64) 6) (a mod 64)) = a.
Proof.
  intros Ha Hb s2 s3. pose proof (group_ok_all a b Ha Hb) as H.
  unfold group_ok in H. fold s2 s3 in H.
  repeat (apply andb_prop in H as [H ?]).
  repeat match goal with
         | H : (_ <? _) = true |- _ => apply N.ltb_lt in H
         | H : (_ =? _) = true |- _ => apply N.eqb_eq in H
         end.
  by repeat split.
Qed.

Lemma a2b_encode (data : list N) :
  Forall (fun b => b < 256) data ->
  a2b_loop (codes (rfc4648.encode data)) 0 0 0 = Ok data.
Proof.
  induction data as [|a|a b|a b c l IH] using list_ind3; intros Hall.
  - reflexivity.
  - apply Forall_cons in Hall as [Ha _].
    destruct (group_facts a 0 Ha) as ((H1 & H2 & _ & _) & E1 & E2 & _); [lia|].
    cbn [rfc4648.encode codes].
    replace (a mod 4 * 16) with (a mod 4 * 16 + 0 / 16) by (by rewrite N.add_0_r).
    rewrite a2b_loop_sextet by done. cbn [N.eqb].
    rewrite a2b_loop_sextet by done. cbn [N.eqb Pos.eqb].
    rewrite E1, E2. reflexivity.
  - apply Forall_cons in Hall as [Ha Hall]. apply Forall_cons in Hall as [Hb _].
    destruct (group_facts a b Ha Hb) as ((H1 & H2 & _ & _) & E1 & E2 & _).
    destruct (group_facts b 0 Hb) as ((_ & _ & H3 & _) & _ & _ & E3 & E4 & _); [lia|].
    cbn [rfc4648.encode codes].
    replace (b mod 16 * 4) with (b mod 16 * 4 + 0 / 64) by (by rewrite N.add_0_r).
    rewrite a2b_loop_sextet by done. cbn [N.eqb].
    rewrite a2b_loop_sextet by done. cbn [N.eqb Pos.eqb].
    rewrite E1, E2.
    rewrite a2b_loop_sextet by done. cbn [N.eqb Pos.eqb].
    rewrite E3, E4. reflexivity.
  - apply Forall_cons in Hall as [Ha Hall]. apply Forall_cons in Hall as [Hb Hall].
    apply Forall_cons in Hall as [Hc Hall].
    destruct (group_facts a b Ha Hb) as ((H1 & H2 & _ & _) & E1 & E2 & _).
    destruct (group_facts b c Hb Hc) as ((_ & _ & H3 & _) & _ & _ & E3 & E4 & _).
    destruct (group_facts c 0 Hc) as ((_ & _ & _ & H4) & _ & _ & _ & _ & E5); [lia|].
    cbn [rfc4648.encode codes].
    rewrite a2b_loop_sextet by done. cbn [N.eqb].
    rewrite a2b_loop_sextet by done. cbn [N.eqb Pos.eqb].
    rewrite E1, E2.
    rewrite a2b_loop_sextet by done. cbn [N.eqb Pos.eqb].
    rewrite E3, E4.
    rewrite a2b_loop_sextet by done. cbn [N.eqb Pos.eqb].
    rewrite E5, (IH Hall). reflexivity.
Qed.

End Decoding.

Section Integrity.
Import binascii.

Lemma ascii_eqb_code (a b : ascii) : Ascii.eqb a b = (N_of_ascii a =? N_of_ascii b)%N.
Proof.
  destruct (Ascii.eqb_spec a b) as [->|Hne].
  - by rewrite N.eqb_refl.
  - symmetry. apply N.eqb_neq. intros E. apply Hne.
    by rewrite <- (ascii_N_embedding a), <- (ascii_N_embedding b), E.
Qed.

Lemma plain_alphabet v : (v < 64)%N -> plain_char (rfc4648.alphabet v) = true.
Proof.
  intros Hv. destruct (sextet_facts v Hv) as (_ & _ & H45 & Hlt).
  unfold plain_char. rewrite ascii_eqb_code.
  apply andb_true_intro. split; [by apply N.ltb_lt|].
  apply negb_true_iff, H45.
Qed.

Lemma plain_encode (data : list N) :
  Forall (fun b => (b < 256)%N) data ->
  Str.forallb plain_char (rfc4648.encode data) = true.
Proof.
  induction data as [|a|a b|a b c l IH] using list_ind3; intros Hall.
  - reflexivity.
  - apply Forall_cons in Hall as [Ha _].
    destruct (group_facts a 0 Ha) as ((H1 & H2 & _ & _) & _); [lia|].
    rewrite N.add_0_r in H2.
    cbn [rfc4648.encode Str.forallb]. by rewrite !plain_alphabet.
  - apply Forall_cons in Hall as [Ha Hall]. apply Forall_cons in Hall as [Hb _].
    destruct (group_facts a b Ha Hb) as ((H1 & H2 & _ & _) & _).
    destruct (group_facts b 0 Hb) as ((_ & _ & H3 & _) & _); [lia|].
    rewrite N.add_0_r in H3.
    cbn [rfc4648.encode Str.forallb]. by rewrite !plain_alphabet.
  - apply Forall_cons in Hall as [Ha Hall]. apply Forall_cons in Hall as [Hb Hall].
    apply Forall_cons in Hall as [Hc Hall].
    destruct (group_facts a b Ha Hb) as ((H1 & H2 & _ & _) & _).
    destruct (group_facts b c Hb Hc) as ((_ & _ & H3 & _) & _).
    destruct (group_facts c 0 Hc) as ((_ & _ & _ & H4) & _); [lia|].
    cbn [rfc4648.encode Str.forallb]. rewrite !plain_alphabet by done.
    by rewrite (IH Hall).
Qed.

Lemma plain_no_hyphen s : Str.forallb plain_char s = true -> Str.contains "-" s = false.
Proof.
  induction s as [|a s IH]; simpl; [done|]. intros H.
  apply andb_prop in H as [Ha Hs]. unfold plain_char in Ha.
  apply andb_prop in Ha as [_ Ha]. apply negb_true_iff in Ha. rewrite Ha. auto.
Qed.

Lemma plain_ascii s :
  Str.forallb plain_char s = true ->
  Str.forallb (fun a => (N_of_ascii a <? 128)%N) s = true.
Proof.
  induction s as [|a s IH]; simpl; [done|]. intros H.
  apply andb_prop in H as [Ha Hs]. unfold plain_char in Ha.
  apply andb_prop in Ha as [Ha _]. rewrite Ha. auto.
Qed.

Lemma split_max_absent sep k s :
  Str.contains sep s = false -> Str.split_max sep (S k) s = [s].
Proof.
  induction s as [|a s IH]; simpl; [done|].
  destruct (Ascii.eqb a sep); [done|]. intros H. by rewrite (IH H).
Qed.

Lemma split_max_first sep k s rest :
  Str.contains sep s = false ->
  Str.split_max sep (S k) (s +:+ String sep rest) = s :: Str.split_max sep k rest.
Proof.
  induction s as [|a s IH]; simpl.
  - intros _. by rewrite Ascii.eqb_refl.
  - destruct (Ascii.eqb a sep); [done|]. intros H. by rewrite (IH H).
Qed.

Lemma hex_byte_ok_all b : (b < 256)%N -> hex_byte_ok b = true.
Proof. apply (forallb_below hex_byte_ok 256). by vm_compute. Qed.

Lemma hexlify_length data : String.length (hexlify data) = (2 * length data)%nat.
Proof. induction data as [|b l IH]; simpl; [done|]. rewrite IH. lia. Qed.

Lemma hexlify_lower data :
  Forall (fun b => (b < 256)%N) data -> Str.forallb lower_hex (hexlify data) = true.
Proof.
  induction 1 as [|b l Hb _ IH]; [done|].
  pose proof (hex_byte_ok_all b Hb) as H. unfold hex_byte_ok in H.
  apply andb_prop in H as [H1 H2].
  cbn [hexlify Str.forallb]. by rewrite H1, H2, IH.
Qed.

(** C5. An integrity string made of an algorithm name without hyphen, a
    hyphen and the base64 encoding of a digest is split at that hyphen
    into the algorithm name and the encoded digest, and the digest comes
    back as its bytes written in lowercase hexadecimal, two digits for
    each byte; the conversion does not raise. *)
Theorem parse_integrity_base64 (algo : string) (digest : list N) :
  Str.contains "-" algo = false ->
  Forall (fun b => (b < 256)%N) digest ->
  Str.split_max "-" 2 (algo +:+ "-" +:+ rfc4648.encode digest)
    = [algo; rfc4648.encode digest]
  /\ b64decode (rfc4648.encode digest) = Ok digest
  /\ parse_integrity (algo +:+ "-" +:+ rfc4648.encode digest)
     = Ok (algo, hexlify digest)
  /\ String.length (hexlify digest) = (2 * length digest)%nat
  /\ Str.forallb lower_hex (hexlify digest) = true.
Proof.
  intros Halgo Hbytes.
  pose proof (plain_encode digest Hbytes) as Hplain.
  assert (Hsplit : Str.split_max "-" 2 (algo +:+ "-" +:+ rfc4648.encode digest)
                   = [algo; rfc4648.encode digest]).
  { change ("-" +:+ rfc4648.encode digest) with (String "-" (rfc4648.encode digest)).
    rewrite split_max_first by done.
    by rewrite split_max_absent by (by apply plain_no_hyphen). }
  assert (Hdec : b64decode (rfc4648.encode digest) = Ok digest).
  { unfold b64decode. rewrite (plain_ascii _ Hplain). by apply a2b_encode. }
  repeat split; try done.
  - unfold parse_integrity. rewrite Hsplit. cbn [unpack2 mbind outcome_bind].
    by rewrite Hdec.
  - apply hexlify_length.
  - by apply hexlify_lower.
Qed.

Lemma parse_integrity_base64_witness :
  parse_integrity ("sha1-" +:+ rfc4648.encode [218; 57; 163; 238; 94; 107; 75; 13]%N)
  = Ok ("sha1", "da39a3ee5e6b4b0d").
Proof.
  apply (parse_integrity_base64 "sha1" [218; 57; 163; 238; 94; 107; 75; 13]%N).
  - reflexivity.
  - repeat constructor.
Defined.

End Integrity.

(** ** Git references *)

Section GitReference.
Context {checks : urllib.HostChecks}.

Lemma contains_drop c n s : Str.contains c s = false -> Str.contains c (Str.drop n s) = false.
Proof.
  revert s. induction n as [|n IH]; intros [|a s]; simpl; try done.
  destruct (Ascii.eqb a c); [done|]. apply IH.
Qed.

Lemma contains_lstrip c f s :
  Str.contains c s = false -> Str.contains c (Str.lstrip f s) = false.
Proof.
  induction s as [|a s IH]; simpl; [done|].
  destruct (f a); simpl; by destruct (Ascii.eqb a c).
Qed.

Lemma contains_remove c f s :
  Str.contains c s = false -> Str.contains c (Str.remove f s) = false.
Proof.
  induction s as [|a s IH]; simpl; [done|].
  destruct (Ascii.eqb a c) eqn:E; [done|]. intros H.
  destruct (f a); simpl; rewrite ?E; by apply IH.
Qed.

Lemma cut_absent c s : Str.contains c s = false -> urllib.cut c s = (s, EmptyString).
Proof. intros H. unfold urllib.cut. by rewrite H. Qed.

(** A URL without "#" has an empty fragment. *)
Lemma urlsplit_no_fragment url scheme netloc path query fragment :
  Str.contains "#" url = false ->
  urllib.urlsplit url = Ok (scheme, netloc, path, query, fragment) ->
  fragment = EmptyString.
Proof.
  intros Hno. unfold urllib.urlsplit.
  set (u1 := Str.remove _ (Str.lstrip _ url)).
  assert (H1 : Str.contains "#" u1 = false) by by apply contains_remove, contains_lstrip.
  destruct (_ && _ && _).
  - set (u2 := Str.slice_from _ u1).
    assert (H2 : Str.contains "#" u2 = false) by by apply contains_drop.
    clearbody u2. destruct (String.eqb (Str.slice_to 2 u2) "//").
    + unfold urllib.splitnetloc.
      set (u3 := Str.drop (urllib.host_end _) _).
      assert (H3 : Str.contains "#" u3 = false) by by do 2 apply contains_drop.
      clearbody u3.
      destruct (_ || _); [done|]. destruct (_ && _).
      * destruct (urllib.check_bracketed_host _); [|done].
        cbn [mbind outcome_bind]. rewrite (cut_absent "#" u3 H3).
        destruct (urllib.cut "?" u3). destruct (_ || _ || _); congruence.
      * cbn [mbind outcome_bind]. rewrite (cut_absent "#" u3 H3).
        destruct (urllib.cut "?" u3). destruct (_ || _ || _); congruence.
    + cbn [mbind outcome_bind]. rewrite (cut_absent "#" u2 H2).
      destruct (urllib.cut "?" u2). destruct (_ || _ || _); congruence.
  - clearbody u1. destruct (String.eqb (Str.slice_to 2 u1) "//").
    + unfold urllib.splitnetloc.
      set (u3 := Str.drop (urllib.host_end _) _).
      assert (H3 : Str.contains "#" u3 = false) by by do 2 apply contains_drop.
      clearbody u3.
      destruct (_ || _); [done|]. destruct (_ && _).
      * destruct (urllib.check_bracketed_host _); [|done].
        cbn [mbind outcome_bind]. rewrite (cut_absent "#" u3 H3).
        destruct (urllib.cut "?" u3). destruct (_ || _ || _); congruence.
      * cbn [mbind outcome_bind]. rewrite (cut_absent "#" u3 H3).
        destruct (urllib.cut "?" u3). destruct (_ || _ || _); congruence.
    + cbn [mbind outcome_bind]. rewrite (cut_absent "#" u1 H1).
      destruct (urllib.cut "?" u1). destruct (_ || _ || _); congruence.
Qed.

Lemma urlparse_no_fragment url o :
  Str.contains "#" url = false -> urllib.urlparse url = Ok o -> urllib.fragment o = EmptyString.
Proof.
  intros Hno. unfold urllib.urlparse.
  destruct (urllib.urlsplit url) as [[[[[s n] p] q] f]|e] eqn:E; [|done].
  cbn [mbind outcome_bind]. apply (urlsplit_no_fragment _ _ _ _ _ _ Hno) in E as ->.
  destruct (_ && _); [destruct (urllib.splitparams p)|]; by intros [= <-].
Qed.

Lemma str_in_2 x a b : str_in x [a; b] = true -> x = a \/ x = b.
Proof.
  unfold str_in. simpl. rewrite orb_false_r. intros H.
  apply orb_prop in H as [H|H]; apply String.eqb_eq in H; auto.
Qed.

End GitReference.

Section GitReferenceClaims.
Context {checks : urllib.HostChecks}.

Lemma add_path_setitem fn d p st :
  add_path fn p (setitem fn d st)
  = Ok (mkState (<[fn := mkArtifact d (Some {[ p ]})]> (MODULE_MAP st)) (log st)).
Proof.
  unfold add_path, setitem, getitem. cbn [MODULE_MAP log].
  rewrite lookup_insert_eq. cbn [mbind outcome_bind].
  unfold setdefault_path_add. cbn [desc path default].
  by rewrite insert_insert_eq, (left_id_L ∅ (∪)).
Qed.

(** A git reference with a supported scheme replaces whatever the
    registry holds under its file name. *)
Lemma unresolved_git module path e f o st :
  from e = Some f ->
  urllib.urlparse f = Ok o ->
  str_in (urllib.scheme o) ["git+http"; "git+https"] = true ->
  unresolved module path e st
  = Ok (mkState
          (<[git_file o := mkArtifact (Git (git_branch o) (git_basename o) (git_url o))
                             (Some {[ path ]})]> (MODULE_MAP st))
          (log st)).
Proof.
  intros Hf Ho Hs. unfold unresolved. rewrite Hf, Ho. cbn [mbind outcome_bind].
  rewrite Hs. unfold git_file, git_url, git_scheme, git_branch, git_basename.
  destruct (str_in_2 _ _ _ Hs) as [E|E]; rewrite E;
    cbn [Str.split String.length Str.split_max Ascii.eqb Bool.eqb unpack2
         mbind outcome_bind String.eqb];
    apply add_path_setitem.
Qed.

Lemma urlparse_example :
  urllib.urlparse "git+https://example.com/org/repo.git#feature"
  = Ok (urllib.mkParseResult "git+https" "example.com" "/org/repo.git" "" "" "feature").
Proof. by vm_compute. Qed.

(** C6. The reference [git+https://example.com/org/repo.git#feature] is
    stored under [repo-feature.tgz] with branch [feature] and the URL
    [https://example.com/org/repo.git]; a reference without "#" is stored
    with branch [master] under the repository name followed by
    [-master.tgz]. *)
Theorem git_reference_filename :
  (forall module,
      collect_deps_recursive ""
        [(module, mkEntry None None None
                    (Some "git+https://example.com/org/repo.git#feature") None)]
        initial
      = Ok (mkState
              {[ "repo-feature.tgz" :=
                   mkArtifact (Git "feature" "repo" "https://example.com/org/repo.git")
                     (Some {[ "node_modules/" +:+ module ]}) ]} []))
  /\ (forall module path e f o st,
         resolved e = None ->
         from e = Some f ->
         Str.contains "#" f = false ->
         urllib.urlparse f = Ok o ->
         str_in (urllib.scheme o) ["git+http"; "git+https"] = true ->
         classify module path e st
         = Ok (mkState
                 (<[git_basename o +:+ "-master.tgz" :=
                      mkArtifact (Git "master" (git_basename o) (git_url o))
                        (Some {[ path ]})]> (MODULE_MAP st))
                 (log st))).
Proof.
  split.
  - intros module. unfold collect_deps_recursive.
    cbn [map sorted insert_item for_each visit is_bundled bundled dependencies classify
         resolved].
    erewrite unresolved_git; [|reflexivity|apply urlparse_example|reflexivity].
    unfold initial. cbn [mbind outcome_bind MODULE_MAP log].
    rewrite insert_empty. reflexivity.
  - intros module path e f o st Hr Hf Hno Ho Hs.
    unfold classify. rewrite Hr, (unresolved_git _ _ _ _ _ _ Hf Ho Hs).
    unfold git_file, git_branch.
    by rewrite (urlparse_no_fragment _ _ Hno Ho).
Qed.

End GitReferenceClaims.

Lemma git_reference_filename_witness :
  @classify accept_hosts "m" "node_modules/m"
    (mkEntry None None None (Some "git+http://h.example/org/tool.git") None) initial
  = Ok (mkState
          {[ "tool-master.tgz" :=
               mkArtifact (Git "master" "tool" "http://h.example/org/tool.git")
                 (Some {[ "node_modules/m" ]}) ]} []).
Proof.
  pose proof (proj2 (@git_reference_filename accept_hosts) "m" "node_modules/m"
    (mkEntry None None None (Some "git+http://h.example/org/tool.git") None)
    "git+http://h.example/org/tool.git"
    (urllib.mkParseResult "git+http" "h.example" "/org/tool.git" "" "" "")
    initial eq_refl eq_refl eq_refl eq_refl eq_refl) as H.
  rewrite H. cbn [MODULE_MAP initial]. rewrite insert_empty. reflexivity.
Defined.

(** ** Registry tarballs *)

Section RegistryTarballs.
Context {checks : urllib.HostChecks}.

(** A tarball under a free file name is inserted with its path. *)
Lemma registry_resolved_new module path url e i algo chksum st :
  integrity e = Some i ->
  parse_integrity i = Ok (algo, chksum) ->
  MODULE_MAP st !! tarball_fn module url = None ->
  registry_resolved module path url e st
  = Ok (mkState
          (<[tarball_fn module url :=
               mkArtifact (Tarball url algo chksum) (Some {[ path ]})]> (MODULE_MAP st))
          (log st)).
Proof.
  intros Hi Hp Hnone. unfold registry_resolved.
  rewrite Hi. cbn [mbind outcome_bind]. rewrite Hp. cbn [mbind outcome_bind].
  rewrite Hnone. cbn [mbind outcome_bind]. apply add_path_setitem.
Qed.

Lemma add_path_present fn p a st :
  MODULE_MAP st !! fn = Some a ->
  add_path fn p st
  = Ok (mkState (<[fn := mkArtifact (desc a) (Some (paths a ∪ {[ p ]}))]> (MODULE_MAP st))
          (log st)).
Proof. intros H. unfold add_path, getitem. by rewrite H. Qed.

Lemma add_path_logging fn p l fmt a st :
  add_path fn p (logging l fmt a st)
  = (fun st' => logging l fmt a st') <$> add_path fn p st.
Proof.
  unfold add_path, logging, getitem. cbn [MODULE_MAP log].
  by destruct (MODULE_MAP st !! fn).
Qed.

(** A tarball under a file name that holds a tarball: the descriptor
    stays, the path is added, and a difference is logged. *)
Lemma registry_resolved_collision module path url e i algo chksum st u0 a0 c0 ps :
  integrity e = Some i ->
  parse_integrity i = Ok (algo, chksum) ->
  MODULE_MAP st !! tarball_fn module url = Some (mkArtifact (Tarball u0 a0 c0) ps) ->
  registry_resolved module path url e st
  = Ok (mkState
          (<[tarball_fn module url :=
               mkArtifact (Tarball u0 a0 c0) (Some (default ∅ ps ∪ {[ path ]}))]>
             (MODULE_MAP st))
          (if String.eqb u0 url && String.eqb a0 algo && String.eqb c0 chksum
           then log st
           else log st ++ [mkLog ERROR "%s: mismatch %s <> %s, %s:%s <> %s:%s"
                             [module; u0; url; a0; c0; algo; chksum]])%list).
Proof.
  intros Hi Hp Hold. unfold registry_resolved.
  rewrite Hi. cbn [mbind outcome_bind]. rewrite Hp. cbn [mbind outcome_bind].
  rewrite Hold. unfold get_url, get_algo, get_chksum. cbn [desc mbind outcome_bind].
  destruct (String.eqb u0 url); cbn [negb andb mbind outcome_bind].
  - destruct (String.eqb a0 algo); cbn [negb andb mbind outcome_bind].
    + destruct (String.eqb c0 chksum); cbn [negb andb mbind outcome_bind].
      * by rewrite (add_path_present _ _ _ _ Hold).
      * by rewrite add_path_logging, (add_path_present _ _ _ _ Hold).
    + by rewrite add_path_logging, (add_path_present _ _ _ _ Hold).
  - by rewrite add_path_logging, (add_path_present _ _ _ _ Hold).
Qed.

(** C3. A registry tarball whose file name already holds a registry
    tarball does not raise: the stored URL, algorithm and checksum stay as
    they are, the current path is added to the stored paths, an error is
    logged exactly when the URL, the algorithm or the checksum differ, and
    the walk goes on into the entry's own dependencies. *)
Theorem registry_collision_keeps_first
    module path e url i algo chksum st u0 a0 c0 ps :
  is_bundled e = false ->
  resolved e = Some url ->
  integrity e = Some i ->
  parse_integrity i = Ok (algo, chksum) ->
  MODULE_MAP st !! tarball_fn module url = Some (mkArtifact (Tarball u0 a0 c0) ps) ->
  let st' :=
    mkState
      (<[tarball_fn module url :=
           mkArtifact (Tarball u0 a0 c0) (Some (default ∅ ps ∪ {[ path ]}))]>
         (MODULE_MAP st))
      (if String.eqb u0 url && String.eqb a0 algo && String.eqb c0 chksum
       then log st
       else log st ++ [mkLog ERROR "%s: mismatch %s <> %s, %s:%s <> %s:%s"
                         [module; u0; url; a0; c0; algo; chksum]])%list in
  classify module path e st = Ok st'
  /\ visit e module path st
     = match dependencies e with
       | Some deps => collect_deps_recursive path deps st'
       | None => Ok st'
       end.
Proof.
  intros Hb Hr Hi Hp Hold st'.
  assert (Hc : classify module path e st = Ok st').
  { unfold classify. rewrite Hr. by apply registry_resolved_collision with (i := i). }
  split; [done|].
  destruct e as [b r ig f ds]. cbn [visit]. cbn [dependencies] in *.
  rewrite Hb, Hc. by destruct ds.
Qed.

End RegistryTarballs.


Lemma registry_collision_keeps_first_witness :
  @classify accept_hosts "b" "node_modules/b" x_tarball st_other_x
  = Ok (mkState
          (<[ tarball_fn "b" x_url :=
                mkArtifact other_x
                  (Some (default ∅ (Some {[ "node_modules/a" ]}) ∪ {[ "node_modules/b" ]})) ]>
             (MODULE_MAP st_other_x))
          (log st_other_x
           ++ [mkLog ERROR "%s: mismatch %s <> %s, %s:%s <> %s:%s"
                 ["b"; "https://other.example/x-1.0.tgz"; x_url; "sha1"; "00"; "sha1";
                  x_chksum]])%list).
Proof.
  refine (proj1 (@registry_collision_keeps_first accept_hosts "b" "node_modules/b"
                   x_tarball x_url x_integrity "sha1" x_chksum st_other_x
                   "https://other.example/x-1.0.tgz" "sha1" "00"
                   (Some {[ "node_modules/a" ]}) _ _ _ _ _)).
  - reflexivity.
  - reflexivity.
  - reflexivity.
  - vm_compute. reflexivity.
  - vm_compute. reflexivity.
Defined.

(** ** The file name of a registry tarball *)

Section TarballName.
Context {checks : urllib.HostChecks}.

Lemma rfind_absent c s : Str.contains c s = false -> Str.rfind c s = -1.
Proof.
  induction s as [|a s IH]; simpl; [done|].
  destruct (Ascii.eqb a c); [done|]. intros H. by rewrite (IH H).
Qed.

Lemma rfind_append c s t :
  Str.contains c t = false ->
  Str.rfind c (s +:+ String c t) = Z.of_nat (String.length s).
Proof.
  intros Ht. induction s as [|a s IH].
  - simpl. rewrite (rfind_absent _ _ Ht). simpl. by rewrite Ascii.eqb_refl.
  - change (String a s +:+ String c t) with (String a (s +:+ String c t)).
    change (Str.rfind c (String a (s +:+ String c t)))
      with (let r := Str.rfind c (s +:+ String c t) in
            if 0 <=? r then r + 1 else if Ascii.eqb a c then 0 else -1).
    rewrite IH. cbv zeta.
    replace (0 <=? Z.of_nat (String.length s)) with true by (symmetry; apply Z.leb_le; lia).
    cbn [String.length]. lia.
Qed.

Lemma drop_append c s t : Str.drop (S (String.length s)) (s +:+ String c t) = t.
Proof. induction s as [|a s IH]; simpl; [by destruct t|done]. Qed.

(** [basename] is the text after the last "/". *)
Lemma basename_last_segment s t :
  Str.contains "/" t = false -> basename (s +:+ "/" +:+ t) = t.
Proof.
  intros Ht. unfold basename.
  change ("/" +:+ t) with (String "/" t). rewrite (rfind_append _ _ _ Ht).
  unfold Str.slice_from, Str.bound.
  replace (Z.of_nat (String.length s) + 1 <? 0) with false by (symmetry; apply Z.ltb_ge; lia).
  replace (Z.to_nat (Z.of_nat (String.length s) + 1)) with (S (String.length s)) by lia.
  apply drop_append.
Qed.

Lemma tarball_fn_scope module url :
  tarball_fn module url
  = match scope module with
    | Some s => s +:+ "-" +:+ basename url
    | None => basename url
    end.
Proof. unfold tarball_fn, scope. by destruct (Str.contains "/" module). Qed.

End TarballName.

(** ** [sorted] gives a sorted list *)

Lemma leb_trans a b c :
  String.leb a b = true -> String.leb b c = true -> String.leb a c = true.
Proof.
  intros H1 H2. apply Is_true_true. apply Is_true_true in H1, H2.
  exact (transitivity (R := String.le) H1 H2).
Qed.

Lemma leb_total a b : String.leb a b = false -> String.leb b a = true.
Proof.
  intros H. apply Is_true_true.
  destruct (total String.le a b) as [Hab|Hba]; [|done].
  apply Is_true_true in Hab. congruence.
Qed.


Section SortedOrder.
Context {V : Type}.
Implicit Types (x y : string * V) (l : list (string * V)).

Lemma insert_item_head x l :
  Forall (key_le x) l -> insert_item x l = x :: l.
Proof.
  destruct 1 as [|y l Hy _]; simpl; [done|]. unfold key_le in Hy. by rewrite Hy.
Qed.

Lemma insert_item_sorted x l :
  StronglySorted key_le l -> StronglySorted key_le (insert_item x l).
Proof.
  induction 1 as [|y l Hl IH Hy]; simpl.
  - repeat constructor.
  - destruct (String.leb x.1 y.1) eqn:E.
    + constructor; [by constructor|]. constructor; [done|].
      eapply Forall_impl; [exact Hy|]. intros z Hz. unfold key_le in *.
      by apply leb_trans with y.1.
    + constructor; [done|].
      rewrite insert_item_perm. constructor; [|done].
      by apply leb_total.
Qed.

Lemma sorted_sorted l : StronglySorted key_le (sorted l).
Proof. induction l as [|x l IH]; simpl; [constructor|by apply insert_item_sorted]. Qed.



(** Dropping items and sorting can be done in either order. *)
Lemma filter_insert_item_keep (P : string * V -> bool) x l :
  StronglySorted key_le l -> P x = true ->
  List.filter P (insert_item x l) = insert_item x (List.filter P l).
Proof.
  intros Hs Hx. induction Hs as [|y l Hl IH Hy]; simpl.
  - by rewrite Hx.
  - destruct (String.leb x.1 y.1) eqn:E; simpl.
    + rewrite Hx. destruct (P y); simpl.
      * by rewrite E.
      * symmetry. apply insert_item_head.
        apply Forall_forall. intros z Hz.
        apply list_elem_of_In, filter_In in Hz as [Hz _].
        apply list_elem_of_In in Hz. rewrite Forall_forall in Hy.
        unfold key_le in *. apply leb_trans with y.1; [done|]. by apply Hy.
    + destruct (P y); simpl; rewrite ?E; by rewrite IH.
Qed.

Lemma filter_insert_item_drop (P : string * V -> bool) x l :
  P x = false -> List.filter P (insert_item x l) = List.filter P l.
Proof.
  intros Hx. induction l as [|y l IH]; simpl; [by rewrite Hx|].
  destruct (String.leb x.1 y.1); simpl; [by rewrite Hx|]. by rewrite IH.
Qed.

Lemma sorted_filter (P : string * V -> bool) l :
  sorted (List.filter P l) = List.filter P (sorted l).
Proof.
  induction l as [|x l IH]; simpl; [done|].
  destruct (P x) eqn:E; simpl.
  - rewrite IH. symmetry. by apply filter_insert_item_keep; [apply sorted_sorted|].
  - rewrite IH. symmetry. by apply filter_insert_item_drop.
Qed.

End SortedOrder.

(** ** Bundled entries *)

Section Bundled.
Context {checks : urllib.HostChecks}.

Lemma prune_entry_deps b r i f deps :
  prune_entry (mkEntry b r i f (Some deps)) = mkEntry b r i f (Some (prune deps)).
Proof.
  reflexivity.
Qed.

Lemma prune_filter_map (l : deps_t) :
  prune l = map (fun '(m, c) => (m, prune_entry c)) (List.filter not_bundled l).
Proof.
  induction l as [|[m c] l IH]; [done|]. cbn [prune List.filter].
  unfold not_bundled at 1. cbn [snd]. destruct (is_bundled c); cbn [negb map]; by rewrite IH.
Qed.

Lemma for_each_prune d (l : deps_t) st :
  Forall (fun x => forall m p st, visit (prune_entry x.2) m p st = visit x.2 m p st) l ->
  for_each d (map (fun '(m, e) => (m, visit e))
                (map (fun '(m, c) => (m, prune_entry c)) (List.filter not_bundled l))) st
  = for_each d (map (fun '(m, e) => (m, visit e)) l) st.
Proof.
  intros H. revert st. induction H as [|[m c] l Hx _ IH]; intros st; [done|].
  cbn [List.filter]. unfold not_bundled at 1. cbn [snd] in *.
  destruct (is_bundled c) eqn:E; cbn [negb map for_each].
  - rewrite IH. destruct c as [b r i f ds]. cbn [visit]. by rewrite E.
  - rewrite Hx. destruct (visit c _ _ _); cbn [mbind outcome_bind]; [apply IH|done].
Qed.

Lemma collect_prune d (l : deps_t) st :
  Forall (fun x => forall m p st, visit (prune_entry x.2) m p st = visit x.2 m p st) l ->
  collect_deps_recursive d (prune l) st = collect_deps_recursive d l st.
Proof.
  intros H. unfold collect_deps_recursive.
  rewrite prune_filter_map, !sorted_map, sorted_filter.
  apply for_each_prune. by apply Forall_sorted.
Qed.

Lemma visit_prune_entry e : forall m p st,
  visit (prune_entry e) m p st = visit e m p st.
Proof.
  induction e as [b r i f|b r i f deps IH] using entry_deps_ind; intros m p st; [done|].
  rewrite prune_entry_deps. cbn [visit dependencies].
  replace (is_bundled (mkEntry b r i f (Some (prune deps))))
    with (is_bundled (mkEntry b r i f (Some deps))) by done.
  destruct (is_bundled _); [done|].
  replace (classify m p (mkEntry b r i f (Some (prune deps))) st)
    with (classify m p (mkEntry b r i f (Some deps)) st) by done.
  destruct (classify _ _ _ _) as [st'|err]; cbn [mbind outcome_bind]; [|done].
  apply (collect_prune p deps st' IH).
Qed.

(** The pruned manifest has no bundled entry left. *)
Lemma has_bundled_prune_entry e :
  is_bundled e = false -> has_bundled_entry (prune_entry e) = false.
Proof.
  induction e as [b r i f|b r i f deps IH] using entry_deps_ind; intros Hb.
  - cbn [prune_entry has_bundled_entry dependencies bundled resolved integrity from].
    replace (is_bundled (mkEntry b r i f None)) with false by done. done.
  - rewrite prune_entry_deps. cbn [has_bundled_entry dependencies].
    replace (is_bundled (mkEntry b r i f (Some (prune deps)))) with false by done.
    cbn [orb]. clear Hb. induction IH as [|[m c] l Hx _ IHl]; [done|].
    cbn [prune]. cbn [snd] in Hx. destruct (is_bundled c) eqn:E; [done|].
    cbn [existsb]. by rewrite (Hx eq_refl), IHl.
Qed.

Lemma has_bundled_prune (l : deps_t) : has_bundled (prune l) = false.
Proof.
  unfold has_bundled. induction l as [|[m c] l IH]; [done|].
  cbn [prune]. destruct (is_bundled c) eqn:E; [done|].
  cbn [existsb]. by rewrite (has_bundled_prune_entry c E), IH.
Qed.

End Bundled.

(** ** Where the script falls short of its description *)

(** C1 fails on the code. A git reference assigns a new dict to its file
    name before it adds its path, so what the name held is lost: after the
    modules [a] and [b] with the same reference the entry lists only the
    path of [b], and a registry tarball stored under the name of a later
    git reference loses its descriptor and its path. *)
Theorem git_reference_overwrites_entry :
  @collect_deps_recursive accept_hosts "" [("a", repo_git)] initial
  = Ok (mkState
          {[ "repo-master.tgz" :=
               mkArtifact (Git "master" "repo" "https://example.com/org/repo.git")
                 (Some {[ "node_modules/a" ]}) ]} [])
  /\ @collect_deps_recursive accept_hosts "" [("a", repo_git); ("b", repo_git)] initial
     = Ok (mkState
             {[ "repo-master.tgz" :=
                  mkArtifact (Git "master" "repo" "https://example.com/org/repo.git")
                    (Some {[ "node_modules/b" ]}) ]} [])
  /\ @collect_deps_recursive accept_hosts ""
       [("a", repo_tarball_v1); ("b", repo_git_v1)] initial
     = Ok (mkState
             {[ "repo-v1.tgz" :=
                  mkArtifact (Git "v1" "repo" "https://example.com/org/repo.git")
                    (Some {[ "node_modules/b" ]}) ]} []).
Proof. repeat split; vm_compute; reflexivity. Qed.

(** The checksum writer reads ["algo"] of every artifact. *)
Lemma checksum_lines_git (l : list (string * artifact)) :
  Exists (fun x => has_scm x.2 = true) l ->
  checksum_lines l = Raise (KeyError "algo").
Proof.
  induction l as [|[fn a] l IH]; intros H; [by apply Exists_nil in H|].
  cbn [checksum_lines]. unfold get_algo, get_chksum.
  destruct (desc a) as [u al c|br bn u] eqn:E; [|done].
  cbn [mbind outcome_bind]. apply Exists_cons in H as [H|H].
  - unfold has_scm in H. cbn [snd] in H. by rewrite E in H.
  - by rewrite (IH H).
Qed.

Lemma checksum_writer_raises (m : gmap string artifact) fn a :
  m !! fn = Some a -> has_scm a = true ->
  checksum_lines (sorted_artifacts m) = Raise (KeyError "algo").
Proof.
  intros Hm Ha. apply checksum_lines_git, Exists_exists. exists (fn, a).
  split; [|done]. unfold sorted_artifacts. apply elem_of_sorted.
  by apply elem_of_map_to_list.
Qed.

(** C2 fails on the code. With a git reference in the Registry the
    checksum writer raises [KeyError] on ["algo"] and [main] ends there. *)
Theorem checksum_writer_git_key_error :
  @main accept_hosts platform_http_error
    (mkArgs None (Some "checksums.txt") None false false)
    (Ok (Some [("a", repo_git); ("x", x_tarball)])) empty_world
  = Raise (KeyError "algo").
Proof. vm_compute. reflexivity. Qed.

(** C9 fails on the code. [urlopen] is called before the [try], so an
    HTTP error of the request leaves the loop and the artifacts after it are
    not fetched; and the [finally] renames the new file into place also when
    writing it failed, over the file that was there. *)
Theorem download_failure_not_contained :
  @download platform_http_error false
    [("x-1.0.tgz", x_artifact); ("y-1.0.tgz", y_artifact)] (empty_world, [])
  = Raise (HTTPError x_url)
  /\ exists logs,
       @download platform_disk_full false [("x-1.0.tgz", x_artifact)] (world_with_x, [])
       = Ok (mkWorld {[ "x-1.0.tgz" := [1; 2]%N ]} ∅, logs).
Proof.
  split; [by vm_compute|].
  eexists. vm_compute. reflexivity.
Qed.

(** ** When the walk completes *)

Section WalkCompletes.
Context {checks : urllib.HostChecks}.

Lemma git_names_within_insert l st fn a :
  git_names_within l st ->
  (has_scm a = true -> exists v, v ∈ l /\ derives_git v = Some fn) ->
  git_names_within l (mkState (<[fn := a]> (MODULE_MAP st)) (log st)).
Proof.
  intros Hinv Ha fn' a' Hl Hs. cbn [MODULE_MAP] in Hl.
  apply lookup_insert_Some in Hl as [[<- <-]|[_ Hl]]; [by apply Ha|].
  by apply (Hinv fn' a').
Qed.

Lemma git_names_within_log l st logs :
  git_names_within l st -> git_names_within l (mkState (MODULE_MAP st) logs).
Proof. intros Hinv fn a Hl Hs. by apply (Hinv fn a). Qed.

(** One classification: it completes and keeps the invariant. *)
Lemma classify_completes l v st :
  v ∈ l -> readable v -> no_clash l -> git_names_within l st ->
  exists st', classify v.1.1 v.1.2 v.2 st = Ok st' /\ git_names_within l st'.
Proof.
  destruct v as [[m p] e]. cbn [fst snd]. intros Hv Hr Hclash Hinv.
  unfold readable in Hr. cbn [snd] in Hr. unfold classify.
  destruct (resolved e) as [url|] eqn:Hres.
  - destruct Hr as (i & Hi & [[algo chksum] Hp]).
    destruct (MODULE_MAP st !! tarball_fn m url) as [[[u0 a0 c0|br bn u] ps]|] eqn:Hl.
    + rewrite (registry_resolved_collision _ _ _ _ _ _ _ _ _ _ _ _ Hi Hp Hl).
      eexists. split; [done|].
      apply (git_names_within_insert l (mkState (MODULE_MAP st) _));
        [by apply git_names_within_log|done].
    + exfalso. destruct (Hinv _ _ Hl eq_refl) as (v1 & Hv1 & Hg).
      apply (Hclash v1 (m, p, e) _ Hv1 Hv Hg).
      unfold derives_tarball. cbn [fst snd]. by rewrite Hres.
    + rewrite (registry_resolved_new _ _ _ _ _ _ _ _ Hi Hp Hl).
      eexists. split; [done|]. by apply git_names_within_insert.
  - unfold unresolved. destruct (from e) as [f|] eqn:Hf.
    + destruct Hr as [o Ho].
      destruct (str_in (urllib.scheme o) ["git+http"; "git+https"]) eqn:Hs.
      * pose proof (unresolved_git m p e f o st Hf Ho Hs) as H.
        unfold unresolved in H. rewrite Hf in H. rewrite H.
        eexists. split; [done|]. apply git_names_within_insert; [done|].
        intros _. exists (m, p, e). split; [done|].
        unfold derives_git, git_fn. cbn [snd]. by rewrite Hres, Hf, Ho, Hs.
      * rewrite Ho. cbn [mbind outcome_bind]. rewrite Hs.
        eexists. split; [done|]. by apply git_names_within_log.
    + eexists. split; [done|]. by apply git_names_within_log.
Qed.

Lemma classify_all_completes l0 l st :
  l ⊆ l0 -> Forall readable l -> no_clash l0 -> git_names_within l0 st ->
  is_Ok (classify_all l st).
Proof.
  intros Hsub Hr Hclash. revert st Hsub.
  induction Hr as [|[[m p] e] l Hv _ IH]; intros st Hsub Hinv; [by eexists|].
  cbn [classify_all].
  destruct (classify_completes l0 (m, p, e) st) as (st' & Hc & Hinv'); try done.
  { apply Hsub. left. }
  cbn [fst snd] in Hc. rewrite Hc. cbn [mbind outcome_bind].
  apply IH; [|done]. intros x Hx. apply Hsub. by right.
Qed.

End WalkCompletes.

(** ** The walk run again *)

Section Canonical.
Context {checks : urllib.HostChecks}.






End Canonical.

Section Rerun.
Context {checks : urllib.HostChecks}.

(** A tarball that meets a git reference under its file name raises. *)
Lemma registry_resolved_git module path url e i algo chksum st br bn u ps :
  integrity e = Some i ->
  parse_integrity i = Ok (algo, chksum) ->
  MODULE_MAP st !! tarball_fn module url = Some (mkArtifact (Git br bn u) ps) ->
  registry_resolved module path url e st = Raise (KeyError "algo").
Proof.
  intros Hi Hp Hold. unfold registry_resolved.
  rewrite Hi. cbn [mbind outcome_bind]. rewrite Hp. cbn [mbind outcome_bind].
  rewrite Hold. unfold get_url, get_algo. cbn [desc mbind outcome_bind].
  by destruct (String.eqb u url).
Qed.

Lemma classify_store m p e st st' :
  classify m p e st = Ok st' ->
  store p (target (m, p, e)) (MODULE_MAP st) = Some (MODULE_MAP st').
Proof.
  unfold classify, target. cbn [fst snd].
  destruct (resolved e) as [url|] eqn:Hres.
  - destruct (integrity e) as [i|] eqn:Hi.
    2:{ unfold registry_resolved. by rewrite Hi. }
    destruct (parse_integrity i) as [[algo chksum]|err] eqn:Hp.
    2:{ unfold registry_resolved. rewrite Hi. cbn [mbind outcome_bind]. by rewrite Hp. }
    unfold store.
    destruct (MODULE_MAP st !! tarball_fn m url) as [[[u0 a0 c0|br bn u] ps]|] eqn:Hl.
    + rewrite (registry_resolved_collision _ _ _ _ _ _ _ _ _ _ _ _ Hi Hp Hl).
      by intros [= <-].
    + by rewrite (registry_resolved_git _ _ _ _ _ _ _ _ _ _ _ _ Hi Hp Hl).
    + rewrite (registry_resolved_new _ _ _ _ _ _ _ _ Hi Hp Hl). by intros [= <-].
  - destruct (from e) as [f|] eqn:Hf.
    + destruct (urllib.urlparse f) as [o|err] eqn:Ho.
      2:{ unfold unresolved. by rewrite Hf, Ho. }
      destruct (str_in (urllib.scheme o) ["git+http"; "git+https"]) eqn:Hs.
      * rewrite (unresolved_git m p e f o st Hf Ho Hs). by intros [= <-].
      * unfold unresolved. rewrite Hf, Ho. cbn [mbind outcome_bind]. rewrite Hs.
        by intros [= <-].
    + unfold unresolved. rewrite Hf. by intros [= <-].
Qed.

Lemma classify_all_store l st st' :
  classify_all l st = Ok st' -> store_all l (MODULE_MAP st) = Some (MODULE_MAP st').
Proof.
  revert st. induction l as [|[[m p] e] l IH]; intros st; cbn [classify_all store_all].
  - by intros [= <-].
  - destruct (classify m p e st) as [st1|err] eqn:Hc; [|done].
    cbn [mbind outcome_bind fst snd]. rewrite (classify_store _ _ _ _ _ Hc). apply IH.
Qed.

(** What a stored entry becomes: a git reference stays one; a tarball that
    is still one at the end has kept its descriptor and its paths. *)
Lemma store_all_grows l : forall m F fn a,
  store_all l m = Some F -> m !! fn = Some a ->
  exists f, F !! fn = Some f
            /\ (has_scm a = true -> has_scm f = true)
            /\ (has_scm f = false ->
                desc f = desc a
                /\ forall sa, path a = Some sa -> exists sf, path f = Some sf /\ sa ⊆ sf).
Proof.
  induction l as [|[[mo p] e] l IH]; intros m F fn a; cbn [store_all].
  - intros [= <-] Ha. exists a. repeat split; eauto.
  - cbn [fst snd]. destruct (store p (target (mo, p, e)) m) as [m1|] eqn:Hst; [|done].
    intros HF Ha. unfold store in Hst.
    destruct (target (mo, p, e)) as [[k d]|]; [|simplify_eq; by eapply IH].
    destruct (decide (k = fn)) as [->|Hne].
    + destruct d as [u al c|b n u].
      * rewrite Ha in Hst. destruct (has_scm a) eqn:Hsa; [done|]. simplify_eq.
        destruct (IH _ _ fn _ HF (lookup_insert_eq _ _ _)) as (f & Hf & _ & Hd).
        exists f. split; [done|]. split; [done|]. intros Hsf.
        destruct (Hd Hsf) as [Hdesc Hp]. cbn [desc path] in *. split; [done|].
        intros sa Hsa'. rewrite Hsa' in Hp. cbn [default] in Hp.
        destruct (Hp _ eq_refl) as (sf & Hsf' & Hsub). exists sf. split; [done|].
        unfold id in Hsub. etrans; [|exact Hsub]. apply union_subseteq_l.
      * simplify_eq.
        destruct (IH _ _ fn _ HF (lookup_insert_eq _ _ _)) as (f & Hf & Hs & _).
        exists f. split; [done|]. specialize (Hs eq_refl). split; [done|].
        intros Hsf. congruence.
    + assert (Hm1 : m1 !! fn = Some a).
      { destruct d as [u al c|b n u].
        - destruct (m !! k) as [old|]; [destruct (has_scm old); [done|]|];
            simplify_eq; by rewrite lookup_insert_ne.
        - simplify_eq. by rewrite lookup_insert_ne. }
      by eapply IH.
Qed.


End Rerun.

Section Listing.
Context {checks : urllib.HostChecks}.




End Listing.

(** ** What the steps of a walk store *)

Section StoreFacts.
Context {checks : urllib.HostChecks}.

Lemma store_all_app (l1 l2 : list visit_t) m :
  store_all (l1 ++ l2)%list m = store_all l1 m ≫= store_all l2.
Proof.
  revert m. induction l1 as [|v l1 IH]; intros m; cbn [store_all app]; [done|].
  destruct (store _ _ m) as [m1|]; [apply IH|done].
Qed.

(** A step changes the Registry only under the file name of its visit. *)
Lemma store_other p t m m' fn :
  store p t m = Some m' ->
  (forall dsc, t <> Some (fn, dsc)) ->
  m' !! fn = m !! fn.
Proof.
  intros Hst Hne. unfold store in Hst. destruct t as [[k d]|]; [|by simplify_eq].
  assert (k <> fn) by (intros ->; by apply (Hne d)).
  destruct d as [u al c|b n u].
  - destruct (m !! k) as [old|]; [destruct (has_scm old); [done|]|];
      simplify_eq; by rewrite lookup_insert_ne.
  - simplify_eq. by rewrite lookup_insert_ne.
Qed.

Lemma store_all_other l : forall m m' fn,
  store_all l m = Some m' ->
  (forall v, v ∈ l -> ~ derives fn v) ->
  m' !! fn = m !! fn.
Proof.
  induction l as [|v l IH]; intros m m' fn; cbn [store_all].
  - by intros [= <-].
  - destruct (store _ _ m) as [m1|] eqn:Hst; [|done]. intros Hl Hno.
    rewrite (IH _ _ _ Hl) by (intros v' Hv'; apply Hno; by right).
    apply (store_other _ _ _ _ _ Hst). intros dsc E.
    apply (Hno v); [by left|]. by exists dsc.
Qed.

(** After the step of a visit its file name holds an artifact with the
    path of the visit; the artifact is new when the name was free. *)
Lemma store_derived p fn dsc m m' :
  store p (Some (fn, dsc)) m = Some m' ->
  exists a s, m' !! fn = Some a /\ path a = Some s /\ p ∈ s
              /\ (m !! fn = None -> desc a = dsc).
Proof.
  unfold store. destruct dsc as [u al c|b n u].
  - destruct (m !! fn) as [old|] eqn:Hk.
    + destruct (has_scm old); [done|]. intros [= <-].
      eexists _, _. split; [apply lookup_insert_eq|]. split; [reflexivity|].
      split; [|done]. apply elem_of_union_r, elem_of_singleton. done.
    + intros [= <-]. eexists _, _. split; [apply lookup_insert_eq|].
      split; [reflexivity|]. split; [|done]. by apply elem_of_singleton.
  - intros [= <-]. eexists _, _. split; [apply lookup_insert_eq|].
    split; [reflexivity|]. split; [|done]. by apply elem_of_singleton.
Qed.

Lemma store_from_visits l0 v m m' :
  v ∈ l0 ->
  store v.1.2 (target v) m = Some m' ->
  (forall fn a, m !! fn = Some a -> from_visits l0 fn a) ->
  forall fn a, m' !! fn = Some a -> from_visits l0 fn a.
Proof.
  intros Hv Hst Hinv fn a Hl. unfold store in Hst.
  destruct (target v) as [[k d]|] eqn:Ht; [|simplify_eq; by apply Hinv].
  assert (Hd : derives k v) by by exists d.
  assert (Hnew : from_visits l0 k (mkArtifact d (Some {[ v.1.2 ]}))).
  { split; [by exists v|]. intros p Hp. unfold paths in Hp. cbn [path default] in Hp.
    unfold id in Hp. apply elem_of_singleton in Hp as ->. by exists v. }
  destruct d as [u al c|b n u].
  - destruct (m !! k) as [old|] eqn:Hk.
    + destruct (has_scm old); [done|]. simplify_eq.
      apply lookup_insert_Some in Hl as [[<- <-]|[_ Hl]]; [|by apply Hinv].
      destruct (Hinv _ _ Hk) as [Hdesc Hpaths]. split; [done|].
      intros p Hp. unfold paths in Hp. cbn [path default] in Hp. unfold id in Hp.
      apply elem_of_union in Hp as [Hp|Hp]; [by apply Hpaths|].
      apply elem_of_singleton in Hp as ->. by exists v.
    + simplify_eq. apply lookup_insert_Some in Hl as [[<- <-]|[_ Hl]]; [done|by apply Hinv].
  - simplify_eq. apply lookup_insert_Some in Hl as [[<- <-]|[_ Hl]]; [done|by apply Hinv].
Qed.

Lemma store_all_from_visits l0 l : forall m m',
  l ⊆ l0 ->
  store_all l m = Some m' ->
  (forall fn a, m !! fn = Some a -> from_visits l0 fn a) ->
  forall fn a, m' !! fn = Some a -> from_visits l0 fn a.
Proof.
  induction l as [|v l IH]; intros m m' Hsub; cbn [store_all].
  - by intros [= <-].
  - destruct (store _ _ m) as [m1|] eqn:Hst; [|done]. intros Hl Hinv.
    apply (IH m1 m'); [|done|].
    + intros x Hx. apply Hsub. by right.
    + apply (store_from_visits l0 v m m1); [|done|done]. apply Hsub. by left.
Qed.

(** A git reference is stored only by an entry that derives its name. *)
Lemma target_git v fn b n u :
  target v = Some (fn, Git b n u) -> derives_git v = Some fn.
Proof.
  unfold target, derives_git, git_fn. destruct (resolved v.2) as [url|].
  - destruct (integrity v.2) as [i|]; [|done].
    by destruct (parse_integrity i) as [[algo chksum]|].
  - destruct (from v.2) as [f|]; [|done].
    destruct (urllib.urlparse f) as [o|]; [|done].
    destruct (str_in (urllib.scheme o) _); [|done]. by intros [= <- _ _ _].
Qed.

Lemma store_not_git p t m m' fn :
  store p t m = Some m' ->
  (forall a, m !! fn = Some a -> has_scm a = false) ->
  (forall b n u, t <> Some (fn, Git b n u)) ->
  forall f, m' !! fn = Some f -> has_scm f = false.
Proof.
  intros Hst Hm Ht f Hf. unfold store in Hst.
  destruct t as [[k d]|]; [|simplify_eq; by apply Hm].
  destruct d as [u al c|b n u].
  - destruct (m !! k) as [old|] eqn:Hk.
    + destruct (has_scm old) eqn:Hs; [done|]. simplify_eq.
      apply lookup_insert_Some in Hf as [[_ <-]|[_ Hf]]; [|by apply Hm]. exact Hs.
    + simplify_eq. apply lookup_insert_Some in Hf as [[_ <-]|[_ Hf]]; [done|by apply Hm].
  - simplify_eq. apply lookup_insert_Some in Hf as [[-> <-]|[_ Hf]]; [|by apply Hm].
    by destruct (Ht b n u).
Qed.

Lemma store_all_not_git l : forall m F fn,
  store_all l m = Some F ->
  (forall a, m !! fn = Some a -> has_scm a = false) ->
  (forall v, v ∈ l -> derives_git v <> Some fn) ->
  forall f, F !! fn = Some f -> has_scm f = false.
Proof.
  induction l as [|v l IH]; intros m F fn; cbn [store_all].
  - intros [= <-] Hm _. exact Hm.
  - destruct (store _ _ m) as [m1|] eqn:Hst; [|done]. intros HF Hm Hno.
    apply (IH m1 F fn HF).
    + apply (store_not_git _ _ _ _ _ Hst Hm). intros b n u Ht.
      apply (Hno v); [by left|]. by apply (target_git v fn b n u).
    + intros v' Hv'. apply Hno. by right.
Qed.

(** A classification that completes could read its entry. *)
Lemma classify_readable m p e st st' :
  classify m p e st = Ok st' -> readable (m, p, e).
Proof.
  unfold classify, readable. cbn [snd]. destruct (resolved e) as [url|].
  - unfold registry_resolved. destruct (integrity e) as [i|]; [|done].
    cbn [mbind outcome_bind].
    destruct (parse_integrity i) as [[algo chksum]|] eqn:Hp; [|done].
    intros _. exists i. split; [done|]. by eexists.
  - unfold unresolved. destruct (from e) as [f|]; [|done].
    destruct (urllib.urlparse f) as [o|]; [|done]. intros _. by eexists.
Qed.

Lemma classify_all_readable l : forall st st',
  classify_all l st = Ok st' -> Forall readable l.
Proof.
  induction l as [|[[m p] e] l IH]; intros st st'; cbn [classify_all]; [by constructor|].
  destruct (classify m p e st) as [st1|] eqn:Hc; [|done]. cbn [mbind outcome_bind].
  intros H. constructor; [by eapply classify_readable|by eapply IH].
Qed.

Lemma readable_tarball v url :
  readable v -> resolved v.2 = Some url ->
  exists algo chksum, target v = Some (tarball_fn v.1.1 url, Tarball url algo chksum).
Proof.
  unfold readable, target. intros H Hr. rewrite Hr in *.
  destruct H as (i & -> & [[algo chksum] ->]). by exists algo, chksum.
Qed.

(** After a completed list of steps the name of each step that stands for
    an artifact is in the Registry, with the path of the step when the
    artifact is a registry tarball. *)
Lemma store_all_registered l : forall m F v fn,
  store_all l m = Some F ->
  v ∈ l -> derives fn v ->
  exists f, F !! fn = Some f /\ (has_scm f = false -> v.1.2 ∈ paths f).
Proof.
  intros m F v fn Hw Hv [dsc Ht].
  apply list_elem_of_split in Hv as (l1 & l2 & ->).
  rewrite store_all_app in Hw.
  destruct (store_all l1 m) as [m1|]; [|done].
  cbn [mbind option_bind store_all] in Hw. rewrite Ht in Hw.
  destruct (store v.1.2 (Some (fn, dsc)) m1) as [m2|] eqn:Hst; [|done].
  destruct (store_derived _ _ _ _ _ Hst) as (a & s & Ha & Hs & Hin & _).
  destruct (store_all_grows _ _ _ _ _ Hw Ha) as (f & Hf & _ & Hd).
  exists f. split; [done|]. intros Hsf. destruct (Hd Hsf) as [_ Hp].
  destruct (Hp _ Hs) as (sf & Hsf' & Hsub). unfold paths. rewrite Hsf'. by apply Hsub.
Qed.

End StoreFacts.

(** ** The visits of the walk are the reached entries *)

Section ReachedFacts.
Context {checks : urllib.HostChecks}.

Lemma elem_of_flat d (l : deps_t) v :
  v ∈ flat d (map (fun '(m, e) => (m, visits_entry e)) l)
  <-> exists m e, (m, e) ∈ l /\ v ∈ visits_entry e m (path_of d m).
Proof.
  induction l as [|[m e] l IH]; cbn [map flat].
  - split; [by intros H%elem_of_nil|]. by intros (m & e & H%elem_of_nil & _).
  - rewrite elem_of_app, IH. split.
    + intros [H|(m' & e' & Hin & H)].
      * exists m, e. split; [left|done].
      * exists m', e'. split; [by right|done].
    + intros (m' & e' & [[= -> ->]|Hin]%elem_of_cons & H); [by left|].
      right. by exists m', e'.
Qed.

Lemma visits_entry_reached e : forall m p v,
  v ∈ visits_entry e m p
  <-> is_bundled e = false
      /\ (v = (m, p, e) \/ exists deps, dependencies e = Some deps /\ reached p deps v).
Proof.
  induction e as [b r i f|b r i f deps IH] using entry_deps_ind; intros m p v;
    cbn [visits_entry dependencies].
  - destruct (is_bundled _).
    + split; [by intros H%elem_of_nil|]. by intros [? _].
    + rewrite list_elem_of_singleton. split.
      * intros ->. split; [done|]. by left.
      * intros [_ [->|(deps & ? & _)]]; done.
  - destruct (is_bundled _).
    + split; [by intros H%elem_of_nil|]. by intros [? _].
    + rewrite elem_of_cons, sorted_map, elem_of_flat. rewrite Forall_forall in IH. split.
      * intros [->|(m' & e' & Hin & Hv)]; (split; [done|]); [by left|].
        right. exists deps. split; [done|].
        apply (proj1 (elem_of_sorted _ _)) in Hin.
        apply (IH _ Hin) in Hv as [Hb [->|(deps' & Hd & Hr)]].
        -- by apply reached_here.
        -- by apply (reached_below p deps m' e' deps').
      * intros [_ [->|(deps0 & [= <-] & Hr)]]; [by left|]. right.
        inversion Hr as [d0 l0 m' e' Hin Hb|d0 l0 m' e' deps' v0 Hin Hb Hd Hr']; subst.
        -- exists m', e'. split; [by apply (proj2 (elem_of_sorted _ _))|].
           apply (IH _ Hin). cbn [snd]. split; [done|]. by left.
        -- exists m', e'. split; [by apply (proj2 (elem_of_sorted _ _))|].
           apply (IH _ Hin). cbn [snd]. split; [done|]. right. by exists deps'.
Qed.

Lemma elem_of_visits d deps v : v ∈ visits d deps <-> reached d deps v.
Proof.
  unfold visits. rewrite sorted_map, elem_of_flat. split.
  - intros (m & e & Hin & Hv). apply (proj1 (elem_of_sorted _ _)) in Hin.
    apply visits_entry_reached in Hv as [Hb [->|(deps' & Hd & Hr)]].
    + by apply reached_here.
    + by apply (reached_below d deps m e deps').
  - intros Hr.
    inversion Hr as [d0 l0 m e Hin Hb|d0 l0 m e deps' v0 Hin Hb Hd Hr']; subst.
    + exists m, e. split; [by apply (proj2 (elem_of_sorted _ _))|].
      apply visits_entry_reached. split; [done|]. by left.
    + exists m, e. split; [by apply (proj2 (elem_of_sorted _ _))|].
      apply visits_entry_reached. split; [done|]. right. by exists deps'.
Qed.

(** The registry after a completed walk, in terms of the reached entries. *)
Lemma walk_from_reached d deps st' :
  collect_deps_recursive d deps initial = Ok st' ->
  forall fn a, MODULE_MAP st' !! fn = Some a ->
    (exists v, reached d deps v /\ target v = Some (fn, desc a))
    /\ forall p, p ∈ paths a ->
         exists v, reached d deps v /\ v.1.2 = p /\ derives fn v.
Proof.
  intros Hw fn a Ha. rewrite collect_visits in Hw. apply classify_all_store in Hw.
  assert (Hfrom : from_visits (visits d deps) fn a).
  { apply (store_all_from_visits (visits d deps) (visits d deps) _ _ (reflexivity _) Hw);
      [|done].
    intros fn' a' H. unfold initial in H. cbn [MODULE_MAP] in H.
    by rewrite lookup_empty in H. }
  destruct Hfrom as [(v & Hv & Ht) Hp]. split.
  - exists v. split; [by apply elem_of_visits|done].
  - intros p Hin. destruct (Hp p Hin) as (v' & Hv' & E & Hd).
    exists v'. split; [by apply elem_of_visits|done].
Qed.

Lemma walk_registers_reached d deps st st' v fn :
  collect_deps_recursive d deps st = Ok st' ->
  reached d deps v -> derives fn v ->
  exists f, MODULE_MAP st' !! fn = Some f
            /\ (has_scm f = false -> v.1.2 ∈ paths f).
Proof.
  intros Hw Hv Hd. rewrite collect_visits in Hw. apply classify_all_store in Hw.
  apply elem_of_visits in Hv. by eapply store_all_registered.
Qed.

End ReachedFacts.

(** ** What ends the walk *)

Section FatalConditions.
Context {checks : urllib.HostChecks}.

(** [integrity.split("-", 2)] with its two-name unpacking, by the number
    of hyphens. *)
Lemma parse_integrity_no_hyphen i :
  Str.contains "-" i = false ->
  parse_integrity i = Raise (ValueError "not enough values to unpack").
Proof. intros Hi. unfold parse_integrity. by rewrite (split_max_absent _ _ _ Hi). Qed.

Lemma parse_integrity_two_hyphens a b c :
  Str.contains "-" a = false -> Str.contains "-" b = false ->
  parse_integrity (a +:+ "-" +:+ b +:+ "-" +:+ c)
  = Raise (ValueError "too many values to unpack").
Proof.
  intros Ha Hb. unfold parse_integrity.
  change ("-" +:+ b +:+ "-" +:+ c) with (String "-" (b +:+ String "-" c)).
  rewrite (split_max_first _ _ _ _ Ha), (split_max_first _ _ _ _ Hb). by destruct c.
Qed.

Lemma parse_integrity_one_hyphen algo digest :
  Str.contains "-" algo = false -> Str.contains "-" digest = false ->
  parse_integrity (algo +:+ "-" +:+ digest)
  = raw ← b64decode digest; Ok (algo, binascii.hexlify raw).
Proof.
  intros Ha Hd. unfold parse_integrity.
  change ("-" +:+ digest) with (String "-" digest).
  by rewrite (split_max_first _ _ _ _ Ha), (split_max_absent _ _ _ Hd).
Qed.

(** C4, as amended. A manifest that cannot be read or parsed ends [main]
    before the walk; it is not the only fatal condition.  A registry
    tarball without integrity raises [KeyError]; one whose integrity has no
    hyphen, or two or more, raises [ValueError]; one whose integrity is an
    algorithm, a hyphen and a digest raises exactly when the base64 decoder
    rejects the digest, and is stored otherwise.  The decoder skips what is
    outside its alphabet, so it accepts ["@@@@"] as the empty digest, and
    it rejects ["A"].  The walk does not complete when it reaches an entry
    it cannot read, and [main] ends with the exception of the walk.  A
    missing and an unsupported source are logged and leave the Registry as
    it is, and the walk over a manifest completes when every entry it
    reaches is readable and no registry tarball derives the file name of a
    git reference. *)
Theorem walk_fatal_conditions :
  (forall (platform : Platform) args e w, main args (Raise e) w = Raise e)
  /\ (forall m p e url st,
         resolved e = Some url -> integrity e = None ->
         classify m p e st = Raise (KeyError "integrity"))
  /\ (forall m p e url i st,
         resolved e = Some url -> integrity e = Some i ->
         Str.contains "-" i = false ->
         classify m p e st = Raise (ValueError "not enough values to unpack"))
  /\ (forall m p e url a b c st,
         resolved e = Some url ->
         integrity e = Some (a +:+ "-" +:+ b +:+ "-" +:+ c) ->
         Str.contains "-" a = false -> Str.contains "-" b = false ->
         classify m p e st = Raise (ValueError "too many values to unpack"))
  /\ (forall m p e url algo digest st,
         resolved e = Some url ->
         integrity e = Some (algo +:+ "-" +:+ digest) ->
         Str.contains "-" algo = false -> Str.contains "-" digest = false ->
         match b64decode digest with
         | Raise err => classify m p e st = Raise err
         | Ok raw =>
             MODULE_MAP st !! tarball_fn m url = None ->
             classify m p e st
             = Ok (mkState
                     (<[tarball_fn m url :=
                          mkArtifact (Tarball url algo (binascii.hexlify raw))
                            (Some {[ p ]})]> (MODULE_MAP st))
                     (log st))
         end)
  /\ b64decode "@@@@" = Ok []
  /\ b64decode "A"
     = Raise (BinasciiError "Invalid base64-encoded string: number of data characters cannot be 1 more than a multiple of 4")
  /\ (forall m p e st,
         resolved e = None -> from e = None ->
         classify m p e st = Ok (logging WARNING "entry %s has no download" [m] st))
  /\ (forall m p e f o st,
         resolved e = None -> from e = Some f ->
         urllib.urlparse f = Ok o ->
         str_in (urllib.scheme o) ["git+http"; "git+https"] = false ->
         classify m p e st
         = Ok (logging WARNING "entry %s is from unsupported location %s" [m; f] st))
  /\ (forall d deps st v,
         reached d deps v -> ~ readable v ->
         ~ is_Ok (collect_deps_recursive d deps st))
  /\ (forall (platform : Platform) args deps w e,
         collect_deps_recursive "" deps (logging INFO "main" [] initial) = Raise e ->
         main args (Ok (Some deps)) w = Raise e)
  /\ (forall d deps,
         Forall readable (visits d deps) ->
         no_clash (visits d deps) ->
         is_Ok (collect_deps_recursive d deps initial)).
Proof.
  assert (Hparse : forall m p e url i err st,
             resolved e = Some url -> integrity e = Some i ->
             parse_integrity i = Raise err ->
             classify m p e st = Raise err).
  { intros m p e url i err st Hr Hi Hp. unfold classify, registry_resolved.
    rewrite Hr, Hi. cbn [mbind outcome_bind]. by rewrite Hp. }
  split; [reflexivity|]. repeat apply conj.
  - intros m p e url st Hr Hi. unfold classify, registry_resolved. by rewrite Hr, Hi.
  - intros m p e url i st Hr Hi Hno. apply (Hparse _ _ _ _ _ _ _ Hr Hi).
    by apply parse_integrity_no_hyphen.
  - intros m p e url a b c st Hr Hi Ha Hb. apply (Hparse _ _ _ _ _ _ _ Hr Hi).
    by apply parse_integrity_two_hyphens.
  - intros m p e url algo digest st Hr Hi Ha Hd.
    pose proof (parse_integrity_one_hyphen _ _ Ha Hd) as Hp.
    destruct (b64decode digest) as [raw|err]; cbn [mbind outcome_bind] in Hp.
    + intros Hfree. unfold classify. rewrite Hr.
      rewrite (registry_resolved_new _ _ _ _ _ _ _ _ Hi Hp Hfree). reflexivity.
    + by apply (Hparse _ _ _ _ _ _ _ Hr Hi).
  - by vm_compute.
  - by vm_compute.
  - intros m p e st Hr Hf. unfold classify, unresolved. by rewrite Hr, Hf.
  - intros m p e f o st Hr Hf Ho Hs. unfold classify, unresolved.
    rewrite Hr, Hf, Ho. cbn [mbind outcome_bind]. by rewrite Hs.
  - intros d deps st v Hv Hnr [st' Hw]. apply Hnr.
    rewrite collect_visits in Hw. apply classify_all_readable in Hw.
    rewrite Forall_forall in Hw. by apply Hw, elem_of_visits.
  - intros platform args deps w e Hw. unfold main. cbn [mbind outcome_bind].
    by rewrite Hw.
  - intros d deps Hr Hclash. rewrite collect_visits.
    apply (classify_all_completes (visits d deps)); [done|done|done|].
    intros fn a Hl. unfold initial in Hl. cbn [MODULE_MAP] in Hl.
    by rewrite lookup_empty in Hl.
Qed.

End FatalConditions.

Lemma walk_fatal_conditions_witness :
  is_Ok (@collect_deps_recursive accept_hosts "" [("a", x_tarball); ("b", repo_git)] initial).
Proof.
  apply (@walk_fatal_conditions accept_hosts).
  - repeat constructor.
    + exists x_integrity. split; [reflexivity|]. eexists. vm_compute. reflexivity.
    + eexists. vm_compute. reflexivity.
  - intros v1 v2 fn H1 H2 Hg Ht.
    change (visits "" [("a", x_tarball); ("b", repo_git)])
      with [("a", "node_modules/a", x_tarball); ("b", "node_modules/b", repo_git)] in H1, H2.
    assert (Hfn : fn = "repo-master.tgz").
    { apply elem_of_cons in H1 as [->|H1]; [vm_compute in Hg; discriminate|].
      apply elem_of_cons in H1 as [->|H1]; [|by apply elem_of_nil in H1].
      vm_compute in Hg. by injection Hg. }
    subst fn.
    apply elem_of_cons in H2 as [->|H2]; [vm_compute in Ht; discriminate|].
    apply elem_of_cons in H2 as [->|H2]; [|by apply elem_of_nil in H2].
    vm_compute in Ht. discriminate.
Defined.

(** C4, as stated, fails: each of these manifests was read and parsed, and
    [main] raises during the walk, after the entry [a] was resolved. *)
Lemma parsed_manifest_aborts_walk :
  @main accept_hosts platform_http_error no_output
    (Ok (Some [("a", x_tarball); ("b", y_no_integrity)])) empty_world
  = Raise (KeyError "integrity")
  /\ @main accept_hosts platform_http_error no_output
       (Ok (Some [("a", x_tarball); ("b", y_bad_integrity)])) empty_world
     = Raise (ValueError "not enough values to unpack")
  /\ @main accept_hosts platform_http_error no_output
       (Ok (Some [("a", repo_git_v1); ("b", repo_tarball_v1)])) empty_world
     = Raise (KeyError "algo").
Proof. repeat split; vm_compute; reflexivity. Qed.

(** ** The walk run again on its own Registry *)

Section Repeatable.
Context {checks : urllib.HostChecks}.


End Repeatable.



(** ** Entries that share a tarball *)

Section TarballCollapse.
Context {checks : urllib.HostChecks}.

(** C7, as amended. The file name of a registry tarball is the text after
    the last "/" of the resolved URL, with the text before the first "/" of
    the module name and a hyphen in front when the module name has a "/".
    Two entries the walk reaches, at any level of the manifest, with the
    same resolved URL, whatever their integrity, and with module names that
    have the same such prefix, or both none, derive one file name; after
    the walk
    the Registry has an entry under that name, and the entry holds both
    paths unless it is a git reference, which it is not when it was none
    before the walk and no git reference the walk reaches derives that
    name.  In a dict of just two such entries without dependencies, walked
    with the name free, the entry is the tarball with exactly the two
    paths. *)
Theorem tarball_name_and_collapse :
  (forall module s t,
      Str.contains "/" t = false ->
      tarball_fn module (s +:+ "/" +:+ t)
      = match scope module with
        | Some p => p +:+ "-" +:+ t
        | None => t
        end)
  /\ (forall d deps st st' v1 v2 url,
         collect_deps_recursive d deps st = Ok st' ->
         reached d deps v1 -> reached d deps v2 ->
         resolved v1.2 = Some url -> resolved v2.2 = Some url ->
         scope v1.1.1 = scope v2.1.1 ->
         tarball_fn v2.1.1 url = tarball_fn v1.1.1 url
         /\ exists f,
              MODULE_MAP st' !! tarball_fn v1.1.1 url = Some f
              /\ (has_scm f = false -> v1.1.2 ∈ paths f /\ v2.1.2 ∈ paths f)
              /\ ((forall a, MODULE_MAP st !! tarball_fn v1.1.1 url = Some a ->
                             has_scm a = false) ->
                  (forall v, reached d deps v ->
                             derives_git v <> Some (tarball_fn v1.1.1 url)) ->
                  has_scm f = false))
  /\ (forall d m1 m2 e1 e2 url i algo chksum st,
         scope m1 = scope m2 ->
         is_bundled e1 = false -> is_bundled e2 = false ->
         resolved e1 = Some url -> resolved e2 = Some url ->
         integrity e1 = Some i -> integrity e2 = Some i ->
         dependencies e1 = None -> dependencies e2 = None ->
         parse_integrity i = Ok (algo, chksum) ->
         MODULE_MAP st !! tarball_fn m1 url = None ->
         collect_deps_recursive d [(m1, e1); (m2, e2)] st
         = Ok (mkState
                 (<[tarball_fn m1 url :=
                      mkArtifact (Tarball url algo chksum)
                        (Some {[ path_of d m1; path_of d m2 ]})]> (MODULE_MAP st))
                 (log st))).
Proof.
  split; [|split].
  - intros module s t Ht. by rewrite tarball_fn_scope, (basename_last_segment _ _ Ht).
  - intros d deps st st' v1 v2 url Hw Hv1 Hv2 Hr1 Hr2 Hs.
    assert (Hfn : tarball_fn v2.1.1 url = tarball_fn v1.1.1 url)
      by (by rewrite !tarball_fn_scope, Hs).
    split; [done|].
    pose proof Hw as Hst. rewrite collect_visits in Hst.
    pose proof (classify_all_readable _ _ _ Hst) as Hread. rewrite Forall_forall in Hread.
    apply classify_all_store in Hst.
    apply elem_of_visits in Hv1, Hv2.
    destruct (readable_tarball v1 url (Hread _ Hv1) Hr1) as (a1 & c1 & Ht1).
    destruct (readable_tarball v2 url (Hread _ Hv2) Hr2) as (a2 & c2 & Ht2).
    rewrite Hfn in Ht2.
    destruct (store_all_registered _ _ _ v1 _ Hst Hv1 (ex_intro _ _ Ht1)) as (f & Hf & Hp1).
    destruct (store_all_registered _ _ _ v2 _ Hst Hv2 (ex_intro _ _ Ht2)) as (f' & Hf' & Hp2).
    rewrite Hf in Hf'. injection Hf' as <-.
    exists f. split; [done|]. split; [by auto|].
    intros Hstart Hno. apply (store_all_not_git _ _ _ _ Hst Hstart); [|done].
    intros v Hv. apply Hno. by apply elem_of_visits.
  - intros d m1 m2 e1 e2 url i algo chksum st Hs Hb1 Hb2 Hr1 Hr2 Hi1 Hi2 Hd1 Hd2 Hp Hnone.
    assert (Hfn : tarball_fn m2 url = tarball_fn m1 url)
      by (by rewrite !tarball_fn_scope, Hs).
    assert (Hv : forall m e (st0 : state),
               is_bundled e = false -> dependencies e = None ->
               visit e m (path_of d m) st0 = classify m (path_of d m) e st0).
    { intros m [b r ig f ds] st0 Hb Hd. cbn [visit]. cbn [dependencies] in Hd.
      rewrite Hb, Hd. by destruct (classify _ _ _ _). }
    unfold collect_deps_recursive. cbn [map sorted insert_item fst].
    destruct (String.leb m1 m2); cbn [for_each].
    + rewrite (Hv _ _ _ Hb1 Hd1). unfold classify at 1. rewrite Hr1.
      rewrite (registry_resolved_new _ _ _ _ _ _ _ _ Hi1 Hp Hnone).
      cbn [mbind outcome_bind]. rewrite (Hv _ _ _ Hb2 Hd2). unfold classify. rewrite Hr2.
      erewrite registry_resolved_collision; [|exact Hi2|exact Hp|].
      2:{ cbn [MODULE_MAP]. rewrite Hfn. apply lookup_insert_eq. }
      cbn [mbind outcome_bind MODULE_MAP log default]. rewrite !String.eqb_refl.
      cbn [andb]. rewrite Hfn, insert_insert_eq. reflexivity.
    + rewrite (Hv _ _ _ Hb2 Hd2). unfold classify at 1. rewrite Hr2.
      rewrite <- Hfn in Hnone.
      rewrite (registry_resolved_new _ _ _ _ _ _ _ _ Hi2 Hp Hnone).
      cbn [mbind outcome_bind]. rewrite (Hv _ _ _ Hb1 Hd1). unfold classify. rewrite Hr1.
      erewrite registry_resolved_collision; [|exact Hi1|exact Hp|].
      2:{ cbn [MODULE_MAP]. rewrite <- Hfn. apply lookup_insert_eq. }
      cbn [mbind outcome_bind MODULE_MAP log default]. rewrite !String.eqb_refl.
      cbn [andb]. rewrite Hfn, insert_insert_eq.
      unfold id. by rewrite (comm_L (∪) {[ path_of d m2 ]}).
Qed.

End TarballCollapse.

Lemma tarball_name_and_collapse_witness :
  tarball_fn "b" x_url = tarball_fn "a" x_url
  /\ exists f,
       MODULE_MAP
         (mkState
            {[ "x-1.0.tgz" :=
                 mkArtifact (Tarball x_url "sha1" x_chksum)
                   (Some ({[ "node_modules/a" ]} ∪ {[ "node_modules/a/node_modules/b" ]})) ]}
            []) !! tarball_fn "a" x_url = Some f
       /\ (has_scm f = false ->
           "node_modules/a" ∈ paths f /\ "node_modules/a/node_modules/b" ∈ paths f)
       /\ ((forall a, MODULE_MAP initial !! tarball_fn "a" x_url = Some a -> has_scm a = false) ->
           (forall v, reached "" [("a", x_tarball_b)] v ->
                      @derives_git accept_hosts v <> Some (tarball_fn "a" x_url)) ->
           has_scm f = false).
Proof.
  refine (proj1 (proj2 (@tarball_name_and_collapse accept_hosts))
            "" [("a", x_tarball_b)] initial _
            ("a", "node_modules/a", x_tarball_b)
            ("b", "node_modules/a/node_modules/b", x_tarball) x_url _ _ _ _ _ _).
  - vm_compute. reflexivity.
  - apply (reached_here "" [("a", x_tarball_b)] "a" x_tarball_b); [left|reflexivity].
  - apply (reached_below "" [("a", x_tarball_b)] "a" x_tarball_b [("b", x_tarball)]);
      [left|reflexivity|reflexivity|].
    apply (reached_here "node_modules/a" [("b", x_tarball)] "b" x_tarball); [left|reflexivity].
  - reflexivity.
  - reflexivity.
  - reflexivity.
Defined.

(** C7, as stated, fails: the same URL and integrity under the module
    names [a] and [@s/a] give two Registry entries, none with both paths. *)
Lemma scoped_module_not_collapsed :
  exists st,
    @collect_deps_recursive accept_hosts "" [("a", x_tarball); ("@s/a", x_tarball)] initial
    = Ok st
    /\ ~ (exists fn a, MODULE_MAP st !! fn = Some a
                       /\ "node_modules/a" ∈ paths a
                       /\ "node_modules/@s/a" ∈ paths a).
Proof.
  exists (mkState
            (<[ "x-1.0.tgz" :=
                  mkArtifact (Tarball x_url "sha1" x_chksum) (Some {[ "node_modules/a" ]}) ]>
               (<[ "@s-x-1.0.tgz" :=
                     mkArtifact (Tarball x_url "sha1" x_chksum)
                       (Some {[ "node_modules/@s/a" ]}) ]> ∅)) []).
  split.
  - vm_compute. reflexivity.
  - intros (fn & a & Hl & H1 & H2). cbn [MODULE_MAP] in Hl.
    apply lookup_insert_Some in Hl as [[_ <-]|[_ Hl]].
    + unfold paths in H2. cbn [path default] in H2. unfold id in H2.
      apply elem_of_singleton in H2. discriminate.
    + apply lookup_insert_Some in Hl as [[_ <-]|[_ Hl]].
      * unfold paths in H1. cbn [path default] in H1. unfold id in H1.
        apply elem_of_singleton in H1. discriminate.
      * by rewrite lookup_empty in Hl.
Qed.

(** ** Bundled entries and the recursion *)

Section BundledClaims.
Context {checks : urllib.HostChecks}.

(** C8. An entry with [bundled] true is skipped whole: the iteration leaves
    Registry and log as they were, whatever the entry and its nested
    dependencies hold.  After a walk from the empty Registry every artifact
    and every path of the Registry comes from a reached entry, that is an
    entry that is not bundled and has no bundled entry above it; and
    every reached entry that stands for an artifact is registered, whatever
    the classification of the entries above it did short of raising.  The
    walk gives what it gives on the manifest without its bundled entries.
    For an entry that is not bundled the walk classifies the entry and then
    goes into the entry's [dependencies] with the entry's path as parent;
    in particular after the warning for a missing and for an unsupported
    source. *)
Theorem bundled_skipped_recursion_uniform :
  (forall e m p st, bundled e = Some true -> visit e m p st = Ok st)
  /\ (forall d deps st',
         collect_deps_recursive d deps initial = Ok st' ->
         forall fn a, MODULE_MAP st' !! fn = Some a ->
           (exists v, reached d deps v /\ target v = Some (fn, desc a))
           /\ forall p, p ∈ paths a ->
                exists v, reached d deps v /\ v.1.2 = p /\ derives fn v)
  /\ (forall d deps st st' v fn,
         collect_deps_recursive d deps st = Ok st' ->
         reached d deps v -> derives fn v ->
         exists f, MODULE_MAP st' !! fn = Some f
                   /\ (has_scm f = false -> v.1.2 ∈ paths f))
  /\ (forall d deps st,
         collect_deps_recursive d deps st = collect_deps_recursive d (prune deps) st
         /\ has_bundled (prune deps) = false)
  /\ (forall e m p st,
         is_bundled e = false ->
         visit e m p st
         = classify m p e st ≫= fun st' =>
             match dependencies e with
             | Some deps => collect_deps_recursive p deps st'
             | None => Ok st'
             end)
  /\ (forall e m p st deps,
         is_bundled e = false -> resolved e = None -> from e = None ->
         dependencies e = Some deps ->
         visit e m p st
         = collect_deps_recursive p deps
             (logging WARNING "entry %s has no download" [m] st))
  /\ (forall e m p st deps f o,
         is_bundled e = false -> resolved e = None -> from e = Some f ->
         urllib.urlparse f = Ok o ->
         str_in (urllib.scheme o) ["git+http"; "git+https"] = false ->
         dependencies e = Some deps ->
         visit e m p st
         = collect_deps_recursive p deps
             (logging WARNING "entry %s is from unsupported location %s" [m; f] st)).
Proof.
  assert (Hstep : forall e m p st,
             is_bundled e = false ->
             visit e m p st
             = classify m p e st ≫= fun st' =>
                 match dependencies e with
                 | Some deps => collect_deps_recursive p deps st'
                 | None => Ok st'
                 end).
  { intros [b r i f ds] m p st Hb. cbn [visit]. rewrite Hb. cbn [dependencies].
    by destruct ds. }
  split; [|split; [|split; [|split; [|split; [|split]]]]].
  - intros [b r i f ds] m p st Hb. cbn [bundled] in Hb. subst b. reflexivity.
  - apply walk_from_reached.
  - apply walk_registers_reached.
  - intros d deps st. split; [|apply has_bundled_prune].
    symmetry. apply collect_prune, Forall_forall. intros x _. apply visit_prune_entry.
  - exact Hstep.
  - intros e m p st deps Hb Hr Hf Hd. rewrite (Hstep _ _ _ _ Hb), Hd.
    unfold classify, unresolved. by rewrite Hr, Hf.
  - intros e m p st deps f o Hb Hr Hf Ho Hs Hd. rewrite (Hstep _ _ _ _ Hb), Hd.
    unfold classify, unresolved. rewrite Hr, Hf, Ho. cbn [mbind outcome_bind].
    by rewrite Hs.
Qed.

End BundledClaims.

Lemma bundled_skipped_recursion_uniform_witness :
  exists f,
    MODULE_MAP
      (mkState
         {[ "x-1.0.tgz" :=
              mkArtifact (Tarball x_url "sha1" x_chksum)
                (Some {[ "node_modules/m/node_modules/c" ]}) ]}
         [mkLog WARNING "entry %s has no download" ["m"]]) !! "x-1.0.tgz" = Some f
    /\ (has_scm f = false ->
        "node_modules/m/node_modules/c" ∈ paths f).
Proof.
  refine (proj1 (proj2 (proj2 (@bundled_skipped_recursion_uniform accept_hosts)))
            "" [("b", bundled_y); ("m", no_source_c)] initial _
            ("c", "node_modules/m/node_modules/c", x_tarball) "x-1.0.tgz" _ _ _).
  - vm_compute. reflexivity.
  - apply (reached_below "" [("b", bundled_y); ("m", no_source_c)] "m" no_source_c
             [("c", x_tarball)]); [right; left|reflexivity|reflexivity|].
    apply (reached_here "node_modules/m" [("c", x_tarball)] "c" x_tarball);
      [left|reflexivity].
  - eexists. vm_compute. reflexivity.
Defined.

(** * Further properties of the consumers and of the walk *)

(** ** The order the consumers read the Registry in *)

Lemma elem_of_sorted_artifacts (m : gmap string artifact) fn a :
  (fn, a) ∈ sorted_artifacts m <-> m !! fn = Some a.
Proof. unfold sorted_artifacts. rewrite elem_of_sorted. apply elem_of_map_to_list. Qed.

(** X1. [sorted(MODULE_MAP)] lists every entry of the Registry, each once,
    in the order of the file names. *)
Theorem sorted_artifacts_complete_ordered (m : gmap string artifact) :
  (forall fn a, (fn, a) ∈ sorted_artifacts m <-> m !! fn = Some a)
  /\ NoDup (sorted_artifacts m).*1
  /\ StronglySorted key_le (sorted_artifacts m)
  /\ length (sorted_artifacts m) = size m.
Proof.
  repeat apply conj; [apply elem_of_sorted_artifacts|unfold sorted_artifacts..].
  - rewrite sorted_perm. apply NoDup_fst_map_to_list.
  - apply sorted_sorted.
  - rewrite sorted_perm. apply length_map_to_list.
Qed.

(** The spec-line writer gives one line for each artifact; the line at
    position [k] carries the number [i + k]. *)
Lemma source_lines_lookup (i : Z) (l : list (string * artifact)) :
  length (source_lines i l) = length l
  /\ forall k : nat, source_lines i l !! k = source_line (i + Z.of_nat k) <$> l !! k.
Proof.
  revert i. induction l as [|[fn a] l IH]; intros i; [by split|].
  destruct (IH (i + 1)) as [Hlen Hk]. cbn [source_lines]. split.
  - cbn [length]. by rewrite Hlen.
  - intros [|k].
    + cbn. unfold source_line. cbn [fst snd]. by rewrite Z.add_0_r.
    + cbn [lookup list_lookup]. rewrite Hk. do 2 f_equal. lia.
Qed.

(** ** The checksum writer and the location writer *)

Lemma checksum_lines_tarballs (l : list (string * artifact)) :
  Forall (fun x => has_scm x.2 = false) l ->
  checksum_lines l = Ok (map checksum_line l).
Proof.
  induction 1 as [|[fn a] l Ha _ IH]; [done|].
  cbn [checksum_lines map]. unfold checksum_line, get_algo, get_chksum, has_scm in *.
  cbn [fst snd] in *. destruct (desc a) as [u al c|b n u]; [|done].
  cbn [mbind outcome_bind]. by rewrite IH.
Qed.

Lemma checksum_lines_Ok (l : list (string * artifact)) lines :
  checksum_lines l = Ok lines -> Forall (fun x => has_scm x.2 = false) l.
Proof.
  revert lines. induction l as [|[fn a] l IH]; intros lines; [by constructor|].
  cbn [checksum_lines]. unfold get_algo, get_chksum.
  destruct (desc a) as [u al c|b n u] eqn:E; [|done]. cbn [mbind outcome_bind].
  destruct (checksum_lines l) as [rest|err]; [|done]. intros _.
  constructor; [|by eapply IH]. unfold has_scm. cbn [snd]. by rewrite E.
Qed.

(** X3. The checksum writer completes exactly on the lists without git
    reference, and then writes, for each artifact in its turn, the
    algorithm in upper case, the file name in brackets and the checksum. *)
Theorem checksum_writer_completes_iff (l : list (string * artifact)) :
  (is_Ok (checksum_lines l) <-> Forall (fun x => has_scm x.2 = false) l)
  /\ (forall lines, checksum_lines l = Ok lines -> lines = map checksum_line l).
Proof.
  split; [split|].
  - intros [lines H]. by eapply checksum_lines_Ok.
  - intros H. eexists. by apply checksum_lines_tarballs.
  - intros lines H. pose proof (checksum_lines_Ok _ _ H) as Hall.
    rewrite (checksum_lines_tarballs _ Hall) in H. by injection H.
Qed.

Lemma checksum_writer_completes_iff_witness :
  [Str.upper "sha1" +:+ " (" +:+ "x-1.0.tgz" +:+ ") = " +:+ x_chksum +:+ nl]
  = map checksum_line [("x-1.0.tgz", x_artifact)].
Proof.
  apply (proj2 (checksum_writer_completes_iff [("x-1.0.tgz", x_artifact)])).
  reflexivity.
Defined.

Lemma location_lines_paths (l : list (string * artifact)) :
  Forall (fun x => is_Some (path x.2)) l -> is_Ok (location_lines l).
Proof.
  induction 1 as [|[fn a] l [s Hs] _ [rest IH]]; [by eexists|].
  cbn [location_lines]. unfold get_path. cbn [snd] in Hs. rewrite Hs.
  cbn [mbind outcome_bind]. rewrite IH. by eexists.
Qed.

Section PathsKept.
Context {checks : urllib.HostChecks}.

Lemma store_has_paths p t m m' :
  has_paths m -> store p t m = Some m' -> has_paths m'.
Proof.
  intros Hm Hst fn a Hl. unfold store in Hst.
  destruct t as [[k d]|]; [|simplify_eq; by eapply Hm].
  assert (Hne : forall s : gset string, s ∪ {[ p ]} <> ∅).
  { intros s E. apply (not_elem_of_empty (C := gset string) p). rewrite <- E.
    apply elem_of_union_r, elem_of_singleton. done. }
  destruct d as [u al c|b n u].
  - destruct (m !! k) as [old|] eqn:Hk.
    + destruct (has_scm old); [done|]. simplify_eq.
      apply lookup_insert_Some in Hl as [[_ <-]|[_ Hl]]; [|by eapply Hm].
      eexists. split; [reflexivity|]. apply Hne.
    + simplify_eq. apply lookup_insert_Some in Hl as [[_ <-]|[_ Hl]]; [|by eapply Hm].
      eexists. split; [reflexivity|]. rewrite <- (left_id_L ∅ (∪) {[ p ]}). apply Hne.
  - simplify_eq. apply lookup_insert_Some in Hl as [[_ <-]|[_ Hl]]; [|by eapply Hm].
    eexists. split; [reflexivity|]. rewrite <- (left_id_L ∅ (∪) {[ p ]}). apply Hne.
Qed.

Lemma store_all_has_paths l : forall m m',
  has_paths m -> store_all l m = Some m' -> has_paths m'.
Proof.
  induction l as [|v l IH]; intros m m' Hm; cbn [store_all].
  - by intros [= <-].
  - destruct (store _ _ m) as [m1|] eqn:Hst; [|done].
    apply IH. by eapply store_has_paths.
Qed.

(** X4. The walk keeps the invariant that every artifact of the Registry
    has a set of paths that is not empty, so the location writer, which
    reads ["path"] of every artifact, completes on what a walk from the
    empty Registry leaves. *)
Theorem walk_keeps_paths d deps st st' :
  has_paths (MODULE_MAP st) ->
  collect_deps_recursive d deps st = Ok st' ->
  has_paths (MODULE_MAP st')
  /\ is_Ok (location_lines (sorted_artifacts (MODULE_MAP st'))).
Proof.
  intros Hst Hw. rewrite collect_visits in Hw. apply classify_all_store in Hw.
  assert (Hp : has_paths (MODULE_MAP st')) by by eapply store_all_has_paths.
  split; [done|]. apply location_lines_paths, Forall_forall. intros [fn a] Hx.
  apply elem_of_sorted_artifacts in Hx.
  destruct (Hp _ _ Hx) as (s & Hs & _). cbn [snd]. by rewrite Hs.
Qed.

End PathsKept.

Lemma walk_keeps_paths_witness :
  has_paths
    (MODULE_MAP (mkState
       {[ "x-1.0.tgz" :=
            mkArtifact (Tarball x_url "sha1" x_chksum) (Some {[ "node_modules/a" ]}) ]} []))
  /\ is_Ok (location_lines (sorted_artifacts
       (MODULE_MAP (mkState
          {[ "x-1.0.tgz" :=
               mkArtifact (Tarball x_url "sha1" x_chksum) (Some {[ "node_modules/a" ]}) ]}
          [])))).
Proof.
  refine (@walk_keeps_paths accept_hosts "" [("a", x_tarball)] initial _ _ _).
  - intros fn a H. unfold initial in H. cbn [MODULE_MAP] in H.
    by rewrite lookup_empty in H.
  - vm_compute. reflexivity.
Defined.

(** ** What the walk leaves in the Registry *)

Section RegistryContents.
Context {checks : urllib.HostChecks}.

(** X5. An artifact that is in the Registry when a walk starts is still
    there when the walk has completed; a git reference is still a git
    reference, and an artifact that is a registry tarball at the end has
    the descriptor and all the paths it had.  The log is only added to. *)
Theorem walk_keeps_entries d deps st st' :
  collect_deps_recursive d deps st = Ok st' ->
  (forall fn a, MODULE_MAP st !! fn = Some a ->
     exists f, MODULE_MAP st' !! fn = Some f
               /\ (has_scm a = true -> has_scm f = true)
               /\ (has_scm f = false -> desc f = desc a /\ paths a ⊆ paths f))
  /\ log st `prefix_of` log st'.
Proof.
  intros Hw. rewrite collect_visits in Hw. split.
  - intros fn a Ha. apply classify_all_store in Hw.
    destruct (store_all_grows _ _ _ _ _ Hw Ha) as (f & Hf & Hs & Hd).
    exists f. split; [done|]. split; [done|]. intros Hsf.
    destruct (Hd Hsf) as [Hdesc Hp]. split; [done|]. unfold paths.
    destruct (path a) as [sa|]; cbn [default]; [|apply empty_subseteq].
    destruct (Hp _ eq_refl) as (sf & -> & Hsub). done.
  - revert st Hw. generalize (visits d deps). intros l.
    induction l as [|[[m p] e] l IH]; intros st; cbn [classify_all].
    + by intros [= <-].
    + destruct (classify m p e st) as [st1|err] eqn:Hc; [|done].
      cbn [mbind outcome_bind]. intros Hl. etrans; [|by apply IH].
      clear Hl IH. unfold classify in Hc.
      destruct (resolved e) as [url|].
      * unfold registry_resolved in Hc.
        destruct (integrity e) as [i|]; [|done]. cbn [mbind outcome_bind] in Hc.
        destruct (parse_integrity i) as [[algo chksum]|]; [|done].
        cbn [mbind outcome_bind] in Hc.
        destruct (MODULE_MAP st !! tarball_fn m url) as [old|] eqn:Hl.
        -- destruct (if negb (String.eqb (get_url old) url) then _ else _)
             as [[|]|] eqn:Hm; [| |done]; cbn [mbind outcome_bind] in Hc.
           ++ destruct (get_algo old); [|done]. cbn [mbind outcome_bind] in Hc.
              destruct (get_chksum old); [|done]. cbn [mbind outcome_bind] in Hc.
              rewrite add_path_logging in Hc.
              rewrite (add_path_present _ _ _ _ Hl) in Hc. injection Hc as <-.
              cbn [log logging]. by apply prefix_app_r.
           ++ rewrite (add_path_present _ _ _ _ Hl) in Hc. by injection Hc as <-.
        -- cbn [mbind outcome_bind] in Hc. rewrite add_path_setitem in Hc.
           by injection Hc as <-.
      * unfold unresolved in Hc. destruct (from e) as [f|].
        -- destruct (urllib.urlparse f) as [o|]; [|done]. cbn [mbind outcome_bind] in Hc.
           destruct (str_in (urllib.scheme o) _).
           ++ destruct (unpack2 _) as [[x sch]|]; [|done]. cbn [mbind outcome_bind] in Hc.
              rewrite add_path_setitem in Hc. by injection Hc as <-.
           ++ injection Hc as <-. cbn [log logging]. by apply prefix_app_r.
        -- injection Hc as <-. cbn [log logging]. by apply prefix_app_r.
Qed.

End RegistryContents.

Lemma walk_keeps_entries_witness :
  log st_x_a `prefix_of`
    log (mkState
           {[ "x-1.0.tgz" :=
                mkArtifact (Tarball x_url "sha1" x_chksum)
                  (Some ({[ "node_modules/a" ]} ∪ {[ "node_modules/b" ]})) ]} []).
Proof.
  refine (proj2 (@walk_keeps_entries accept_hosts "" [("b", x_tarball)] st_x_a _ _)).
  vm_compute. reflexivity.
Defined.

Section RegistrySound.
Context {checks : urllib.HostChecks}.

(** X6. After a walk from the empty Registry, every artifact has the
    descriptor of an entry the walk reached that derives its file name,
    and every path of the artifact is the path of such an entry. *)
Theorem registry_from_visits d deps st' :
  collect_deps_recursive d deps initial = Ok st' ->
  forall fn a, MODULE_MAP st' !! fn = Some a -> from_visits (visits d deps) fn a.
Proof.
  intros Hw. rewrite collect_visits in Hw. apply classify_all_store in Hw.
  apply (store_all_from_visits (visits d deps) (visits d deps) _ _ (reflexivity _) Hw).
  intros fn a H. unfold initial in H. cbn [MODULE_MAP] in H.
  by rewrite lookup_empty in H.
Qed.

(** X7. When a walk has completed, the file name of every entry it
    reached that stands for an artifact is in the Registry, and when that
    artifact is a registry tarball the path of the entry is among its
    paths. *)
Theorem visited_entry_registered d deps st st' v fn :
  collect_deps_recursive d deps st = Ok st' ->
  v ∈ visits d deps ->
  derives fn v ->
  exists f, MODULE_MAP st' !! fn = Some f
            /\ (has_scm f = false -> v.1.2 ∈ paths f).
Proof.
  intros Hw Hv [dsc Ht]. rewrite collect_visits in Hw. apply classify_all_store in Hw.
  apply list_elem_of_split in Hv as (l1 & l2 & Hl). rewrite Hl in Hw.
  rewrite store_all_app in Hw.
  destruct (store_all l1 (MODULE_MAP st)) as [m1|]; [|done].
  cbn [mbind option_bind store_all] in Hw. rewrite Ht in Hw.
  destruct (store v.1.2 (Some (fn, dsc)) m1) as [m2|] eqn:Hst; [|done].
  destruct (store_derived _ _ _ _ _ Hst) as (a & s & Ha & Hs & Hin & _).
  destruct (store_all_grows _ _ _ _ _ Hw Ha) as (f & Hf & _ & Hd).
  exists f. split; [done|]. intros Hsf. destruct (Hd Hsf) as [_ Hp].
  destruct (Hp _ Hs) as (sf & Hsf' & Hsub). unfold paths. rewrite Hsf'. by apply Hsub.
Qed.

(** X8. The first entry of a walk that derives a file name which was
    free decides the descriptor: when the walk has completed and the
    artifact under that name is a registry tarball, it has the descriptor
    of that first entry. *)
Theorem first_seen_descriptor_kept d deps st st' l1 v l2 fn dsc :
  collect_deps_recursive d deps st = Ok st' ->
  visits d deps = (l1 ++ v :: l2)%list ->
  MODULE_MAP st !! fn = None ->
  (forall v', v' ∈ l1 -> ~ derives fn v') ->
  target v = Some (fn, dsc) ->
  exists f, MODULE_MAP st' !! fn = Some f /\ (has_scm f = false -> desc f = dsc).
Proof.
  intros Hw Hl Hfree Hno Ht. rewrite collect_visits in Hw. apply classify_all_store in Hw.
  rewrite Hl, store_all_app in Hw.
  destruct (store_all l1 (MODULE_MAP st)) as [m1|] eqn:H1; [|done].
  cbn [mbind option_bind store_all] in Hw. rewrite Ht in Hw.
  destruct (store v.1.2 (Some (fn, dsc)) m1) as [m2|] eqn:Hst; [|done].
  destruct (store_derived _ _ _ _ _ Hst) as (a & s & Ha & _ & _ & Hnew).
  rewrite (store_all_other _ _ _ _ H1 Hno) in Hnew. specialize (Hnew Hfree).
  destruct (store_all_grows _ _ _ _ _ Hw Ha) as (f & Hf & _ & Hd).
  exists f. split; [done|]. intros Hsf. destruct (Hd Hsf) as [-> _]. done.
Qed.

End RegistrySound.

Lemma registry_from_visits_witness :
  @from_visits accept_hosts (visits "" [("a", x_tarball)]) "x-1.0.tgz"
    (mkArtifact (Tarball x_url "sha1" x_chksum) (Some {[ "node_modules/a" ]})).
Proof.
  refine (@registry_from_visits accept_hosts "" [("a", x_tarball)] st_x_a _
            "x-1.0.tgz" _ _).
  - vm_compute. reflexivity.
  - vm_compute. reflexivity.
Defined.

Lemma visited_entry_registered_witness :
  exists f, MODULE_MAP st_x_a !! "x-1.0.tgz" = Some f
            /\ (has_scm f = false -> "node_modules/a" ∈ paths f).
Proof.
  refine (@visited_entry_registered accept_hosts "" [("a", x_tarball)] initial st_x_a
            ("a", "node_modules/a", x_tarball) "x-1.0.tgz" _ _ _).
  - vm_compute. reflexivity.
  - change (visits "" [("a", x_tarball)]) with [("a", "node_modules/a", x_tarball)].
    apply list_elem_of_here.
  - exists (Tarball x_url "sha1" x_chksum). vm_compute. reflexivity.
Defined.

Lemma first_seen_descriptor_kept_witness :
  exists f, MODULE_MAP st_x_a !! "x-1.0.tgz" = Some f
            /\ (has_scm f = false -> desc f = Tarball x_url "sha1" x_chksum).
Proof.
  refine (@first_seen_descriptor_kept accept_hosts "" [("a", x_tarball)] initial st_x_a
            [] ("a", "node_modules/a", x_tarball) [] "x-1.0.tgz"
            (Tarball x_url "sha1" x_chksum) _ _ _ _ _).
  - vm_compute. reflexivity.
  - reflexivity.
  - reflexivity.
  - intros v' H. by apply elem_of_nil in H.
  - vm_compute. reflexivity.
Defined.

(** ** File names *)

Lemma contains_append c s t :
  Str.contains c (s +:+ t) = Str.contains c s || Str.contains c t.
Proof. induction s as [|a s IH]; simpl; [done|]. by destruct (Ascii.eqb a c). Qed.

Lemma contains_take c n s : Str.contains c s = false -> Str.contains c (Str.take n s) = false.
Proof.
  revert s. induction n as [|n IH]; intros [|a s]; simpl; try done.
  destruct (Ascii.eqb a c); [done|]. apply IH.
Qed.

Lemma rfind_present c s : Str.contains c s = true -> 0 <= Str.rfind c s.
Proof.
  induction s as [|a s IH]; simpl; [done|].
  destruct (Str.contains c s) eqn:E.
  - intros _. specialize (IH eq_refl).
    replace (0 <=? Str.rfind c s) with true by (symmetry; apply Z.leb_le; lia). lia.
  - rewrite (rfind_absent _ _ E). simpl. destruct (Ascii.eqb a c); [lia|done].
Qed.

Lemma basename_cons a s :
  basename (String a s)
  = if Str.contains "/" s then basename s
    else if Ascii.eqb a "/" then s else String a s.
Proof.
  unfold basename. cbn [Str.rfind]. destruct (Str.contains "/" s) eqn:E.
  - pose proof (rfind_present _ _ E) as Hr.
    replace (0 <=? Str.rfind "/" s) with true by (symmetry; apply Z.leb_le; lia).
    unfold Str.slice_from, Str.bound.
    replace (Str.rfind "/" s + 1 + 1 <? 0) with false by (symmetry; apply Z.ltb_ge; lia).
    replace (Str.rfind "/" s + 1 <? 0) with false by (symmetry; apply Z.ltb_ge; lia).
    replace (Z.to_nat (Str.rfind "/" s + 1 + 1)) with (S (Z.to_nat (Str.rfind "/" s + 1)))
      by lia.
    reflexivity.
  - rewrite (rfind_absent _ _ E). by destruct (Ascii.eqb a "/").
Qed.

Lemma basename_no_slash s : Str.contains "/" (basename s) = false.
Proof.
  induction s as [|a s IH]; [done|]. rewrite basename_cons.
  destruct (Str.contains "/" s) eqn:E; [done|].
  destruct (Ascii.eqb a "/") eqn:Ea; [done|]. simpl. by rewrite Ea.
Qed.

Lemma hd_split_max_no_sep sep k s :
  Str.contains sep (hd EmptyString (Str.split_max sep (S k) s)) = false.
Proof.
  induction s as [|a s IH]; [done|]. cbn [Str.split_max].
  destruct (Ascii.eqb a sep) eqn:E; [done|].
  destruct (Str.split_max sep (S k) s) as [|h t]; simpl; rewrite E; [done|].
  exact IH.
Qed.

Lemma tarball_fn_no_slash module url : Str.contains "/" (tarball_fn module url) = false.
Proof.
  unfold tarball_fn.
  destruct (Str.contains "/" module) eqn:E; [|apply basename_no_slash].
  rewrite !contains_append, basename_no_slash.
  destruct module as [|a module]; [done|]. unfold Str.split. cbn [String.length].
  by rewrite hd_split_max_no_sep.
Qed.

(** X9. The file name of a registry tarball never has a "/": it names a
    file of the working directory.  The file name of a git reference has
    one exactly when the branch has one. *)
Theorem file_names_slash :
  (forall module url, Str.contains "/" (tarball_fn module url) = false)
  /\ (forall o, Str.contains "/" (git_file o) = Str.contains "/" (git_branch o)).
Proof.
  split; [apply tarball_fn_no_slash|].
  intros o. unfold git_file, git_basename. rewrite !contains_append.
  replace (Str.contains "/" (if Str.endswith ".git" (basename (urllib.path o))
                             then Str.slice_to (-4) (basename (urllib.path o))
                             else basename (urllib.path o))) with false.
  - cbn. by rewrite orb_false_r.
  - symmetry. destruct (Str.endswith _ _); [|apply basename_no_slash].
    apply contains_take, basename_no_slash.
Qed.

(** ** The integrity of a registry tarball *)

Lemma split_max_nonempty sep k s : Str.split_max sep k s <> [].
Proof.
  destruct s as [|a s], k as [|k]; cbn [Str.split_max]; try done.
  destruct (Ascii.eqb a sep); [done|]. by destruct (Str.split_max sep (S k) s).
Qed.

Lemma split_max_single sep k s b :
  Str.split_max sep (S k) s = [b] -> s = b /\ Str.contains sep b = false.
Proof.
  revert b. induction s as [|a s IH]; intros b; cbn [Str.split_max].
  - by intros [= <-].
  - destruct (Ascii.eqb a sep) eqn:E.
    + intros [= _ Hnil]. by apply split_max_nonempty in Hnil.
    + destruct (Str.split_max sep (S k) s) as [|h t] eqn:Hs;
        [by apply split_max_nonempty in Hs|].
      intros [= <- ->]. destruct (IH _ eq_refl) as [-> Hh]. simpl. by rewrite E.
Qed.

Lemma split_max_two_pieces sep s a b :
  Str.split_max sep 2 s = [a; b] ->
  s = a +:+ String sep b /\ Str.contains sep a = false /\ Str.contains sep b = false.
Proof.
  revert a. induction s as [|c s IH]; intros a; cbn [Str.split_max]; [done|].
  destruct (Ascii.eqb c sep) eqn:E.
  - intros [= <- Hs]. destruct (split_max_single _ _ _ _ Hs) as [-> Hb].
    apply Ascii.eqb_eq in E as ->. done.
  - destruct (Str.split_max sep 2 s) as [|h t] eqn:Hs;
      [by apply split_max_nonempty in Hs|].
    intros [= <- ->]. destruct (IH _ eq_refl) as (-> & Hh & Hb).
    split; [done|]. split; [|done]. simpl. by rewrite E.
Qed.

Lemma u8_bound x : (binascii.u8 x < 256)%N.
Proof.
  unfold binascii.u8. change 255%N with (N.ones 8). rewrite N.land_ones.
  by apply N.mod_lt.
Qed.

Lemma a2b_loop_bytes data : forall q l p out,
  binascii.a2b_loop data q l p = Ok out -> Forall (fun b => (b < 256)%N) out.
Proof.
  induction data as [|c data IH]; intros q l p out; cbn [binascii.a2b_loop].
  - destruct (q =? 0)%N; [by intros [= <-]|]. by destruct (q =? 1)%N.
  - destruct (c =? binascii.BASE64_PAD)%N.
    + destruct (2 <=? q)%N; [|apply IH].
      destruct (4 <=? q + (p + 1))%N; [by intros [= <-]|apply IH].
    + destruct (64 <=? binascii.table_a2b_base64 c)%N; [apply IH|].
      destruct (q =? 0)%N; [apply IH|].
      destruct (q =? 1)%N; [|destruct (q =? 2)%N];
        (destruct (binascii.a2b_loop data _ _ _) as [out'|] eqn:E; [|done]);
        intros [= <-]; (constructor; [apply u8_bound|by eapply IH]).
Qed.

Lemma parse_integrity_inv s algo chksum :
  parse_integrity s = Ok (algo, chksum) ->
  exists digest raw,
    s = algo +:+ "-" +:+ digest
    /\ Str.contains "-" algo = false /\ Str.contains "-" digest = false
    /\ b64decode digest = Ok raw
    /\ chksum = binascii.hexlify raw
    /\ String.length chksum = (2 * length raw)%nat
    /\ Str.forallb lower_hex chksum = true.
Proof.
  unfold parse_integrity.
  destruct (Str.split_max "-" 2 s) as [|a [|b [|c t]]] eqn:Hs; try done.
  cbn [unpack2 mbind outcome_bind].
  destruct (b64decode b) as [raw|] eqn:Hd; [|done]. cbn [mbind outcome_bind].
  intros [= <- <-]. destruct (split_max_two_pieces _ _ _ _ Hs) as (-> & Ha & Hb).
  exists b, raw. repeat split; try done.
  - apply hexlify_length.
  - apply hexlify_lower. unfold b64decode in Hd.
    destruct (Str.forallb _ b); [|done]. by eapply a2b_loop_bytes.
Qed.

(** X10. What [parse_integrity] accepts: an integrity without hyphen
    and one with two or more hyphens raise [ValueError]; when the
    conversion succeeds the integrity is the algorithm, one hyphen and a
    text without hyphen that the base64 decoder accepts, and the checksum
    is an even number of lowercase hexadecimal digits. *)
Theorem parse_integrity_form :
  (forall s, Str.contains "-" s = false ->
     parse_integrity s = Raise (ValueError "not enough values to unpack"))
  /\ (forall a b c, Str.contains "-" a = false -> Str.contains "-" b = false ->
        parse_integrity (a +:+ "-" +:+ b +:+ "-" +:+ c)
        = Raise (ValueError "too many values to unpack"))
  /\ (forall s algo chksum, parse_integrity s = Ok (algo, chksum) ->
        exists digest raw,
          s = algo +:+ "-" +:+ digest
          /\ Str.contains "-" algo = false /\ Str.contains "-" digest = false
          /\ b64decode digest = Ok raw
          /\ chksum = binascii.hexlify raw
          /\ String.length chksum = (2 * length raw)%nat
          /\ Str.forallb lower_hex chksum = true).
Proof.
  repeat apply conj.
  - intros s Hs. unfold parse_integrity. by rewrite (split_max_absent _ _ _ Hs).
  - intros a b c Ha Hb. unfold parse_integrity.
    change ("-" +:+ b +:+ "-" +:+ c) with (String "-" (b +:+ String "-" c)).
    rewrite (split_max_first _ _ _ _ Ha), (split_max_first _ _ _ _ Hb). by destruct c.
  - apply parse_integrity_inv.
Qed.

Lemma parse_integrity_form_witness :
  parse_integrity "sha512" = Raise (ValueError "not enough values to unpack").
Proof. apply (proj1 parse_integrity_form). reflexivity. Defined.

Section RegistryTarballsForm.
Context {checks : urllib.HostChecks}.

Lemma target_tarball v fn u algo chksum :
  target v = Some (fn, Tarball u algo chksum) ->
  resolved v.2 = Some u /\ fn = tarball_fn v.1.1 u
  /\ exists i, integrity v.2 = Some i /\ parse_integrity i = Ok (algo, chksum).
Proof.
  unfold target. destruct (resolved v.2) as [url|].
  - destruct (integrity v.2) as [i|]; [|done].
    destruct (parse_integrity i) as [[al c]|] eqn:Hp; [|done].
    intros [= <- <- <- <-]. eauto.
  - destruct (from v.2) as [f|]; [|done].
    destruct (urllib.urlparse f) as [o|]; [|done].
    by destruct (str_in _ _).
Qed.

(** X11. After a walk from the empty Registry, every registry tarball
    of the Registry is stored under the file name derived from its own
    URL and the module name of an entry the walk reached, a name without
    "/"; its algorithm has no hyphen and its checksum is an even number
    of lowercase hexadecimal digits. *)
Theorem registry_tarballs_form d deps st' fn a u algo chksum :
  collect_deps_recursive d deps initial = Ok st' ->
  MODULE_MAP st' !! fn = Some a ->
  desc a = Tarball u algo chksum ->
  (exists v, v ∈ visits d deps /\ resolved v.2 = Some u /\ fn = tarball_fn v.1.1 u)
  /\ Str.contains "/" fn = false
  /\ Str.contains "-" algo = false
  /\ Str.forallb lower_hex chksum = true
  /\ Nat.Even (String.length chksum).
Proof.
  intros Hw Ha Hd. rewrite collect_visits in Hw. apply classify_all_store in Hw.
  assert (Hfv : from_visits (visits d deps) fn a).
  { apply (store_all_from_visits (visits d deps) (visits d deps) _ _ (reflexivity _) Hw);
      [|done].
    intros fn' a' H. unfold initial in H. cbn [MODULE_MAP] in H.
    by rewrite lookup_empty in H. }
  destruct Hfv as [(v & Hv & Ht) _]. rewrite Hd in Ht.
  destruct (target_tarball _ _ _ _ _ Ht) as (Hr & -> & i & Hi & Hp).
  destruct (parse_integrity_inv _ _ _ Hp) as (dg & raw & _ & Halgo & _ & _ & _ & Hlen & Hhex).
  split; [by exists v|]. split; [apply tarball_fn_no_slash|].
  split; [done|]. split; [done|]. exists (length raw). rewrite Hlen. lia.
Qed.

End RegistryTarballsForm.

Lemma registry_tarballs_form_witness :
  (exists v, v ∈ visits "" [("a", x_tarball)]
             /\ resolved v.2 = Some x_url /\ "x-1.0.tgz" = tarball_fn v.1.1 x_url)
  /\ Str.contains "/" "x-1.0.tgz" = false
  /\ Str.contains "-" "sha1" = false
  /\ Str.forallb lower_hex x_chksum = true
  /\ Nat.Even (String.length x_chksum).
Proof.
  refine (@registry_tarballs_form accept_hosts "" [("a", x_tarball)] st_x_a "x-1.0.tgz"
            (mkArtifact (Tarball x_url "sha1" x_chksum) (Some {[ "node_modules/a" ]}))
            x_url "sha1" x_chksum _ _ _).
  - vm_compute. reflexivity.
  - vm_compute. reflexivity.
  - reflexivity.
Defined.

(** ** The paths of the walk *)

Section WalkPaths.
Context {checks : urllib.HostChecks}.

Lemma str_app_assoc (a b c : string) : (a +:+ b) +:+ c = a +:+ (b +:+ c).
Proof.
  induction a as [|x a IH]; [done|].
  change (String x ((a +:+ b) +:+ c) = String x (a +:+ (b +:+ c))). by rewrite IH.
Qed.

(** The two [join] calls of the loop give the parent, when it is not
    empty, a "/", [node_modules], a "/" and the module name. *)
Lemma path_of_under d m : path_of d m = under d m.
Proof.
  unfold path_of, under, Str.join2, urllib.truthy.
  destruct (String.eqb d ""); cbn [negb]; [done|]. by rewrite str_app_assoc.
Qed.

Lemma reached_descends d deps v :
  reached d deps v ->
  exists ms, descends deps ms v.2 /\ v.1.2 = nested d ms /\ last ms = Some v.1.1.
Proof.
  induction 1 as [d deps m e Hin Hb|d deps m e deps' v Hin Hb Hd Hr (ms & Hms & Hp & Hl)].
  - exists [m]. split; [by constructor|]. split; [apply path_of_under|done].
  - exists (m :: ms). split; [by apply (descends_below deps m e deps')|]. split.
    + rewrite Hp. unfold nested. cbn [foldl]. by rewrite path_of_under.
    + rewrite <- Hl. by destruct Hms.
Qed.

(** X12. After a walk from the empty Registry every path of an artifact
    is the path of a chain of module names that leads, dict by dict, from
    the manifest's dependencies to an entry that derives the artifact's
    file name: the directory the walk was started with when it is not
    empty, then for each module of the chain [node_modules] and the module
    name, all joined by "/". *)
Theorem walk_paths_nested d deps st' fn a p :
  collect_deps_recursive d deps initial = Ok st' ->
  MODULE_MAP st' !! fn = Some a ->
  p ∈ paths a ->
  exists ms m e,
    descends deps ms e /\ last ms = Some m
    /\ p = foldl (fun parent module =>
                   (if String.eqb parent "" then "" else parent +:+ "/")
                   +:+ "node_modules/" +:+ module) d ms
    /\ derives fn (m, p, e).
Proof.
  intros Hw Ha Hp.
  destruct (walk_from_reached _ _ _ Hw _ _ Ha) as [_ Hpaths].
  destruct (Hpaths p Hp) as ([[m p'] e] & Hr & E & Hd). cbn [fst snd] in E. subst p'.
  destruct (reached_descends _ _ _ Hr) as (ms & Hms & Hn & Hl). cbn [fst snd] in *.
  exists ms, m, e. done.
Qed.

End WalkPaths.

Lemma walk_paths_nested_witness :
  exists ms m e,
    descends [("b", bundled_y); ("m", no_source_c)] ms e /\ last ms = Some m
    /\ "node_modules/m/node_modules/c"
       = foldl (fun parent module =>
                  (if String.eqb parent "" then "" else parent +:+ "/")
                  +:+ "node_modules/" +:+ module) "" ms
    /\ @derives accept_hosts "x-1.0.tgz" (m, "node_modules/m/node_modules/c", e).
Proof.
  refine (@walk_paths_nested accept_hosts "" [("b", bundled_y); ("m", no_source_c)]
            (mkState
               {[ "x-1.0.tgz" :=
                    mkArtifact (Tarball x_url "sha1" x_chksum)
                      (Some {[ "node_modules/m/node_modules/c" ]}) ]}
               [mkLog WARNING "entry %s has no download" ["m"]])
            "x-1.0.tgz"
            (mkArtifact (Tarball x_url "sha1" x_chksum)
               (Some {[ "node_modules/m/node_modules/c" ]}))
            "node_modules/m/node_modules/c" _ _ _).
  - vm_compute. reflexivity.
  - apply lookup_insert_eq.
  - unfold paths. cbn [path default]. unfold id. by apply elem_of_singleton.
Defined.

(** ** [main] and the downloader *)

Section MainFacts.
Context {checks : urllib.HostChecks} {platform : Platform}.

Lemma sorted_artifacts_empty : sorted_artifacts ∅ = [].
Proof. unfold sorted_artifacts. by rewrite map_to_list_empty. Qed.

(** What a writer that completes leaves: the lines were computed, the
    name is no directory, and the file holds the lines. *)
Lemma write_lines_Ok name lines w w' :
  write_lines name lines w = Ok w' ->
  (name ∉ dirs w)
  /\ exists ls, lines = Ok ls
                /\ w' = mkWorld (<[name := codes (String.concat "" ls)]> (files w)) (dirs w).
Proof.
  unfold write_lines. case_bool_decide as Hd; [done|].
  destruct (write_attempt name [] w); [|done].
  destruct lines as [ls|]; [|done]. cbn [mbind outcome_bind].
  destruct (write_attempt name _ w); [|done]. intros [= <-]. split; [done|]. by exists ls.
Qed.

Lemma write_lines_directory name lines w :
  name ∈ dirs w -> write_lines name lines w = Raise (OSError "Is a directory").
Proof. intros H. unfold write_lines. by rewrite bool_decide_eq_true_2. Qed.

Lemma write_empty_Ok (names : list string) : forall w w',
  write_empty names w = Ok w' ->
  dirs w' = dirs w
  /\ (forall name, name ∈ names -> name ∉ dirs w)
  /\ forall name,
       files w' !! name = if bool_decide (name ∈ names) then Some [] else files w !! name.
Proof.
  induction names as [|n names IH]; intros w w'; cbn [write_empty].
  - intros [= <-]. split; [done|]. split; [by intros name H%elem_of_nil|].
    intros name. case_bool_decide as H; [by apply elem_of_nil in H|done].
  - destruct (write_lines n (Ok []) w) as [w1|] eqn:Hw; [|done]. cbn [mbind outcome_bind].
    intros H. apply write_lines_Ok in Hw as (Hn & ls & [= <-] & ->).
    destruct (IH _ _ H) as (Hd & Hnd & Hf). cbn [dirs files] in *.
    split; [done|]. split.
    + intros name [->|Hin]%elem_of_cons; [done|by apply Hnd].
    + intros name. rewrite Hf.
      destruct (decide (name ∈ names)) as [Hin|Hin].
      * rewrite !bool_decide_eq_true_2; [done|by right|done].
      * rewrite (bool_decide_eq_false_2 _ Hin).
        destruct (decide (n = name)) as [->|Hne].
        -- rewrite lookup_insert_eq, bool_decide_eq_true_2; [done|by left].
        -- rewrite lookup_insert_ne by done. rewrite bool_decide_eq_false_2; [done|].
           intros [->|Hx]%elem_of_cons; done.
Qed.

Lemma write_empty_completes (names : list string) : forall w,
  (forall name, name ∈ names -> name ∉ dirs w) ->
  (forall name w0, name ∈ names -> write_attempt name [] w0 = Written) ->
  is_Ok (write_empty names w).
Proof.
  induction names as [|n names IH]; intros w Hd Hw; cbn [write_empty]; [by eexists|].
  unfold write_lines. rewrite bool_decide_eq_false_2 by (apply Hd; by left).
  rewrite Hw by by left. cbn [mbind outcome_bind String.concat codes].
  change (codes (String.concat "" [])) with (@nil N).
  rewrite Hw by by left. cbn [mbind outcome_bind]. apply IH.
  - intros name Hin. cbn [dirs]. apply Hd. by right.
  - intros name w0 Hin. apply Hw. by right.
Qed.

(** X2. When [main] has written the spec lines and returns, the file
    holds one line for each artifact of the Registry, in the order of the
    file names: the line at position [k] is [Source], the number
    [100 + k], a colon and five spaces, the URL of the artifact, [#/] and
    its file name. *)
Theorem source_lines_numbering args input w z st w' name :
  main args (Ok input) w = Ok (z, st, w') ->
  output args = Some name ->
  checksums args <> Some name -> locations args <> Some name ->
  arg_download args = false ->
  exists lines,
    files w' !! name = Some (codes (String.concat "" lines))
    /\ length lines = size (MODULE_MAP st)
    /\ forall (k : nat) fn a,
         sorted_artifacts (MODULE_MAP st) !! k = Some (fn, a) ->
         lines !! k
         = Some ("Source" +:+ pretty (100 + Z.of_nat k) +:+ ":     "
                 +:+ get_url a +:+ "#/" +:+ fn +:+ nl).
Proof.
  intros Hmain Ho Hc Hl Hd. unfold main in Hmain. cbn [mbind outcome_bind] in Hmain.
  destruct (match input with Some _ => _ | None => _ end) as [st1|]; [|done].
  cbn [mbind outcome_bind] in Hmain. rewrite Ho, Hd in Hmain.
  destruct (write_lines name _ w) as [w0|] eqn:Hw0; [|done].
  cbn [mbind outcome_bind] in Hmain.
  apply write_lines_Ok in Hw0 as (_ & ls & [= <-] & ->).
  destruct (match checksums args with Some _ => _ | None => _ end) as [w1|] eqn:Hw1; [|done].
  cbn [mbind outcome_bind] in Hmain.
  destruct (match locations args with Some _ => _ | None => _ end) as [w2|] eqn:Hw2; [|done].
  cbn [mbind outcome_bind] in Hmain. injection Hmain as <- <- <-. cbn [MODULE_MAP].
  exists (source_lines 100 (sorted_artifacts (MODULE_MAP st1))).
  destruct (source_lines_lookup 100 (sorted_artifacts (MODULE_MAP st1))) as [Hlen Hk].
  split; [|split].
  - assert (H1 : files w1 !! name = Some (codes (String.concat ""
                   (source_lines 100 (sorted_artifacts (MODULE_MAP st1)))))).
    { destruct (checksums args) as [c|].
      - apply write_lines_Ok in Hw1 as (_ & ls & _ & ->). cbn [files].
        rewrite lookup_insert_ne by congruence. apply lookup_insert_eq.
      - injection Hw1 as <-. apply lookup_insert_eq. }
    destruct (locations args) as [l|].
    + apply write_lines_Ok in Hw2 as (_ & ls & _ & ->). cbn [files].
      by rewrite lookup_insert_ne by congruence.
    + by injection Hw2 as <-.
  - rewrite Hlen. unfold sorted_artifacts. rewrite sorted_perm. apply length_map_to_list.
  - intros k fn a Hx. by rewrite Hk, Hx.
Qed.

(** On an empty Registry [main] is the three writers, each without a
    line. *)
Lemma main_empty_registry args input w :
  input = None \/ input = Some [] ->
  main args (Ok input) w
  = w' ← write_empty (requested_outputs args) w;
    Ok (0, logging INFO "main" [] initial, w').
Proof.
  intros Hin. unfold main, requested_outputs.
  assert (Hw : (match input with
                | Some deps =>
                    collect_deps_recursive "" deps (logging INFO "main" [] initial)
                | None => Ok (logging INFO "main" [] initial)
                end) = Ok (logging INFO "main" [] initial))
    by (by destruct Hin as [-> | ->]).
  cbn [mbind outcome_bind]. rewrite Hw. cbn [mbind outcome_bind MODULE_MAP logging initial].
  rewrite sorted_artifacts_empty.
  cbn [source_lines checksum_lines location_lines download].
  destruct (output args) as [o|]; unfold option_list; cbn [option_rect app write_empty].
  - destruct (write_lines o (Ok []) w) as [w1|]; cbn [mbind outcome_bind]; [|reflexivity].
    destruct (checksums args) as [c|]; unfold option_list; cbn [option_rect app write_empty].
    + destruct (write_lines c (Ok []) w1) as [w2|]; cbn [mbind outcome_bind]; [|reflexivity].
      destruct (locations args) as [l|]; unfold option_list; cbn [option_rect app write_empty].
      * destruct (write_lines l (Ok []) w2) as [w3|]; cbn [mbind outcome_bind]; [|reflexivity].
        by destruct (arg_download args).
      * cbn [mbind outcome_bind]. by destruct (arg_download args).
    + cbn [mbind outcome_bind].
      destruct (locations args) as [l|]; unfold option_list; cbn [option_rect app write_empty].
      * destruct (write_lines l (Ok []) w1) as [w3|]; cbn [mbind outcome_bind]; [|reflexivity].
        by destruct (arg_download args).
      * cbn [mbind outcome_bind]. by destruct (arg_download args).
  - cbn [mbind outcome_bind].
    destruct (checksums args) as [c|]; unfold option_list; cbn [option_rect app write_empty].
    + destruct (write_lines c (Ok []) w) as [w2|]; cbn [mbind outcome_bind]; [|reflexivity].
      destruct (locations args) as [l|]; unfold option_list; cbn [option_rect app write_empty].
      * destruct (write_lines l (Ok []) w2) as [w3|]; cbn [mbind outcome_bind]; [|reflexivity].
        by destruct (arg_download args).
      * cbn [mbind outcome_bind]. by destruct (arg_download args).
    + cbn [mbind outcome_bind].
      destruct (locations args) as [l|]; unfold option_list; cbn [option_rect app write_empty].
      * destruct (write_lines l (Ok []) w) as [w3|]; cbn [mbind outcome_bind]; [|reflexivity].
        by destruct (arg_download args).
      * cbn [mbind outcome_bind]. by destruct (arg_download args).
Qed.

(** X13. For a manifest without ["dependencies"], and for one whose
    ["dependencies"] is empty, [main] does the same.  When it returns, it
    returns 0 with an empty Registry, no file it was asked to write is a
    directory, each of them is written empty, no other file and no
    directory is touched, and nothing is downloaded.  It returns when none
    of these names is a directory and the platform lets them be opened for
    writing, and it raises [OSError] when the first of them is a
    directory. *)
Theorem main_without_dependencies args w :
  main args (Ok (Some [])) w = main args (Ok None) w
  /\ (forall z st w',
        main args (Ok None) w = Ok (z, st, w') ->
        z = 0 /\ st = logging INFO "main" [] initial
        /\ dirs w' = dirs w
        /\ (forall name, name ∈ requested_outputs args -> name ∉ dirs w)
        /\ forall name,
             files w' !! name
             = if bool_decide (name ∈ requested_outputs args) then Some []
               else files w !! name)
  /\ ((forall name, name ∈ requested_outputs args -> name ∉ dirs w) ->
      (forall name w0, name ∈ requested_outputs args -> write_attempt name [] w0 = Written) ->
      is_Ok (main args (Ok None) w))
  /\ (forall name,
        head (requested_outputs args) = Some name -> name ∈ dirs w ->
        main args (Ok None) w = Raise (OSError "Is a directory")).
Proof.
  rewrite !main_empty_registry by auto. split; [done|]. split; [|split].
  - intros z st w'.
    destruct (write_empty (requested_outputs args) w) as [w1|] eqn:Hw; [|done].
    cbn [mbind outcome_bind]. intros [= <- <- <-].
    destruct (write_empty_Ok _ _ _ Hw) as (Hd & Hn & Hf). done.
  - intros Hd Hw. destruct (write_empty_completes _ w Hd Hw) as [w1 ->]. by eexists.
  - intros name Hh Hd. destruct (requested_outputs args) as [|n names]; [done|].
    injection Hh as ->. cbn [write_empty]. by rewrite write_lines_directory.
Qed.

End MainFacts.

Lemma source_lines_numbering_witness :
  exists lines,
    files (mkWorld
             {[ "pkg.spec" :=
                  codes ("Source100:     https://r.example/x/-/x-1.0.tgz#/x-1.0.tgz" +:+ nl) ]}
             ∅) !! "pkg.spec"
    = Some (codes (String.concat "" lines))
    /\ length lines = size (MODULE_MAP (mkState (MODULE_MAP st_x_a) [mkLog INFO "main" []]))
    /\ forall (k : nat) fn a,
         sorted_artifacts (MODULE_MAP (mkState (MODULE_MAP st_x_a) [mkLog INFO "main" []]))
           !! k = Some (fn, a) ->
         lines !! k
         = Some ("Source" +:+ pretty (100 + Z.of_nat k) +:+ ":     "
                 +:+ get_url a +:+ "#/" +:+ fn +:+ nl).
Proof.
  refine (@source_lines_numbering accept_hosts platform_http_error
            (mkArgs (Some "pkg.spec") None None false false) (Some [("a", x_tarball)])
            empty_world 0 _ _ "pkg.spec" _ _ _ _ _).
  - vm_compute. reflexivity.
  - reflexivity.
  - discriminate.
  - discriminate.
  - reflexivity.
Defined.

(** For a manifest without dependencies the only file is the empty
    [pkg.spec]. *)
Lemma main_without_dependencies_witness :
  is_Ok (@main accept_hosts platform_http_error
           (mkArgs (Some "pkg.spec") None None false false) (Ok None) empty_world).
Proof.
  refine (proj1 (proj2 (proj2 (@main_without_dependencies accept_hosts platform_http_error
            (mkArgs (Some "pkg.spec") None None false false) empty_world))) _ _).
  - intros name _. cbn [dirs empty_world]. apply not_elem_of_empty.
  - reflexivity.
Defined.

Section DownloaderFacts.
Context {platform : Platform}.

(** X14. With [--download-skip-existing], registry artifacts whose file
    is already in the working directory are not fetched: the downloader
    leaves the working directory as it is and logs one record for each. *)
Theorem download_skips_existing (l : list (string * artifact)) w logs :
  Forall (fun x => has_scm x.2 = false /\ exists_ x.1 w = true
                   /\ Request (get_url x.2) = Ok tt) l ->
  download true l (w, logs) = Ok (w, (logs ++ map skip_record l)%list).
Proof.
  intros H. revert logs. induction H as [|[fn a] l (Hs & He & Hr) _ IH]; intros logs.
  - cbn [download map]. by rewrite app_nil_r.
  - cbn [download fst snd] in *. rewrite Hs. unfold download_tarball.
    rewrite Hr. cbn [mbind outcome_bind fst]. rewrite He. cbn [andb].
    unfold dlog. cbn [fst snd mbind outcome_bind]. rewrite IH.
    cbn [map]. unfold skip_record at 2. cbn [fst].
    by rewrite <- app_assoc.
Qed.

(** X15. A registry artifact changes the files of the working
    directory only after a fetch whose data has the recorded checksum, and
    it leaves the directories alone; when the data was written, it is what
    the file holds. *)
Theorem download_tarball_verified dse fn url a w logs w' logs' :
  download_tarball dse fn url a (w, logs) = Ok (w', logs') ->
  dirs w' = dirs w
  /\ (files w' = files w
      \/ exists algo chksum h data header,
           get_algo a = Ok algo /\ get_chksum a = Ok chksum
           /\ hashlib_new algo = Ok h
           /\ urlopen url header w = Ok (Ok data)
           /\ h data = chksum
           /\ (write_attempt (fn +:+ ".new") data w = Written ->
               files w' !! fn = Some data)).
Proof.
  unfold download_tarball. destruct (Request url); [|done]. cbn [mbind outcome_bind fst].
  destruct (exists_ fn w && dse); [intros [= <- <-]; auto|].
  set (header := if exists_ fn w then Some (stamp_of fn w) else None).
  assert (Hgen : forall s : dstate, fst s = w ->
            (algo ← get_algo a; chksum ← get_chksum a; h ← hashlib_new algo;
             response ← urlopen url header (fst s);
             fetch_body fn algo chksum h response s) = Ok (w', logs') ->
            dirs w' = dirs w
            /\ (files w' = files w
                \/ exists algo chksum h data header,
                     get_algo a = Ok algo /\ get_chksum a = Ok chksum
                     /\ hashlib_new algo = Ok h
                     /\ urlopen url header w = Ok (Ok data)
                     /\ h data = chksum
                     /\ (write_attempt (fn +:+ ".new") data w = Written ->
                         files w' !! fn = Some data))).
  { intros s Hs. rewrite Hs.
    destruct (get_algo a) as [algo|] eqn:Ha; [|done]. cbn [mbind outcome_bind].
    destruct (get_chksum a) as [chksum|] eqn:Hc; [|done]. cbn [mbind outcome_bind].
    destruct (hashlib_new algo) as [h|] eqn:Hh; [|done]. cbn [mbind outcome_bind].
    destruct (urlopen url header w) as [response|] eqn:Hu; [|done].
    cbn [mbind outcome_bind]. unfold fetch_body.
    destruct response as [data|e].
    2:{ destruct e; try done. unfold dlog. rewrite Hs. intros [= <- <-]. auto. }
    destruct (String.eqb (h data) chksum) eqn:Heq; cbn [negb].
    2:{ unfold dlog. rewrite Hs. intros [= <- <-]. auto. }
    apply String.eqb_eq in Heq. rewrite Hs.
    destruct (write_attempt (fn +:+ ".new") data w) as [|what remains] eqn:Hw.
    - cbn [fst snd]. unfold rename. cbn [files dirs]. rewrite lookup_insert_eq.
      cbn [mbind outcome_bind]. intros [= <- <-]. cbn [dirs files]. split; [done|].
      right. exists algo, chksum, h, data, header. repeat split; try done.
      intros _. apply lookup_insert_eq.
    - unfold dlog. cbn [fst snd]. unfold rename. cbn [files dirs].
      destruct remains as [partial|].
      + rewrite lookup_insert_eq. cbn [mbind outcome_bind]. intros [= <- <-].
        cbn [dirs]. split; [done|]. right.
        exists algo, chksum, h, data, header. repeat split; try done. congruence.
      + destruct (files w !! (fn +:+ ".new")) as [stale|]; [|done].
        cbn [mbind outcome_bind]. intros [= <- <-]. cbn [dirs]. split; [done|].
        right. exists algo, chksum, h, data, header. repeat split; try done.
        congruence. }
  unfold header in Hgen. destruct (exists_ fn w); intros H; eapply Hgen; try exact H; done.
Qed.

End DownloaderFacts.

Lemma download_skips_existing_witness :
  @download platform_http_error true [("x-1.0.tgz", x_artifact)] (world_with_x, [])
  = Ok (world_with_x, ([] ++ map skip_record [("x-1.0.tgz", x_artifact)])%list).
Proof.
  apply (@download_skips_existing platform_http_error).
  repeat constructor.
Defined.

Lemma download_tarball_verified_witness :
  dirs (mkWorld {[ "x-1.0.tgz" := [1; 2; 3; 4]%N ]} ∅) = dirs empty_world
  /\ (files (mkWorld {[ "x-1.0.tgz" := [1; 2; 3; 4]%N ]} ∅) = files empty_world
      \/ exists algo chksum h data header,
           get_algo x_artifact = Ok algo /\ get_chksum x_artifact = Ok chksum
           /\ @hashlib_new platform_serving algo = Ok h
           /\ @urlopen platform_serving x_url header empty_world = Ok (Ok data)
           /\ h data = chksum
           /\ (@write_attempt platform_serving ("x-1.0.tgz" +:+ ".new") data empty_world
               = Written ->
               files (mkWorld {[ "x-1.0.tgz" := [1; 2; 3; 4]%N ]} ∅) !! "x-1.0.tgz"
               = Some data)).
Proof.
  refine (@download_tarball_verified platform_serving false "x-1.0.tgz" x_url x_artifact
            empty_world [] (mkWorld {[ "x-1.0.tgz" := [1; 2; 3; 4]%N ]} ∅)
            [mkLog INFO "fetching %s as %s" [x_url; "x-1.0.tgz"]] _).
  vm_compute. reflexivity.
Defined.

(** ** The lines of the location writer *)

Lemma location_lines_Ok (l : list (string * artifact)) lines :
  location_lines l = Ok lines -> lines = map location_line l.
Proof.
  revert lines. induction l as [|[fn a] l IH]; intros lines; cbn [location_lines map].
  - by intros [= <-].
  - unfold get_path. destruct (path a) as [s|] eqn:Hs; [|done]. cbn [mbind outcome_bind].
    destruct (location_lines l) as [rest|]; [|done]. cbn [mbind outcome_bind].
    intros [= <-]. rewrite (IH _ eq_refl). unfold location_line, sorted_paths, paths.
    cbn [fst snd]. by rewrite Hs.
Qed.

Lemma str_length_app (a b : string) :
  String.length (a +:+ b) = (String.length a + String.length b)%nat.
Proof.
  induction a as [|x a IH]; [done|].
  change (String x a +:+ b) with (String x (a +:+ b)). cbn [String.length]. by rewrite IH.
Qed.

Lemma join_cons sep p q (ps : list string) :
  Str.join sep (p :: q :: ps) = p +:+ sep +:+ Str.join sep (q :: ps).
Proof. reflexivity. Qed.

Lemma length_join sep p (ps : list string) :
  (length ps <= String.length (Str.join (String sep "") (p :: ps)))%nat.
Proof.
  revert p. induction ps as [|q ps IH]; intros p; [cbn [length]; lia|].
  rewrite join_cons, !str_length_app. specialize (IH q). cbn [String.length length]. lia.
Qed.

(** Splitting what [join] put together gives the pieces back. *)
Lemma split_join sep (ps : list string) : forall p k,
  (length ps <= k)%nat ->
  Forall (fun x => Str.contains sep x = false) (p :: ps) ->
  Str.split_max sep k (Str.join (String sep "") (p :: ps)) = p :: ps.
Proof.
  induction ps as [|q ps IH]; intros p k Hk Hall.
  - apply Forall_cons in Hall as [Hp _]. cbn [Str.join].
    destruct k; [by destruct p|]. by apply split_max_absent.
  - apply Forall_cons in Hall as [Hp Hall]. destruct k; [cbn [length] in Hk; lia|].
    rewrite join_cons.
    change (String sep "" +:+ Str.join (String sep "") (q :: ps))
      with (String sep (Str.join (String sep "") (q :: ps))).
    rewrite (split_max_first _ _ _ _ Hp). f_equal. apply IH; [|done].
    cbn [length] in Hk. lia.
Qed.

(** X16. When the location writer completes, it has written one line for
    each artifact.  For a file name and paths without a space, the line
    without its line feed splits at the spaces into the file name and the
    paths of the artifact, each path once, in ascending order. *)
Theorem location_writer_lines (l : list (string * artifact)) lines :
  location_lines l = Ok lines ->
  length lines = length l
  /\ forall (k : nat) fn a,
       l !! k = Some (fn, a) ->
       Str.contains " " fn = false ->
       (forall p, p ∈ paths a -> Str.contains " " p = false) ->
       paths a <> ∅ ->
       exists line ps,
         lines !! k = Some (line +:+ nl)
         /\ Str.split " " line = fn :: ps
         /\ Sorted String.le ps /\ NoDup ps
         /\ forall p, p ∈ ps <-> p ∈ paths a.
Proof.
  intros H. apply location_lines_Ok in H as ->. split; [apply length_map|].
  intros k fn a Hk Hfn Hps Hne.
  assert (Hperm : sorted_paths a ≡ₚ elements (paths a))
    by apply merge_sort_Permutation.
  assert (Hmem : forall p, p ∈ sorted_paths a <-> p ∈ paths a).
  { intros p. rewrite Hperm. apply elem_of_elements. }
  destruct (sorted_paths a) as [|q ps] eqn:Hsp.
  { exfalso. apply Hne. apply set_eq. intros p. rewrite <- Hmem.
    split; [by intros ?%elem_of_nil|by intros ?%not_elem_of_empty]. }
  exists (Str.join " " (fn :: q :: ps)), (q :: ps). split; [|split; [|split; [|split]]].
  - rewrite list_lookup_fmap, Hk. cbn [fmap option_fmap option_map].
    unfold location_line. cbn [fst snd]. rewrite Hsp, join_cons.
    by rewrite !str_app_assoc.
  - unfold Str.split. apply split_join; [apply (length_join " " fn (q :: ps))|].
    constructor; [done|]. apply Forall_forall. intros p Hp. by apply Hps, Hmem.
  - rewrite <- Hsp. apply Sorted_merge_sort. apply _.
  - rewrite Hperm. apply NoDup_elements.
  - exact Hmem.
Qed.

Lemma location_writer_lines_witness :
  length
    ["x-1.0.tgz" +:+ " " +:+ "node_modules/a" +:+ " " +:+ "node_modules/b" +:+ nl]
  = length
      [("x-1.0.tgz",
        mkArtifact (Tarball x_url "sha1" x_chksum)
          (Some ({[ "node_modules/b" ]} ∪ {[ "node_modules/a" ]})))]
  /\ forall (k : nat) fn a,
       [("x-1.0.tgz",
         mkArtifact (Tarball x_url "sha1" x_chksum)
           (Some ({[ "node_modules/b" ]} ∪ {[ "node_modules/a" ]})))] !! k = Some (fn, a) ->
       Str.contains " " fn = false ->
       (forall p, p ∈ paths a -> Str.contains " " p = false) ->
       paths a <> ∅ ->
       exists line ps,
         ["x-1.0.tgz" +:+ " " +:+ "node_modules/a" +:+ " " +:+ "node_modules/b" +:+ nl]
           !! k = Some (line +:+ nl)
         /\ Str.split " " line = fn :: ps
         /\ Sorted String.le ps /\ NoDup ps
         /\ forall p, p ∈ ps <-> p ∈ paths a.
Proof.
  refine (location_writer_lines
            [("x-1.0.tgz",
              mkArtifact (Tarball x_url "sha1" x_chksum)
                (Some ({[ "node_modules/b" ]} ∪ {[ "node_modules/a" ]})))] _ _).
  vm_compute. reflexivity.
Defined.

(** ** What a completed [main] tells *)

Section MainCompleted.
Context {checks : urllib.HostChecks} {platform : Platform}.

(** X17. When [main] returns, it returns 0 and its Registry is the one
    the walk over the manifest's dependencies left; when checksums were
    asked for, that Registry holds no git reference, and when locations
    were asked for, every artifact has its paths. *)
Theorem main_completed args input w z st w' :
  main args (Ok input) w = Ok (z, st, w') ->
  z = 0
  /\ (exists st1,
        match input with
        | Some deps => collect_deps_recursive "" deps (logging INFO "main" [] initial)
        | None => Ok (logging INFO "main" [] initial)
        end = Ok st1
        /\ MODULE_MAP st = MODULE_MAP st1)
  /\ (is_Some (checksums args) ->
      forall fn a, MODULE_MAP st !! fn = Some a -> has_scm a = false)
  /\ (is_Some (locations args) ->
      forall fn a, MODULE_MAP st !! fn = Some a -> is_Some (path a)).
Proof.
  unfold main. cbn [mbind outcome_bind].
  destruct (match input with Some _ => _ | None => _ end) as [st1|]; [|done].
  cbn [mbind outcome_bind].
  destruct (match output args with Some _ => _ | None => _ end) as [w0|]; [|done].
  cbn [mbind outcome_bind].
  destruct (match checksums args with Some _ => _ | None => _ end) as [w1|] eqn:Hc; [|done].
  cbn [mbind outcome_bind].
  destruct (match locations args with Some _ => _ | None => _ end) as [w2|] eqn:Hl; [|done].
  cbn [mbind outcome_bind].
  destruct (if arg_download args then _ else _) as [[w3 l3]|]; [|done].
  cbn [mbind outcome_bind]. intros [= <- <- <-]. cbn [MODULE_MAP].
  split; [done|]. split; [by exists st1|]. split.
  - intros [name Hn] fn a Ha. rewrite Hn in Hc.
    apply write_lines_Ok in Hc as (_ & lines & E & _).
    apply checksum_lines_Ok in E. rewrite Forall_forall in E.
    apply (E (fn, a)). by apply elem_of_sorted_artifacts.
  - intros [name Hn] fn a Ha. rewrite Hn in Hl.
    apply write_lines_Ok in Hl as (_ & lines & E & _).
    clear Hc.
    assert (Hall : forall l lines, location_lines l = Ok lines ->
                     Forall (fun x => is_Some (path x.2)) l).
    { clear. induction l as [|[fn a] l IH]; intros lines; [by constructor|].
      cbn [location_lines]. unfold get_path.
      destruct (path a) as [s|] eqn:Hs; [|done]. cbn [mbind outcome_bind].
      destruct (location_lines l) as [rest|]; [|done]. intros _.
      constructor; [cbn [snd]; by rewrite Hs|by eapply IH]. }
    apply Hall in E. rewrite Forall_forall in E.
    apply (E (fn, a)). by apply elem_of_sorted_artifacts.
Qed.

End MainCompleted.

Lemma main_completed_witness :
  0 = 0
  /\ (exists st1,
        @collect_deps_recursive accept_hosts "" [("a", x_tarball)]
          (logging INFO "main" [] initial) = Ok st1
        /\ MODULE_MAP (mkState (MODULE_MAP st_x_a) [mkLog INFO "main" []]) = MODULE_MAP st1)
  /\ (is_Some (checksums (mkArgs None (Some "sums") None false false)) ->
      forall fn a,
        MODULE_MAP (mkState (MODULE_MAP st_x_a) [mkLog INFO "main" []]) !! fn = Some a ->
        has_scm a = false)
  /\ (is_Some (locations (mkArgs None (Some "sums") None false false)) ->
      forall fn a,
        MODULE_MAP (mkState (MODULE_MAP st_x_a) [mkLog INFO "main" []]) !! fn = Some a ->
        is_Some (path a)).
Proof.
  refine (@main_completed accept_hosts platform_http_error
            (mkArgs None (Some "sums") None false false) (Some [("a", x_tarball)])
            empty_world 0 (mkState (MODULE_MAP st_x_a) [mkLog INFO "main" []])
            (mkWorld
               {[ "sums" :=
                    codes (checksum_line ("x-1.0.tgz",
                      mkArtifact (Tarball x_url "sha1" x_chksum)
                        (Some {[ "node_modules/a" ]}))) ]} ∅) _).
  vm_compute. reflexivity.
Defined.

(** ** Git references: the stored URL *)

Section GitUrl.
Context {checks : urllib.HostChecks}.

Lemma find_append c s t :
  Str.contains c s = false -> Str.find c (s +:+ String c t) = Z.of_nat (String.length s).
Proof.
  intros Hs. induction s as [|a s IH].
  - change (Str.find c (String c t) = 0). simpl. by rewrite Ascii.eqb_refl.
  - change (String a s +:+ String c t) with (String a (s +:+ String c t)).
    simpl in Hs. destruct (Ascii.eqb a c) eqn:E; [done|].
    cbn [Str.find String.length]. rewrite E, (IH Hs).
    replace (Z.of_nat (String.length s) <? 0) with false by (symmetry; apply Z.ltb_ge; lia).
    lia.
Qed.

Lemma contains_append_sep c s t : Str.contains c (s +:+ String c t) = true.
Proof. rewrite contains_append. simpl. rewrite Ascii.eqb_refl. apply orb_true_r. Qed.

Lemma take_append s t : Str.take (String.length s) (s +:+ t) = s.
Proof.
  induction s as [|a s IH]; [by destruct t|].
  change (String a s +:+ t) with (String a (s +:+ t)). cbn [String.length Str.take].
  by rewrite IH.
Qed.

Lemma drop_length_append s t : Str.drop (String.length s) (s +:+ t) = t.
Proof.
  induction s as [|a s IH]; [done|].
  change (String a s +:+ t) with (String a (s +:+ t)). cbn [String.length Str.drop].
  exact IH.
Qed.

Lemma slice_to_length s t : Str.slice_to (Z.of_nat (String.length s)) (s +:+ t) = s.
Proof.
  unfold Str.slice_to, Str.bound.
  replace (Z.of_nat (String.length s) <? 0) with false by (symmetry; apply Z.ltb_ge; lia).
  rewrite Nat2Z.id. apply take_append.
Qed.

Lemma slice_from_length c s t :
  Str.slice_from (Z.of_nat (String.length s) + 1) (s +:+ String c t) = t.
Proof.
  unfold Str.slice_from, Str.bound.
  replace (Z.of_nat (String.length s) + 1 <? 0) with false by (symmetry; apply Z.ltb_ge; lia).
  replace (Z.to_nat (Z.of_nat (String.length s) + 1)) with (S (String.length s)) by lia.
  apply drop_append.
Qed.

Lemma cut_at c s t :
  Str.contains c s = false -> urllib.cut c (s +:+ String c t) = (s, t).
Proof.
  intros Hs. unfold urllib.cut. rewrite contains_append_sep, (find_append _ _ _ Hs).
  by rewrite slice_to_length, slice_from_length.
Qed.


Lemma remove_clean f s :
  Str.forallb (fun a => negb (f a)) s = true -> Str.remove f s = s.
Proof.
  induction s as [|a s IH]; simpl; [done|]. intros H.
  apply andb_prop in H as [Ha Hs]. apply negb_true_iff in Ha. rewrite Ha. by rewrite IH.
Qed.

Lemma host_end_append host rest :
  Str.contains "/" host = false -> Str.contains "?" host = false ->
  Str.contains "#" host = false ->
  urllib.host_end rest = O ->
  urllib.host_end (host +:+ rest) = String.length host.
Proof.
  intros H1 H2 H3 Hr. induction host as [|a host IH]; [done|].
  change (String a host +:+ rest) with (String a (host +:+ rest)).
  simpl in H1, H2, H3. cbn [urllib.host_end String.length].
  destruct (Ascii.eqb a "/"); [done|]. destruct (Ascii.eqb a "?"); [done|].
  destruct (Ascii.eqb a "#"); [done|]. cbn [orb]. by rewrite IH.
Qed.

(** A URL made of a scheme, "://", a host, a path and a tail that is
    empty or "#" and a fragment splits into these parts. *)
Lemma urlsplit_parts a sch host path tail frag :
  urllib.c0_control_or_space a = false ->
  urllib.is_ascii_alpha a = true ->
  Str.forallb urllib.scheme_char (String a sch) = true ->
  Str.contains ":" (String a sch) = false ->
  Str.lower (String a sch) = String a sch ->
  Str.forallb (fun c => negb (urllib.unsafe_url_byte c))
    (String a sch +:+ "://" +:+ host +:+ path +:+ tail) = true ->
  Str.contains "/" host = false -> Str.contains "?" host = false ->
  Str.contains "#" host = false ->
  Str.contains "[" host = false -> Str.contains "]" host = false ->
  Str.forallb (fun c => (N_of_ascii c <? 128)%N) host = true ->
  (path = EmptyString \/ exists p, path = String "/" p) ->
  Str.contains "?" path = false -> Str.contains "#" path = false ->
  (tail = EmptyString /\ frag = EmptyString \/ tail = String "#" frag) ->
  urllib.urlsplit (String a sch +:+ "://" +:+ host +:+ path +:+ tail)
  = Ok (String a sch, host, path, EmptyString, frag).
Proof.
  intros Hc0 Halpha Hsch Hcolon Hlower Hclean Hh1 Hh2 Hh3 Hh4 Hh5 Hascii Hpath Hp1 Hp2 Htail.
  unfold urllib.urlsplit.
  set (url := String a sch +:+ "://" +:+ host +:+ path +:+ tail) in *.
  assert (Hl : Str.lstrip urllib.c0_control_or_space url = url).
  { unfold url.
    change (String a sch +:+ "://" +:+ host +:+ path +:+ tail)
      with (String a (sch +:+ "://" +:+ host +:+ path +:+ tail)).
    cbn [Str.lstrip]. by rewrite Hc0. }
  rewrite Hl, (remove_clean _ _ Hclean).
  assert (Hurl : url = String a sch +:+ String ":" ("//" +:+ host +:+ path +:+ tail))
    by reflexivity.
  rewrite Hurl. clear Hl Hurl Hclean url.
  rewrite (find_append _ _ _ Hcolon), slice_to_length, slice_from_length.
  replace (0 <? Z.of_nat (String.length (String a sch))) with true
    by (symmetry; apply Z.ltb_lt; cbn [String.length]; lia).
  change (String a sch +:+ String ":" ("//" +:+ host +:+ path +:+ tail))
    with (String a (sch +:+ String ":" ("//" +:+ host +:+ path +:+ tail))).
  cbv beta iota. rewrite Halpha, Hsch, Hlower. cbn [andb].
  change ("//" +:+ host +:+ path +:+ tail)
    with (String "/" (String "/" (host +:+ path +:+ tail))).
  replace (Str.slice_to 2 (String "/" (String "/" (host +:+ path +:+ tail)))) with "//"
    by reflexivity.
  cbn [String.eqb Ascii.eqb Bool.eqb]. 
  unfold urllib.splitnetloc. cbn [Str.drop].
  assert (Hrest : urllib.host_end (path +:+ tail) = O).
  { destruct Hpath as [->|[p ->]].
    - destruct Htail as [[-> _]| ->]; reflexivity.
    - reflexivity. }
  rewrite (host_end_append _ _ Hh1 Hh2 Hh3 Hrest), take_append, drop_length_append.
  rewrite Hh4, Hh5. cbn [andb orb negb mbind outcome_bind].
  assert (Hcut : urllib.cut "#" (path +:+ tail) = (path, frag)).
  { destruct Htail as [[-> ->]| ->].
    - replace (path +:+ "") with path.
      + unfold urllib.cut. by rewrite Hp2.
      + clear. induction path as [|c p IH]; [done|].
        change (String c p +:+ "") with (String c (p +:+ "")). by rewrite <- IH.
    - by apply cut_at. }
  rewrite Hcut. unfold urllib.cut at 1. rewrite Hp1. rewrite Hascii.
  by rewrite orb_true_r.
Qed.


Lemma plain_path_cases p :
  String.eqb p "" || String.eqb (Str.slice_to 1 p) "/" = true ->
  p = EmptyString \/ exists q, p = String "/" q.
Proof.
  destruct p as [|c q]; [by left|]. intros H. right. exists q.
  cbn in H. destruct q; cbn in H; apply String.eqb_eq in H; by injection H as ->.
Qed.

(** X18.  An entry without ["resolved"] whose ["from"] is
    [git+<s>://<host><path>] with [s] one of [http] and [https], a host
    and a path without the characters [urlsplit] gives a meaning to, and
    with or without a [#<fragment>], is stored with the URL
    [<s>://<host><path>]: the [git+] prefix and the fragment are dropped
    and nothing else changes.  The branch is the fragment, or [master]
    when there is none or it is empty, and the key is
    [<basename>-<branch>.tgz]. *)
Theorem git_reference_url s host path tail frag module p e st :
  s = "http" \/ s = "https" ->
  plain_host host = true ->
  plain_path path = true ->
  no_unsafe_byte (host +:+ path +:+ tail) = true ->
  (tail = EmptyString /\ frag = EmptyString \/ tail = String "#" frag) ->
  resolved e = None ->
  from e = Some ("git+" +:+ s +:+ "://" +:+ host +:+ path +:+ tail) ->
  let branch := if String.eqb frag "" then "master" else frag in
  let base :=
    if Str.endswith ".git" (basename path) then Str.slice_to (-4) (basename path)
    else basename path in
  classify module p e st
  = Ok (mkState
          (<[base +:+ "-" +:+ branch +:+ ".tgz" :=
               mkArtifact (Git branch base (s +:+ "://" +:+ host +:+ path))
                 (Some {[ p ]})]> (MODULE_MAP st))
          (log st)).
Proof.
  intros Hs Hhost Hpath Hclean Htail Hr Hf branch base.
  unfold plain_host in Hhost. unfold plain_path in Hpath.
  repeat (apply andb_prop in Hhost as [Hhost ?]).
  repeat (apply andb_prop in Hpath as [Hpath ?]).
  repeat match goal with H : negb _ = true |- _ => apply negb_true_iff in H end.
  apply plain_path_cases in Hpath.
  assert (Hurl : forall a sch,
             String a sch = "git+" +:+ s ->
             urllib.c0_control_or_space a = false ->
             urllib.is_ascii_alpha a = true ->
             Str.forallb urllib.scheme_char (String a sch) = true ->
             Str.contains ":" (String a sch) = false ->
             Str.lower (String a sch) = String a sch ->
             no_unsafe_byte (String a sch +:+ "://") = true ->
             urllib.urlparse ("git+" +:+ s +:+ "://" +:+ host +:+ path +:+ tail)
             = (if str_in (String a sch) urllib.uses_params
                   && Str.contains ";" path
                then Ok (urllib.mkParseResult (String a sch) host
                           (urllib.splitparams path).1 (urllib.splitparams path).2
                           EmptyString frag)
                else Ok (urllib.mkParseResult (String a sch) host path EmptyString
                           EmptyString frag))).
  { intros a sch Heq Ha1 Ha2 Ha3 Ha4 Ha5 Ha6. unfold urllib.urlparse.
    replace ("git+" +:+ s +:+ "://" +:+ host +:+ path +:+ tail)
      with (String a sch +:+ "://" +:+ host +:+ path +:+ tail)
      by (rewrite Heq; destruct Hs as [-> | ->]; reflexivity).
    rewrite (urlsplit_parts a sch host path tail frag); try done.
    - cbn [mbind outcome_bind]. destruct (_ && _); [|done].
      by destruct (urllib.splitparams path).
    - unfold no_unsafe_byte in *. clear -Ha6 Hclean.
      revert Ha6. generalize (String a sch). intros x. induction x as [|c x IH].
      + intros _. exact Hclean.
      + change (String c x +:+ "://") with (String c (x +:+ "://")).
        change (String c x +:+ "://" +:+ host +:+ path +:+ tail)
          with (String c (x +:+ "://" +:+ host +:+ path +:+ tail)).
        cbn [Str.forallb]. intros H. apply andb_prop in H as [-> H]. by apply IH. }
  assert (Hu : forall sc, sc = "http" \/ sc = "https" ->
             urllib.urlunparse sc host path EmptyString EmptyString None
             = sc +:+ "://" +:+ host +:+ path).
  { intros sc Hsc. unfold urllib.urlunparse, urllib.urlunsplit.
    cbn [urllib.truthy String.eqb negb].
    assert (Ht : urllib.truthy host = true).
    { unfold urllib.truthy. by rewrite Hhost. }
    rewrite Ht. cbn [orb].
    assert (Hp : urllib.truthy path && negb (String.eqb (Str.slice_to 1 path) "/") = false).
    { destruct Hpath as [-> | [q ->]]; [done|].
      destruct q; reflexivity. }
    rewrite Hp. by destruct Hsc as [-> | ->]. }
  assert (Hb : forall sc, git_branch (urllib.mkParseResult sc host path EmptyString EmptyString frag)
                          = branch).
  { intros sc. unfold git_branch, branch, urllib.truthy. cbn [urllib.fragment].
    by destruct (String.eqb frag ""). }
  unfold classify. rewrite Hr.
  destruct Hs as [-> | ->].
  - erewrite unresolved_git;
      [|exact Hf|apply (Hurl "g"%char "it+http"); reflexivity|reflexivity].
    cbn [andb str_in existsb]. unfold git_file, git_url. rewrite Hb.
    cbn [urllib.netloc urllib.path urllib.params urllib.query].
    change (git_scheme _) with "http". rewrite Hu by (by left). reflexivity.
  - erewrite unresolved_git;
      [|exact Hf|apply (Hurl "g"%char "it+https"); reflexivity|reflexivity].
    cbn [andb str_in existsb]. unfold git_file, git_url. rewrite Hb.
    cbn [urllib.netloc urllib.path urllib.params urllib.query].
    change (git_scheme _) with "https". rewrite Hu by (by right). reflexivity.
Qed.

End GitUrl.

Lemma git_reference_url_witness :
  @classify accept_hosts "m" "node_modules/m"
    (mkEntry None None None (Some "git+https://h.example/org/tool.git#v2") None) initial
  = Ok (mkState
          (<[ "tool-v2.tgz" :=
               mkArtifact (Git "v2" "tool" "https://h.example/org/tool.git")
                 (Some {[ "node_modules/m" ]}) ]> (MODULE_MAP initial))
          (log initial)).
Proof.
  refine (@git_reference_url accept_hosts "https" "h.example" "/org/tool.git"
            "#v2" "v2" "m" "node_modules/m"
            (mkEntry None None None (Some "git+https://h.example/org/tool.git#v2") None)
            initial _ _ _ _ _ _ _).
  - by right.
  - reflexivity.
  - reflexivity.
  - reflexivity.
  - by right.
  - reflexivity.
  - reflexivity.
Defined.
